(** * Tiered memory subsystem of cursor-systems: a shallow embedding

    The development follows the JavaScript sources:

    - [ShortTermMemory]  : the short-term memory script (rule 301, file
      unnamed/part_002): working context and pruning;
    - [EpisodicMemory]   : the episodic memory script with its simulated
      in-memory database (file .cursor/rules/001-system-core.mdc);
    - [SemanticMemory]   : .cursor/rules/303-semantic-memory.mdc, the
      rule-file knowledge store [storeKnowledge(topic, knowledge)];
    - [MemoryDB]         : .cursor/db/memory-system.js, the SQLite-backed
      store [storeKnowledge(category, topic, content, options)];
    - [MEMORY_CONTROLLER]: the memory integration script (file
      .cursor/rules/105-cms-specialist-agent.mdc): consolidateMemory,
      extractKnowledge, enrichContext, processInteraction.

    Conventions.  JavaScript numbers that the code only uses as integers
    (timestamps, importances, counters) are [Z]; SQLite REAL columns are
    [Q].  Strings are [string] and are read as ASCII text
    ([Js.ascii_text]).  [Date.now()] and [Math.random()] are oracles
    carried by the host state, and the conversion of a text to a number
    is a parameter where the code relies on it.  Plain objects used as
    maps are modelled for keys that are not names of members of
    [Object.prototype] ([Js.inherited_name]).  A [try] block is a
    computation in [Res]; state changes made before a throw persist. *)

From Stdlib Require Import List String Ascii ZArith QArith Lia Bool Arith.
From Stdlib Require Import Permutation Sorted DecimalString DecimalZ DecimalPos Lqa.
Import ListNotations.

Local Set Warnings "-register-all".

Local Open Scope string_scope.
Local Open Scope list_scope.
Local Open Scope Z_scope.

Local Infix "^^" := String.append (right associativity, at level 60).

(* ================================================================== *)
(** * Part I. Definitions                                              *)
(* ================================================================== *)

(** ** JavaScript built-ins used by the sources *)

Module Js.

(** [Array.prototype.sort(cmp)]: a stable sort; [a] is placed before [b]
    when [cmp a b < 0] and equal elements keep their order. *)
Fixpoint insert_by {A : Type} (cmp : A -> A -> Z) (x : A) (l : list A) : list A :=
  match l with
  | [] => [x]
  | y :: l' => if cmp x y <=? 0 then x :: l else y :: insert_by cmp x l'
  end.

Definition sort {A : Type} (cmp : A -> A -> Z) (l : list A) : list A :=
  fold_right (insert_by cmp) [] l.

(** The order a comparator induces: [a] may stand before [b]. *)
Definition precedes {A : Type} (cmp : A -> A -> Z) (a b : A) : Prop :=
  cmp a b <= 0.

(** [arr.length] as a JavaScript number. *)
Definition len {A : Type} (l : list A) : Z := Z.of_nat (List.length l).

(** [arr.slice(start)] for a non-negative [start]. *)
Definition slice_from {A : Type} (start : Z) (l : list A) : list A :=
  skipn (Z.to_nat start) l.

(** [arr.slice(0, stop)] for a non-negative [stop]. *)
Definition slice_to {A : Type} (stop : Z) (l : list A) : list A :=
  firstn (Z.to_nat stop) l.

(** Character classes of the regular expressions [\s] and [\w]. *)
Definition is_space (c : ascii) : bool :=
  let n := nat_of_ascii c in
  ((9 <=? n) && (n <=? 13))%nat || (n =? 32)%nat.

Definition is_digit (c : ascii) : bool :=
  let n := nat_of_ascii c in ((48 <=? n) && (n <=? 57))%nat.

Definition is_upper (c : ascii) : bool :=
  let n := nat_of_ascii c in ((65 <=? n) && (n <=? 90))%nat.

Definition is_lower (c : ascii) : bool :=
  let n := nat_of_ascii c in ((97 <=? n) && (n <=? 122))%nat.

Definition is_word (c : ascii) : bool :=
  is_digit c || is_upper c || is_lower c || (nat_of_ascii c =? 95)%nat.

Definition lower (c : ascii) : ascii :=
  if is_upper c then ascii_of_nat (nat_of_ascii c + 32) else c.

(** [s.toLowerCase()]. *)
Fixpoint toLowerCase (s : string) : string :=
  match s with
  | EmptyString => EmptyString
  | String c s' => String (lower c) (toLowerCase s')
  end.

(** [s.replace(/\s+/g, "_")]; [in_run] tells that the previous character
    already belonged to the whitespace run being replaced. *)
Fixpoint replace_spaces (in_run : bool) (s : string) : string :=
  match s with
  | EmptyString => EmptyString
  | String c s' =>
      if is_space c
      then if in_run then replace_spaces true s'
           else String "_" (replace_spaces true s')
      else String c (replace_spaces false s')
  end.


(** [s.replace(/[^\w\s]/g, '')]. *)
Fixpoint strip_punctuation (s : string) : string :=
  match s with
  | EmptyString => EmptyString
  | String c s' =>
      if is_word c || is_space c then String c (strip_punctuation s')
      else strip_punctuation s'
  end.

(** [s.split(/\s+/)]: [cur] is the piece being read. *)
Fixpoint split_spaces_from (cur : string) (in_run : bool) (s : string) : list string :=
  match s with
  | EmptyString => [cur]
  | String c s' =>
      if is_space c
      then if in_run then split_spaces_from cur true s'
           else cur :: split_spaces_from EmptyString true s'
      else split_spaces_from (cur ^^ String c EmptyString) false s'
  end.

Definition split_spaces (s : string) : list string :=
  split_spaces_from EmptyString false s.

(** Some suffix of [s] (possibly [s] itself or the empty one) passes [f]. *)
Fixpoint some_suffix (f : string -> bool) (s : string) : bool :=
  f s ||
  match s with
  | EmptyString => false
  | String _ s' => some_suffix f s'
  end.

(** [s.includes(sub)]. *)
Definition includes (sub s : string) : bool := some_suffix (String.prefix sub) s.

(** [s.substring(0, n)] for a non-negative [n]. *)
Definition substring_to (n : nat) (s : string) : string := String.substring 0 n s.

(** [s.length]. *)
Definition strlen (s : string) : Z := Z.of_nat (String.length s).

(** A text of ASCII characters only.  On such a text the character
    classes, [toLowerCase], [length] and [substring] above are those of
    JavaScript; outside ASCII, [\s] also matches characters such as
    U+00A0 and lengths are counted in UTF-16 units. *)
Fixpoint ascii_text (s : string) : bool :=
  match s with
  | EmptyString => true
  | String c s' => (nat_of_ascii c <? 128)%nat && ascii_text s'
  end.

(** An integer inside a template literal. *)
Definition show_int (z : Z) : string := NilZero.string_of_int (Z.to_int z).

(** The double-quote and line-feed characters of the template literals. *)
Definition dquote : string := String (ascii_of_nat 34) EmptyString.
Definition newline : string := String (ascii_of_nat 10) EmptyString.

(** [arr.join(sep)]. *)
Definition join (sep : string) (l : list string) : string := String.concat sep l.

(** A non-negative integer written with at least [width] digits. *)
Definition pad (width : nat) (z : Z) : string :=
  let digits := show_int z in
  String.concat EmptyString (repeat "0" (width - String.length digits)) ^^ digits.

(** [new Date(ms).toISOString()]: the proleptic Gregorian date and UTC
    time of a millisecond timestamp; [None] is the [RangeError] raised
    outside the range of valid dates. *)
Definition toISOString (ms : Z) : option string :=
  if (ms <? -8640000000000000) || (8640000000000000 <? ms) then None
  else
    let days := ms / 86400000 in
    let rest := ms mod 86400000 in
    let z := days + 719468 in
    let era := z / 146097 in
    let doe := z mod 146097 in
    let yoe := (doe - doe / 1460 + doe / 36524 - doe / 146096) / 365 in
    let doy := doe - (365 * yoe + yoe / 4 - yoe / 100) in
    let mp := (5 * doy + 2) / 153 in
    let d := doy - (153 * mp + 2) / 5 + 1 in
    let m := if mp <? 10 then mp + 3 else mp - 9 in
    let y := yoe + era * 400 + (if m <=? 2 then 1 else 0) in
    let year :=
      if (0 <=? y) && (y <=? 9999) then pad 4 y
      else (if y <? 0 then "-" else "+") ^^ pad 6 (Z.abs y) in
    Some (year ^^ "-" ^^ pad 2 m ^^ "-" ^^ pad 2 d ^^ "T"
          ^^ pad 2 (rest / 3600000) ^^ ":" ^^ pad 2 ((rest / 60000) mod 60) ^^ ":"
          ^^ pad 2 ((rest / 1000) mod 60) ^^ "." ^^ pad 3 (rest mod 1000) ^^ "Z").

(** The names of the members of [Object.prototype].  A lookup
    [obj[name]] of such a name on a plain object finds the inherited
    member when the object has no own property of that name, and an
    assignment to [__proto__] sets the prototype instead of a property. *)
Definition inherited_names : list string :=
  ["constructor"; "hasOwnProperty"; "isPrototypeOf"; "propertyIsEnumerable";
   "toLocaleString"; "toString"; "valueOf"; "__proto__";
   "__defineGetter__"; "__defineSetter__"; "__lookupGetter__"; "__lookupSetter__"].

Definition inherited_name (name : string) : bool :=
  existsb (String.eqb name) inherited_names.

(** Plain objects used as maps: own string keys with their values, in
    insertion order.  [obj_get] and [obj_set] are the lookup [obj[k]]
    and the assignment [obj[k] = v] for keys outside [inherited_names];
    what the code does for a key among them is not modelled. *)
Fixpoint obj_get {V : Type} (k : string) (o : list (string * V)) : option V :=
  match o with
  | [] => None
  | (k', v) :: o' => if String.eqb k k' then Some v else obj_get k o'
  end.

Fixpoint obj_set {V : Type} (k : string) (v : V) (o : list (string * V)) : list (string * V) :=
  match o with
  | [] => [(k, v)]
  | (k', v') :: o' =>
      if String.eqb k k' then (k', v) :: o' else (k', v') :: obj_set k v o'
  end.

(** Keys that are array indices (canonical decimal numerals below
    [2^32 - 1]) are enumerated first, in ascending numeric order, by
    [for ... in], [Object.keys] and [Object.entries]. *)
Fixpoint all_digits (s : string) : bool :=
  match s with
  | EmptyString => true
  | String c s' => is_digit c && all_digits s'
  end.

Fixpoint digits_value (acc : Z) (s : string) : Z :=
  match s with
  | EmptyString => acc
  | String c s' => digits_value (10 * acc + (Z.of_nat (nat_of_ascii c) - 48)) s'
  end.

Definition array_index (k : string) : option Z :=
  match k with
  | EmptyString => None
  | String c rest =>
      if all_digits k &&
         (negb (Ascii.eqb c "0") || String.eqb rest EmptyString)
      then let v := digits_value 0 k in
           if v <=? 4294967294 then Some v else None
      else None
  end.

Definition is_index_key {V : Type} (kv : string * V) : bool :=
  match array_index (fst kv) with Some _ => true | None => false end.

Definition index_order {V : Type} (a b : string * V) : Z :=
  match array_index (fst a), array_index (fst b) with
  | Some x, Some y => x - y
  | _, _ => 0
  end.

Definition entries {V : Type} (o : list (string * V)) : list (string * V) :=
  sort index_order (filter is_index_key o)
  ++ filter (fun kv => negb (is_index_key kv)) o.

End Js.

(** ** Results of a [try] block *)

Inductive Res (A : Type) : Type :=
| Ok (a : A)
| Throw (error : string).
Arguments Ok {A} a.
Arguments Throw {A} error.

(** ** The host: clock and random source

    [Date.now()] returns [clock ticks] and advances [ticks];
    [Math.floor(Math.random() * 10000)] returns [rnd draws] and advances
    [draws]. *)

Record Host : Type := mkHost {
  clock : nat -> Z;
  rnd : nat -> Z;
  ticks : nat;
  draws : nat
}.

Definition host_now (h : Host) : Z * Host :=
  (clock h (ticks h), mkHost (clock h) (rnd h) (S (ticks h)) (draws h)).

Definition host_random (h : Host) : Z * Host :=
  (rnd h (draws h), mkHost (clock h) (rnd h) (ticks h) (S (draws h))).

(** ** Records of the three stores *)

(** A knowledge object of the rule-file semantic store. *)
Record Knowledge : Type := mkKnowledge {
  k_id : option string;
  k_category : string;
  k_content : string;
  k_importance : string;
  k_source : string;
  k_timestamp : option Z
}.

(** A row of [semantic_knowledge]. *)
Record KnowledgeRow : Type := mkKnowledgeRow {
  kr_id : string;
  kr_category : string;
  kr_topic : string;
  kr_content : string;
  kr_confidence : Q;
  kr_timestamp : Z;
  kr_last_accessed : Z;
  kr_source : option string;
  kr_metadata : option string
}.

(** A row of [knowledge_relationships]. *)
Record RelationshipRow : Type := mkRelationshipRow {
  rel_id : Z;
  rel_source_id : string;
  rel_target_id : string;
  rel_type : string;
  rel_strength : Q;
  rel_timestamp : Z;
  rel_metadata : option string
}.

(** A row of [memory_queries]. *)
Record QueryRow : Type := mkQueryRow {
  q_id : Z;
  q_memory_type : string;
  q_query : string;
  q_timestamp : Z;
  q_result_count : Z;
  q_duration_ms : Z
}.

(** What a knowledge lookup hands to the controller. *)
Inductive Hit : Type :=
| HitKnowledge (k : Knowledge) (topic : string)   (* [{...knowledge, topic}] *)
| HitBucket (bucket : list (string * Knowledge))  (* [semantic[topic]] *)
| HitRow (r : KnowledgeRow).                      (* a database row *)

(** ** Short-term memory: working-context items *)

Record WorkingContextItem : Type := mkItem {
  item_id : string;
  item_topic : string;
  item_details : string;
  importance : Z;
  created_at : Z;
  expires : option Z            (* [null] or a timestamp *)
}.

(** Values held by the short-term contexts and passed through
    [MEMORY_SYSTEM]. *)
Inductive CtxVal : Type :=
| VNull                                       (* [null] / [undefined] *)
| VBool (b : bool)
| VNum (n : Z)
| VStr (s : string)
| VObj                                        (* an opaque plain object *)
| VItems (l : list WorkingContextItem)
| VConversations (l : list Conversation)
| VEnriched (query : string) (timestamp : Z) (sessionId : CtxVal)
            (workingContext : CtxVal) (recentConversations : option CtxVal)
            (relevantKnowledge : list Hit)
| VQueryOnly (query : string)                 (* [{ query }] *)
with Conversation : Type :=
| mkConversation (conv_id : Z) (conv_session_id : CtxVal)
                 (conv_role conv_content : string) (conv_timestamp : Z).

Definition conv_role (c : Conversation) : string :=
  match c with mkConversation _ _ r _ _ => r end.
Definition conv_content (c : Conversation) : string :=
  match c with mkConversation _ _ _ x _ => x end.
Definition conv_timestamp (c : Conversation) : Z :=
  match c with mkConversation _ _ _ _ t => t end.

(** JavaScript truthiness. *)
Definition truthy (v : CtxVal) : bool :=
  match v with
  | VNull => false
  | VBool b => b
  | VNum n => negb (n =? 0)
  | VStr s => negb (String.eqb s EmptyString)
  | _ => true
  end.

(** [a || b]. *)
Definition js_or (a b : CtxVal) : CtxVal := if truthy a then a else b.

(** [String(v)] for a truthy value, as a template literal or [+] renders
    it; the elements of an array and any other object read
    ["[object Object]"]. *)
Definition js_to_string (v : CtxVal) : string :=
  match v with
  | VNull => "null"
  | VBool true => "true"
  | VBool false => "false"
  | VNum n => Js.show_int n
  | VStr s => s
  | VItems l => Js.join "," (map (fun _ => "[object Object]") l)
  | VConversations l => Js.join "," (map (fun _ => "[object Object]") l)
  | _ => "[object Object]"
  end.

(** [(v || 0) + 1]. *)
Definition js_plus_one (v : CtxVal) : CtxVal :=
  match js_or v (VNum 0) with
  | VNum n => VNum (n + 1)
  | VBool _ => VNum 2
  | other => VStr (js_to_string other ^^ "1")
  end.

(** [v % 5 === 0] for a value [v] of [js_plus_one], which is a number or
    a text.  A text is converted to a number first; this conversion is
    the host's, and [text_multiple_of_5 s] stands for
    [Number(s) % 5 === 0] (true of the text [1e1], which reads 10). *)
Definition js_multiple_of_5 (text_multiple_of_5 : string -> bool) (v : CtxVal) : bool :=
  match v with
  | VNum n => Z.rem n 5 =? 0
  | VStr s => text_multiple_of_5 s
  | _ => false                        (* no value of [js_plus_one] *)
  end.

Module ShortTermCore.

(** The filter [item => !item.expires || item.expires > now]:
    [null] and [0] are falsy, so such items never expire. *)
Definition not_expired (now : Z) (item : WorkingContextItem) : bool :=
  match expires item with
  | None => true
  | Some e => (e =? 0) || (now <? e)
  end.

Definition by_importance_asc (a b : WorkingContextItem) : Z :=
  importance a - importance b.

Definition by_importance_desc (a b : WorkingContextItem) : Z :=
  importance b - importance a.

(** [if (!targetSize) targetSize = this.metadata.memory_limit]. *)
Definition effective_target (memory_limit : Z) (targetSize : option Z) : Z :=
  match targetSize with
  | None => memory_limit
  | Some t => if t =? 0 then memory_limit else t
  end.

(** Body of [pruneMemory] once the working context is known to be an
    array of more than [target] items: the surviving list and the number
    of removed items. *)
Definition prune_items (now target : Z) (l : list WorkingContextItem)
  : list WorkingContextItem * Z :=
  let initialLength := Js.len l in
  let kept := filter (not_expired now) l in
  let removed := initialLength - Js.len kept in
  if target <? Js.len kept then
    let ascending := Js.sort by_importance_asc kept in
    let excessItems := Js.len kept - target in
    let sliced := Js.slice_from excessItems ascending in
    (Js.sort by_importance_desc sliced, removed + excessItems)
  else (kept, removed).

End ShortTermCore.

(** ** The state of the whole memory system *)

Record Metadata : Type := mkMetadata {
  md_created_at : Z;
  md_last_updated : Z;
  md_context_count : Z;
  md_memory_limit : Z
}.

Record ShortTermState : Type := mkShortTerm {
  contexts : list (string * CtxVal);
  metadata : Metadata
}.

Definition SemanticStore : Type := list (string * list (string * Knowledge)).

Record Db : Type := mkDb {
  semantic_knowledge : list KnowledgeRow;
  knowledge_relationships : list RelationshipRow;
  relationships_seq : Z;             (* AUTOINCREMENT counter *)
  memory_queries : list QueryRow;
  queries_seq : Z
}.

Record World : Type := mkWorld {
  host : Host;
  short_term : ShortTermState;
  conversations : list Conversation;   (* simulated [db.conversations] *)
  semantic : SemanticStore;            (* [MEMORY_SYSTEM.semantic] *)
  database : Db                        (* the SQLite tables *)
}.

Definition set_host (h : Host) (w : World) : World :=
  mkWorld h (short_term w) (conversations w) (semantic w) (database w).
Definition set_short_term (s : ShortTermState) (w : World) : World :=
  mkWorld (host w) s (conversations w) (semantic w) (database w).
Definition set_conversations (c : list Conversation) (w : World) : World :=
  mkWorld (host w) (short_term w) c (semantic w) (database w).
Definition set_semantic (s : SemanticStore) (w : World) : World :=
  mkWorld (host w) (short_term w) (conversations w) s (database w).
Definition set_database (d : Db) (w : World) : World :=
  mkWorld (host w) (short_term w) (conversations w) (semantic w) d.

(** [Date.now()]. *)
Definition Date_now (w : World) : Z * World :=
  let (t, h) := host_now (host w) in (t, set_host h w).

(** [Math.floor(Math.random() * 10000)]. *)
Definition Math_random_10000 (w : World) : Z * World :=
  let (r, h) := host_random (host w) in (r, set_host h w).

(** ** ShortTermMemory (the short-term memory script, unnamed/part_002) *)

Module ShortTermMemory.

Definition set_contexts (c : list (string * CtxVal)) (w : World) : World :=
  set_short_term (mkShortTerm c (metadata (short_term w))) w.

Definition set_last_updated (t : Z) (w : World) : World :=
  let m := metadata (short_term w) in
  set_short_term
    (mkShortTerm (contexts (short_term w))
       (mkMetadata (md_created_at m) t (md_context_count m) (md_memory_limit m)))
    w.

Definition set_context_count (n : Z) (w : World) : World :=
  let m := metadata (short_term w) in
  set_short_term
    (mkShortTerm (contexts (short_term w))
       (mkMetadata (md_created_at m) (md_last_updated m) n (md_memory_limit m)))
    w.

Definition memory_limit (w : World) : Z := md_memory_limit (metadata (short_term w)).

(** [this.contexts.working_context] when it is an array of items.  An
    array of anything else stored under that name is not modelled. *)
Definition working_context (w : World) : option (list WorkingContextItem) :=
  match Js.obj_get "working_context" (contexts (short_term w)) with
  | Some (VItems l) => Some l
  | _ => None
  end.

Definition set_working_context (l : list WorkingContextItem) (w : World) : World :=
  set_contexts (Js.obj_set "working_context" (VItems l) (contexts (short_term w))) w.

(** [storeContext(contextName, value)]. *)
Definition storeContext (contextName : string) (value : CtxVal) (w : World)
  : bool * World :=
  let present :=
    match Js.obj_get contextName (contexts (short_term w)) with
    | Some _ => true | None => false end in
  let w1 :=
    if present then w
    else let w' := set_contexts (Js.obj_set contextName VNull (contexts (short_term w))) w in
         set_context_count (Js.len (contexts (short_term w'))) w' in
  let w2 := set_contexts (Js.obj_set contextName value (contexts (short_term w1))) w1 in
  let (t, w3) := Date_now w2 in
  (true, set_last_updated t w3).

(** [getContext(contextName)]. *)
Definition getContext (contextName : string) (w : World) : CtxVal :=
  match Js.obj_get contextName (contexts (short_term w)) with
  | Some v => v
  | None => VNull
  end.

(** [pruneMemory(targetSize = null)]. *)
Definition pruneMemory (targetSize : option Z) (w : World) : Z * World :=
  let target := ShortTermCore.effective_target (memory_limit w) targetSize in
  match working_context w with
  | None => (0, w)
  | Some l =>
      if Js.len l <=? target then (0, w)
      else
        let (now, w1) := Date_now w in
        let (kept, removed) := ShortTermCore.prune_items now target l in
        let w2 := set_working_context kept w1 in
        let (t, w3) := Date_now w2 in
        (removed, set_last_updated t w3)
  end.

(** [addWorkingContext({ topic, details, importance = 3, expires = null })]
    called with an object argument. *)
Definition addWorkingContext (topic details : string) (importance : option Z)
  (expires : option Z) (w : World) : string * World :=
  let w0 := match working_context w with
            | Some _ => w
            | None => set_working_context [] w
            end in
  let (t1, w1) := Date_now w0 in
  let (r, w2) := Math_random_10000 w1 in
  let id := "ctx_" ^^ Js.show_int t1 ^^ "_" ^^ Js.show_int r in
  let (t2, w3) := Date_now w2 in
  let contextItem :=
    mkItem id topic details
      (match importance with Some i => i | None => 3 end) t2 expires in
  let l := match working_context w3 with Some l => l | None => [] end in
  let w4 := set_working_context (l ++ [contextItem]) w3 in
  let (t3, w5) := Date_now w4 in
  let w6 := set_last_updated t3 w5 in
  let w7 := if memory_limit w6 <? Js.len (l ++ [contextItem])
            then snd (pruneMemory None w6) else w6 in
  (id, w7).



End ShortTermMemory.

(** ** EpisodicMemory (the episodic memory script,
    .cursor/rules/001-system-core.mdc) over its simulated database *)

Module EpisodicMemory.

Definition by_timestamp_desc (a b : Conversation) : Z :=
  conv_timestamp b - conv_timestamp a.

(** [storeConversation({ role, content, session_id, timestamp })] with a
    string [content]; the result is [lastID]. *)
Definition storeConversation (role content : string) (session_id : CtxVal)
  (timestamp : option Z) (w : World) : Z * World :=
  let '(session, w1) :=
    if truthy session_id then (session_id, w)
    else
      let stored := ShortTermMemory.getContext "session_id" w in
      if truthy stored then (stored, w)
      else let (t, w') := Date_now w in (VStr ("session_" ^^ Js.show_int t), w') in
  let '(ts, w2) :=
    match timestamp with
    | Some t => if t =? 0 then Date_now w1 else (t, w1)
    | None => Date_now w1
    end in
  (* [db.run("INSERT INTO conversations ...", params)] *)
  let id := Js.len (conversations w2) + 1 in
  let '(ts', w3) := if ts =? 0 then Date_now w2 else (ts, w2) in
  let conversation := mkConversation id session role content ts' in
  (id, set_conversations (conversations w3 ++ [conversation]) w3).

(** The same call once [MEMORY_SYSTEM.db] has been replaced by the
    SQLite handler of db/memory-system.js, which has no [run] method:
    the lookup of the session and the timestamp still happen, then
    [db.run] raises a [TypeError] and the [catch] block returns [null]. *)
Definition storeConversation_without_run (session_id : CtxVal)
  (timestamp : option Z) (w : World) : World :=
  let w1 :=
    if truthy session_id then w
    else if truthy (ShortTermMemory.getContext "session_id" w) then w
         else snd (Date_now w) in
  match timestamp with
  | Some t => if t =? 0 then snd (Date_now w1) else w1
  | None => snd (Date_now w1)
  end.

(** [getRecentConversations(count)] without a session filter:
    [db.all("... ORDER BY timestamp DESC LIMIT :limit", { limit: count })]. *)
Definition getRecentConversations (count : Z) (w : World) : list Conversation :=
  let results := Js.sort by_timestamp_desc (conversations w) in
  if count =? 0 then results
  else if 0 <? count then Js.slice_to count results
  else Js.slice_to (Js.len results + count) results.

Definition by_timestamp_asc (a b : Conversation) : Z :=
  conv_timestamp a - conv_timestamp b.

(** [obj[key] = (obj[key] || 0) + 1] for a key outside
    [Js.inherited_names]; for a key such as ["constructor"] the code
    starts from the inherited member instead of 0, and the count it
    stores is a text. *)
Definition bump (key : string) (counts : list (string * Z)) : list (string * Z) :=
  Js.obj_set key
    (match Js.obj_get key counts with
     | Some n => (if n =? 0 then 0 else n) + 1
     | None => 1
     end) counts.

Definition commonWords : list string :=
  ["the"; "and"; "a"; "an"; "in"; "on"; "at"; "to"; "for"; "with"; "of";
   "is"; "are"; "was"; "were"].

Definition is_common (word : string) : bool :=
  existsb (String.eqb word) commonWords.

Definition topic_word (word : string) : bool :=
  (3 <? Js.strlen word) && negb (is_common word).

Definition by_count_desc (a b : string * Z) : Z := snd b - snd a.

Definition count_words (words : list string) : list (string * Z) :=
  fold_left (fun counts word => if topic_word word then bump word counts else counts)
    words [].

(** [extractTopics(text)]. *)
Definition extractTopics (text : string) : list string :=
  let cleanText := Js.strip_punctuation (Js.toLowerCase text) in
  let words := Js.split_spaces cleanText in
  let wordCounts := count_words words in
  map fst (Js.slice_to 5 (Js.sort by_count_desc (Js.entries wordCounts))).

Definition count_roles (l : list Conversation) : list (string * Z) :=
  fold_left (fun counts c => bump (conv_role c) counts) l [].

Definition summary_text (count : Z) (firstTimestamp lastTimestamp : string)
  (roleCounts : list (string * Z)) (topics : list string) : string :=
  "Conversation with " ^^ Js.show_int count ^^ " messages from " ^^ firstTimestamp
  ^^ " to " ^^ lastTimestamp ^^ ". " ^^ Js.newline
  ^^ "          Message counts by role: "
  ^^ Js.join ", " (map (fun rc => fst rc ^^ ": " ^^ Js.show_int (snd rc))
                     (Js.entries roleCounts))
  ^^ ". " ^^ Js.newline
  ^^ "          Main topics: " ^^ Js.join ", " topics ^^ ".".

(** [summarizeConversations(conversations)] on an array of entries.
    [this_extractTopics] is the [extractTopics] property of the receiver
    [this], if it has one.  The second component is the array after the
    call: it is sorted in place. *)
Definition summarizeConversations (this_extractTopics : option (string -> list string))
  (conversations : list Conversation) : string * list Conversation :=
  match conversations with
  | [] => ("No conversations to summarize.", conversations)
  | c0 :: _ =>
      let roleCounts := count_roles conversations in
      let sorted := Js.sort by_timestamp_asc conversations in
      match Js.toISOString (conv_timestamp (hd c0 sorted)),
            Js.toISOString (conv_timestamp (last sorted c0)) with
      | Some firstTimestamp, Some lastTimestamp =>
          let allText := Js.join " " (map conv_content sorted) in
          match this_extractTopics with
          | Some extract =>
              (summary_text (Js.len sorted) firstTimestamp lastTimestamp roleCounts
                 (extract allText), sorted)
          | None => ("Error generating summary.", sorted)   (* TypeError *)
          end
      | _, _ => ("Error generating summary.", sorted)       (* RangeError *)
      end
  end.

(** The object literal [EpisodicMemory] calling its own method. *)
Definition own_summarizeConversations (conversations : list Conversation)
  : string * list Conversation :=
  summarizeConversations (Some extractTopics) conversations.

(** [globalThis.MEMORY_SYSTEM.summarizeConversations =
     EpisodicMemory.summarizeConversations]: the method is exported
    unbound, so a call through [MEMORY_SYSTEM] runs with the receiver
    [MEMORY_SYSTEM], which has no [extractTopics]. *)
Definition MEMORY_SYSTEM_summarizeConversations (conversations : list Conversation)
  : string * list Conversation :=
  summarizeConversations None conversations.

End EpisodicMemory.

(** ** SemanticMemory (.cursor/rules/303-semantic-memory.mdc) *)

Module SemanticMemory.

Definition bucket (topic : string) (w : World) : list (string * Knowledge) :=
  match Js.obj_get topic (semantic w) with
  | Some b => b
  | None => []
  end.

(** [storeKnowledge(topic, knowledge)]; the object is given its [id] and
    [timestamp] when they are missing.  For a topic outside
    [Js.inherited_names]: for a topic such as ["valueOf"] the test
    [if (!this.semantic[topic])] finds the inherited member, no bucket
    is made, and the entry is written onto that member. *)
Definition storeKnowledge (topic : string) (knowledge : Knowledge) (w : World)
  : string * World :=
  let w0 := match Js.obj_get topic (semantic w) with
            | Some _ => w
            | None => set_semantic (Js.obj_set topic [] (semantic w)) w
            end in
  let '(id, w1) :=
    match k_id knowledge with
    | Some i => if String.eqb i EmptyString then
                  let (t, w') := Date_now w0 in
                  let (r, w'') := Math_random_10000 w' in
                  ("sm_" ^^ Js.show_int t ^^ "_" ^^ Js.show_int r, w'')
                else (i, w0)
    | None => let (t, w') := Date_now w0 in
              let (r, w'') := Math_random_10000 w' in
              ("sm_" ^^ Js.show_int t ^^ "_" ^^ Js.show_int r, w'')
    end in
  let '(ts, w2) :=
    match k_timestamp knowledge with
    | Some t => if t =? 0 then Date_now w1 else (t, w1)
    | None => Date_now w1
    end in
  let stored := mkKnowledge (Some id) (k_category knowledge) (k_content knowledge)
                  (k_importance knowledge) (k_source knowledge) (Some ts) in
  let b := Js.obj_set id stored (bucket topic w2) in
  (id, set_semantic (Js.obj_set topic b (semantic w2)) w2).

(** [getKnowledge(topic)]: the bucket or [null]. *)
Definition getKnowledge (topic : string) (w : World)
  : option (list (string * Knowledge)) :=
  Js.obj_get topic (semantic w).

Definition matches (query topic : string) (k : Knowledge) : bool :=
  (negb (String.eqb (k_content k) EmptyString)
   && Js.includes (Js.toLowerCase query) (Js.toLowerCase (k_content k)))
  || Js.includes (Js.toLowerCase query) (Js.toLowerCase topic).

(** The inner loop of [searchKnowledge] over one bucket; the Boolean tells
    that the limit was reached ([break]). *)
Fixpoint scan_bucket (query topic : string) (limit : Z)
  (b : list (string * Knowledge)) (results : list Hit) : list Hit * bool :=
  match b with
  | [] => (results, false)
  | (_, k) :: b' =>
      if matches query topic k then
        let results' := results ++ [HitKnowledge k topic] in
        if limit <=? Js.len results' then (results', true)
        else scan_bucket query topic limit b' results'
      else scan_bucket query topic limit b' results
  end.

Fixpoint scan_topics (query : string) (limit : Z)
  (s : SemanticStore) (results : list Hit) : list Hit :=
  match s with
  | [] => results
  | (topic, b) :: s' =>
      let (results', _) := scan_bucket query topic limit (Js.entries b) results in
      if limit <=? Js.len results' then results'
      else scan_topics query limit s' results'
  end.

(** Some entry of the bucket of [topic] satisfies [Q]. *)
Definition holds_entry (topic : string) (Q : Knowledge -> Prop) (w : World) : Prop :=
  exists id k, Js.obj_get id (bucket topic w) = Some k /\ Q k.

(** [searchKnowledge(query, limit = 10)]. *)
Definition searchKnowledge (query : string) (limit : option Z) (w : World) : list Hit :=
  scan_topics query (match limit with Some n => n | None => 10 end)
    (Js.entries (semantic w)) [].

End SemanticMemory.

(** ** MemoryDB.semantic (db/memory-system.js) over the SQLite tables

    A table is the list of its rows in rowid order.  The model covers an
    opened database (not the stub object used when SQLite cannot be
    loaded).  Row objects are returned as stored: the JSON decoding of
    [content] and [metadata] on the way out is not modelled. *)

Module Sql.

(** SQLite's [LIKE]: [%] matches any run of characters, [_] any single
    character, other characters match without regard to ASCII case; there
    is no escape character. *)
Fixpoint like (pattern text : string) : bool :=
  match pattern with
  | EmptyString =>
      match text with EmptyString => true | String _ _ => false end
  | String c pattern' =>
      if Ascii.eqb c "%" then Js.some_suffix (like pattern') text
      else
        match text with
        | EmptyString => false
        | String d text' =>
            (Ascii.eqb c "_" || Ascii.eqb (Js.lower c) (Js.lower d))
            && like pattern' text'
        end
  end.

(** A text without the wildcard characters of [LIKE]. *)
Fixpoint plain (s : string) : bool :=
  match s with
  | EmptyString => true
  | String c s' => negb (Ascii.eqb c "%") && negb (Ascii.eqb c "_") && plain s'
  end.

(** [LIMIT n]: a negative [n] means no limit. *)
Definition limit {A : Type} (n : Z) (rows : list A) : list A :=
  if n <? 0 then rows else firstn (Z.to_nat n) rows.

(** Descending order on one column. *)
Definition desc (c : comparison) : Z :=
  match c with Gt => -1 | Eq => 0 | Lt => 1 end.

End Sql.

Record StoreOptions : Type := mkStoreOptions {
  opt_id : option string;
  opt_confidence : option Q;
  opt_source : option string;
  opt_metadata : option string       (* [JSON.stringify(options.metadata)] *)
}.

Record SearchOptions : Type := mkSearchOptions {
  so_category : option string;
  so_limit : option Z
}.

Record RelationshipOptions : Type := mkRelationshipOptions {
  ro_strength : option Q;
  ro_metadata : option string
}.

Inductive Direction : Type := Outgoing | Incoming | BothDirections.

Record RelationshipQuery : Type := mkRelationshipQuery {
  rq_direction : Direction;
  rq_type : option string
}.

(** A row of [getRelationships]: the relationship and the joined
    category and topic of the other endpoint ([None] for SQL NULL). *)
Record RelationshipView : Type := mkRelationshipView {
  rv_row : RelationshipRow;
  rv_other_category : option string;
  rv_other_topic : option string
}.

(** A string option of an options object, read through [||] or [if]. *)
Definition truthy_string (o : option string) : option string :=
  match o with
  | Some s => if String.eqb s EmptyString then None else Some s
  | None => None
  end.

Module MemoryDB.

Definition set_semantic_knowledge (rows : list KnowledgeRow) (w : World) : World :=
  let d := database w in
  set_database (mkDb rows (knowledge_relationships d) (relationships_seq d)
                  (memory_queries d) (queries_seq d)) w.

Definition set_relationships (rows : list RelationshipRow) (seq : Z) (w : World) : World :=
  let d := database w in
  set_database (mkDb (semantic_knowledge d) rows seq
                  (memory_queries d) (queries_seq d)) w.

Definition set_queries (rows : list QueryRow) (seq : Z) (w : World) : World :=
  let d := database w in
  set_database (mkDb (semantic_knowledge d) (knowledge_relationships d)
                  (relationships_seq d) rows seq) w.

Definition keyed (category topic : string) (r : KnowledgeRow) : bool :=
  String.eqb (kr_category r) category && String.eqb (kr_topic r) topic.

Definition has_id (id : string) (r : KnowledgeRow) : bool :=
  String.eqb (kr_id r) id.

Definition touch (id : string) (t : Z) (r : KnowledgeRow) : KnowledgeRow :=
  if has_id id r
  then mkKnowledgeRow (kr_id r) (kr_category r) (kr_topic r) (kr_content r)
         (kr_confidence r) (kr_timestamp r) t (kr_source r) (kr_metadata r)
  else r.

(** [updateLastAccessed(id)]. *)
Definition updateLastAccessed (id : string) (w : World) : World :=
  let (t, w1) := Date_now w in
  set_semantic_knowledge
    (map (touch id t) (semantic_knowledge (database w1))) w1.

(** [getKnowledge(category, topic)]. *)
Definition getKnowledge (category topic : string) (w : World)
  : option KnowledgeRow * World :=
  match find (keyed category topic) (semantic_knowledge (database w)) with
  | None => (None, w)
  | Some row => (Some row, updateLastAccessed (kr_id row) w)
  end.

(** [getById(id)]. *)
Definition getById (id : string) (w : World) : option KnowledgeRow * World :=
  match find (has_id id) (semantic_knowledge (database w)) with
  | None => (None, w)
  | Some row => (Some row, updateLastAccessed id w)
  end.

(** The identifier minted when [options.id] is missing:
    [`${category}_${topic}_${Date.now()}`.replace(/\s+/g, "_")]. *)
Definition mint_id (category topic : string) (t : Z) : string :=
  Js.replace_spaces false (category ^^ "_" ^^ topic ^^ "_" ^^ Js.show_int t).

Definition overwrite (category topic content : string) (confidence : Q) (now : Z)
  (source metadata : option string) (r : KnowledgeRow) : KnowledgeRow :=
  if keyed category topic r
  then mkKnowledgeRow (kr_id r) (kr_category r) (kr_topic r) content confidence
         now (kr_last_accessed r) source metadata
  else r.

(** [options.id || mint], reading the clock only when it mints. *)
Definition choose_id (category topic : string) (options : StoreOptions) (w : World)
  : string * World :=
  match truthy_string (opt_id options) with
  | Some i => (i, w)
  | None => let (t, w') := Date_now w in (mint_id category topic t, w')
  end.

(** [options.confidence || 1.0]. *)
Definition confidence_or_default (options : StoreOptions) : Q :=
  match opt_confidence options with
  | Some q => if Qeq_bool q 0 then 1%Q else q
  | None => 1%Q
  end.

(** [storeKnowledge(category, topic, content, options = {})] with a
    string [content]; [None] is the [null] of the [catch] block. *)
Definition storeKnowledge (category topic content : string) (options : StoreOptions)
  (w : World) : option string * World :=
  let (id, w1) := choose_id category topic options w in
  let confidence := confidence_or_default options in
  let source := truthy_string (opt_source options) in
  let metadata := opt_metadata options in
  let (now, w2) := Date_now w1 in
  let (existingKnowledge, w3) := getKnowledge category topic w2 in
  match existingKnowledge with
  | Some _ =>
      (Some id,
       set_semantic_knowledge
         (map (overwrite category topic content confidence now source metadata)
            (semantic_knowledge (database w3))) w3)
  | None =>
      (* INSERT: [id] is the primary key *)
      if existsb (has_id id) (semantic_knowledge (database w3))
      then (None, w3)
      else
        (Some id,
         set_semantic_knowledge
           (semantic_knowledge (database w3)
            ++ [mkKnowledgeRow id category topic content confidence now now
                  source metadata]) w3)
  end.

(** [logQuery(memoryType, query)]. *)
Definition logQuery (memoryType query : string) (w : World) : World :=
  let (t, w1) := Date_now w in
  let d := database w1 in
  let id := queries_seq d + 1 in
  set_queries (memory_queries d ++ [mkQueryRow id memoryType query t 0 0]) id w1.

Definition same_query (memoryType query : string) (r : QueryRow) : bool :=
  String.eqb (q_memory_type r) memoryType && String.eqb (q_query r) query.

Definition max_timestamp (rows : list QueryRow) : option Z :=
  fold_left (fun acc r => match acc with
                          | None => Some (q_timestamp r)
                          | Some m => Some (Z.max m (q_timestamp r))
                          end) rows None.

(** [updateQueryResults(memoryType, query, resultCount, durationMs)]. *)
Definition updateQueryResults (memoryType query : string) (resultCount durationMs : Z)
  (w : World) : World :=
  let d := database w in
  let latest := max_timestamp (filter (same_query memoryType query) (memory_queries d)) in
  set_queries
    (map (fun r =>
            if same_query memoryType query r
               && match latest with
                  | Some m => q_timestamp r =? m
                  | None => false
                  end
            then mkQueryRow (q_id r) (q_memory_type r) (q_query r) (q_timestamp r)
                   resultCount durationMs
            else r) (memory_queries d))
    (queries_seq d) w.

(** [ORDER BY confidence DESC, last_accessed DESC]; rows that tie stay
    in table order. *)
Definition by_confidence_then_recency (a b : KnowledgeRow) : Z :=
  match Qcompare (kr_confidence a) (kr_confidence b) with
  | Gt => -1
  | Lt => 1
  | Eq => Sql.desc (Z.compare (kr_last_accessed a) (kr_last_accessed b))
  end.

(** The [WHERE] clause of [search]: [AND] binds tighter than [OR]. *)
Definition search_where (query : string) (category : option string)
  (r : KnowledgeRow) : bool :=
  let pattern := "%" ^^ query ^^ "%" in
  match truthy_string category with
  | None => Sql.like pattern (kr_topic r) || Sql.like pattern (kr_content r)
  | Some c =>
      Sql.like pattern (kr_topic r)
      || (Sql.like pattern (kr_content r) && String.eqb (kr_category r) c)
  end.

Definition search_limit (options : SearchOptions) : Z :=
  match so_limit options with
  | Some n => if n =? 0 then 10 else n
  | None => 10
  end.

Definition search_rows (query : string) (options : SearchOptions)
  (rows : list KnowledgeRow) : list KnowledgeRow :=
  Sql.limit (search_limit options)
    (Js.sort by_confidence_then_recency
       (filter (search_where query (so_category options)) rows)).


(** [search(query, options = {})]. *)
Definition search (query : string) (options : SearchOptions) (w : World)
  : list KnowledgeRow * World :=
  let w1 := logQuery "semantic" query w in
  let (startTime, w2) := Date_now w1 in
  let rows := search_rows query options (semantic_knowledge (database w2)) in
  let (endTime, w3) := Date_now w2 in
  let w4 := updateQueryResults "semantic" query (Js.len rows) (endTime - startTime) w3 in
  (rows, fold_left (fun acc row => updateLastAccessed (kr_id row) acc) rows w4).

Definition same_relationship (sourceId targetId relationshipType : string)
  (r : RelationshipRow) : bool :=
  String.eqb (rel_source_id r) sourceId
  && String.eqb (rel_target_id r) targetId
  && String.eqb (rel_type r) relationshipType.

(** [getRelationship(sourceId, targetId, relationshipType)]. *)
Definition getRelationship (sourceId targetId relationshipType : string) (w : World)
  : option RelationshipRow :=
  find (same_relationship sourceId targetId relationshipType)
    (knowledge_relationships (database w)).

(** [createRelationship(sourceId, targetId, relationshipType, options = {})]. *)
Definition createRelationship (sourceId targetId relationshipType : string)
  (options : RelationshipOptions) (w : World) : bool * World :=
  let (source, w1) := getById sourceId w in
  let (target, w2) := getById targetId w1 in
  match source, target with
  | Some _, Some _ =>
      let strength :=
        match ro_strength options with
        | Some q => if Qeq_bool q 0 then 1%Q else q
        | None => 1%Q
        end in
      let metadata := ro_metadata options in
      let d := database w2 in
      match getRelationship sourceId targetId relationshipType w2 with
      | Some _ =>
          let (t, w3) := Date_now w2 in
          (true,
           set_relationships
             (map (fun r =>
                     if same_relationship sourceId targetId relationshipType r
                     then mkRelationshipRow (rel_id r) (rel_source_id r) (rel_target_id r)
                            (rel_type r) strength t metadata
                     else r) (knowledge_relationships d))
             (relationships_seq d) w3)
      | None =>
          let (t, w3) := Date_now w2 in
          let id := relationships_seq d + 1 in
          (true,
           set_relationships
             (knowledge_relationships d
              ++ [mkRelationshipRow id sourceId targetId relationshipType strength t metadata])
             id w3)
      end
  | _, _ => (false, w2)
  end.

(** [ORDER BY kr.strength DESC, kr.timestamp DESC]. *)
Definition by_strength_then_recency (a b : RelationshipRow) : Z :=
  match Qcompare (rel_strength a) (rel_strength b) with
  | Gt => -1
  | Lt => 1
  | Eq => Sql.desc (Z.compare (rel_timestamp a) (rel_timestamp b))
  end.

Definition node (id : string) (nodes : list KnowledgeRow) : option KnowledgeRow :=
  find (has_id id) nodes.

Definition type_filter (t : option string) (r : RelationshipRow) : bool :=
  match truthy_string t with
  | Some ty => String.eqb (rel_type r) ty
  | None => true
  end.

(** The joined rows of [getRelationships] before ordering. *)
Definition relationship_views (nodeId : string) (q : RelationshipQuery)
  (nodes : list KnowledgeRow) (rels : list RelationshipRow) : list RelationshipView :=
  match rq_direction q with
  | Outgoing =>
      (* JOIN semantic_knowledge sk ON kr.target_id = sk.id WHERE kr.source_id = ? *)
      flat_map (fun r =>
        if String.eqb (rel_source_id r) nodeId && type_filter (rq_type q) r then
          match node (rel_target_id r) nodes with
          | Some sk => [mkRelationshipView r (Some (kr_category sk)) (Some (kr_topic sk))]
          | None => []
          end
        else []) rels
  | Incoming =>
      flat_map (fun r =>
        if String.eqb (rel_target_id r) nodeId && type_filter (rq_type q) r then
          match node (rel_source_id r) nodes with
          | Some sk => [mkRelationshipView r (Some (kr_category sk)) (Some (kr_topic sk))]
          | None => []
          end
        else []) rels
  | BothDirections =>
      (* LEFT JOINs; WHERE kr.source_id = ? OR kr.target_id = ? [AND kr.relationship_type = ?] *)
      flat_map (fun r =>
        if String.eqb (rel_source_id r) nodeId
           || (String.eqb (rel_target_id r) nodeId && type_filter (rq_type q) r)
        then
          let other := if String.eqb (rel_source_id r) nodeId
                       then node (rel_target_id r) nodes
                       else node (rel_source_id r) nodes in
          [mkRelationshipView r (option_map kr_category other) (option_map kr_topic other)]
        else []) rels
  end.

(** [getRelationships(nodeId, options = {})]. *)
Definition getRelationships (nodeId : string) (q : RelationshipQuery) (w : World)
  : list RelationshipView :=
  Js.sort (fun a b => by_strength_then_recency (rv_row a) (rv_row b))
    (relationship_views nodeId q
       (semantic_knowledge (database w)) (knowledge_relationships (database w))).

End MemoryDB.

(** ** Operations that may throw *)

Definition Op (W A : Type) : Type := W -> Res A * W.

Definition ret {W A : Type} (a : A) : Op W A := fun w => (Ok a, w).

Definition throw {W A : Type} (error : string) : Op W A := fun w => (Throw error, w).

Definition bind {W A B : Type} (m : Op W A) (k : A -> Op W B) : Op W B :=
  fun w =>
    match m w with
    | (Ok a, w') => k a w'
    | (Throw e, w') => (Throw e, w')
    end.

(** [try { body } catch (error) { handler }]. *)
Definition try_catch {W A : Type} (body : Op W A) (handler : string -> Op W A) : Op W A :=
  fun w =>
    match body w with
    | (Ok a, w') => (Ok a, w')
    | (Throw e, w') => handler e w'
    end.

Notation "x <- m ;; k" := (bind m (fun x => k))
  (at level 61, m at next level, right associativity).
Notation "m ;;; k" := (bind m (fun _ => k))
  (at level 61, right associativity).

(** [for (const x of l) { body }]. *)
Fixpoint for_each {W A : Type} (l : list A) (body : A -> Op W unit) : Op W unit :=
  match l with
  | [] => ret tt
  | x :: l' => body x ;;; for_each l' body
  end.

(** A loop that carries an accumulator. *)
Fixpoint fold_op {W A B : Type} (l : list A) (acc : B) (body : B -> A -> Op W B) : Op W B :=
  match l with
  | [] => ret acc
  | x :: l' => acc' <- body acc x ;; fold_op l' acc' body
  end.

(** ** The duck-typed [globalThis.MEMORY_SYSTEM]

    Every method may be missing ([typeof ... === 'function'] fails, or the
    call raises a [TypeError]) and may throw. *)

Record MemorySystem (W : Type) : Type := mkMemorySystem {
  ms_now : W -> Z * W;                                    (* [Date.now()] *)
  ms_storeContext : option (string -> CtxVal -> Op W CtxVal);
  ms_getContext : option (string -> Op W CtxVal);
  (* [storeConversation({ role, content, session_id, timestamp })] *)
  ms_storeConversation : option (string -> string -> CtxVal -> option Z -> Op W CtxVal);
  ms_getRecentConversations : option (Z -> Op W CtxVal);
  ms_storeKnowledge : option (string -> Knowledge -> Op W CtxVal);
  (* [searchKnowledge(keyword, 2)] *)
  ms_searchKnowledge : option (string -> Z -> Op W (list Hit));
  ms_getKnowledge : option (string -> Op W (option Hit))
}.
Arguments ms_now {W}.
Arguments ms_storeContext {W}.
Arguments ms_getContext {W}.
Arguments ms_storeConversation {W}.
Arguments ms_getRecentConversations {W}.
Arguments ms_storeKnowledge {W}.
Arguments ms_searchKnowledge {W}.
Arguments ms_getKnowledge {W}.

(** ** MEMORY_CONTROLLER (the memory integration script) *)

Module MEMORY_CONTROLLER.

Section Controller.

Context {W : Type}.
Variable MEMORY_SYSTEM : MemorySystem W.

Definition now : Op W Z := fun w => let (t, w') := ms_now MEMORY_SYSTEM w in (Ok t, w').

(** Calling a method that is not there raises a [TypeError]. *)
Definition storeContext (name : string) (v : CtxVal) : Op W CtxVal :=
  match ms_storeContext MEMORY_SYSTEM with
  | Some f => f name v
  | None => throw "TypeError"
  end.

Definition getContext (name : string) : Op W CtxVal :=
  match ms_getContext MEMORY_SYSTEM with
  | Some f => f name
  | None => throw "TypeError"
  end.

(** [getContext("session_id") || `session_${Date.now()}`]. *)
Definition session_or_new : Op W CtxVal :=
  sid <- getContext "session_id" ;;
  if truthy sid then ret sid
  else t <- now ;; ret (VStr ("session_" ^^ Js.show_int t)).

(** The [importance] label that [consolidateMemory] gives an item it
    stores. *)
Definition importance_label (numericImportance : Z) : string :=
  if 5 <=? numericImportance then "high" else "medium".

(** One turn of the loop over the working context. *)
Definition consolidate_item (store : string -> Knowledge -> Op W CtxVal)
  (context : WorkingContextItem) : Op W unit :=
  if 4 <=? importance context then
    t <- now ;;
    store (item_topic context)
      (mkKnowledge None "working_context" (item_details context)
         (importance_label (importance context)) "short_term_memory" (Some t)) ;;;
    ret tt
  else ret tt.

(** The mapping written next to [consolidateMemory] in the rule text. *)
Definition mapImportance (numericImportance : Z) : string :=
  if 5 <=? numericImportance then "high"
  else if 3 <=? numericImportance then "medium"
  else "low".

(** The steps inside the [try] block of [consolidateMemory]. *)
Definition consolidate_steps : Op W bool :=
  wc <- getContext "working_context" ;;
  let workingContext := js_or wc (VItems []) in
  conversationSummary <- getContext "conversation_summary" ;;
  sessionId <- session_or_new ;;
  (match ms_storeConversation MEMORY_SYSTEM with
   | Some storeConversation =>
       if truthy conversationSummary then
         t <- now ;;
         storeConversation "system"
           ("Session summary: " ^^ js_to_string conversationSummary)
           sessionId (Some t) ;;;
         ret tt
       else ret tt
   | None => ret tt
   end) ;;;
  (match workingContext, ms_storeKnowledge MEMORY_SYSTEM with
   | VItems items, Some storeKnowledge =>
       for_each items (consolidate_item storeKnowledge)
   | _, _ => ret tt   (* no [length], no items with an importance, or no method *)
   end) ;;;
  ret true.

(** [consolidateMemory()]: [catch (error) { ...; return false; }]. *)
Definition consolidateMemory : Op W bool :=
  try_catch consolidate_steps (fun _ => ret false).

Definition mentions_code (content : string) : bool :=
  Js.includes "function" content || Js.includes "class" content
  || Js.includes "variable" content.

Definition mentions_error (content : string) : bool :=
  Js.includes "error" content || Js.includes "bug" content
  || Js.includes "issue" content.

(** The entries that the loop of [extractKnowledge] does not skip. *)
Definition scanned (conversation : Conversation) : bool :=
  negb (String.eqb (conv_role conversation) "system")
  && negb (String.eqb (conv_content conversation) EmptyString).

Definition code_knowledge (content : string) (t : Z) : Knowledge :=
  mkKnowledge None "code_snippets"
    ("Code discussion: " ^^ Js.substring_to 100 content ^^ "...")
    "medium" "conversation" (Some t).

Definition error_knowledge (content : string) (t : Z) : Knowledge :=
  mkKnowledge None "errors"
    ("Error discussion: " ^^ Js.substring_to 100 content ^^ "...")
    "high" "conversation" (Some t).

(** One turn of the loop over the recent conversations. *)
Definition extract_from (conversation : Conversation) : Op W unit :=
  if scanned conversation then
    (if mentions_code (conv_content conversation) then
       match ms_storeKnowledge MEMORY_SYSTEM with
       | Some storeKnowledge =>
           t <- now ;;
           storeKnowledge "code_patterns" (code_knowledge (conv_content conversation) t) ;;;
           ret tt
       | None => ret tt
       end
     else ret tt) ;;;
    (if mentions_error (conv_content conversation) then
       match ms_storeKnowledge MEMORY_SYSTEM with
       | Some storeKnowledge =>
           t <- now ;;
           storeKnowledge "troubleshooting" (error_knowledge (conv_content conversation) t) ;;;
           ret tt
       | None => ret tt
       end
     else ret tt)
  else ret tt.

(** The steps inside the [try] block of [extractKnowledge]. *)
Definition extract_steps : Op W bool :=
  match ms_getRecentConversations MEMORY_SYSTEM with
  | None => ret false
  | Some getRecentConversations =>
      recentConversations <- getRecentConversations 20 ;;
      match recentConversations with
      | VConversations [] => ret false
      | VConversations l => for_each l extract_from ;;; ret true
      | VItems [] => ret false
      | VItems _ => ret true      (* items have no [role] or [content] *)
      | _ => ret false            (* not an array *)
      end
  end.

(** [extractKnowledge()]: [catch (error) { ...; return false; }]. *)
Definition extractKnowledge : Op W bool :=
  try_catch extract_steps (fun _ => ret false).

(** The keywords of a query. *)
Definition keywords (query : string) : list string :=
  filter (fun word => 3 <? Js.strlen word)
    (Js.split_spaces (Js.strip_punctuation (Js.toLowerCase query))).

Definition relevant_knowledge (words : list string) : Op W (list Hit) :=
  match ms_searchKnowledge MEMORY_SYSTEM, ms_getKnowledge MEMORY_SYSTEM with
  | Some searchKnowledge, _ =>
      fold_op words [] (fun relevantKnowledge keyword =>
        results <- searchKnowledge keyword 2 ;;
        ret (if 0 <? Js.len results then relevantKnowledge ++ results
             else relevantKnowledge))
  | None, Some getKnowledge =>
      fold_op words [] (fun relevantKnowledge keyword =>
        knowledge <- getKnowledge keyword ;;
        ret (match knowledge with
             | Some k => relevantKnowledge ++ [k]
             | None => relevantKnowledge
             end))
  | None, None => ret []
  end.

(** The steps inside the [try] block of [enrichContext]. *)
Definition enrich_steps (query : string) : Op W CtxVal :=
  timestamp <- now ;;
  sessionId <- session_or_new ;;
  wc <- getContext "working_context" ;;
  let workingContext := js_or wc (VItems []) in
  recentConversations <-
    (match ms_getRecentConversations MEMORY_SYSTEM with
     | Some getRecentConversations => r <- getRecentConversations 5 ;; ret (Some r)
     | None => ret None
     end) ;;
  relevantKnowledge <- relevant_knowledge (keywords query) ;;
  let enrichedContext :=
    VEnriched query timestamp sessionId workingContext recentConversations
      relevantKnowledge in
  storeContext "enriched_context" enrichedContext ;;;
  ret enrichedContext.

(** [enrichContext(query)]: [catch (error) { ...; return { query }; }]. *)
Definition enrichContext (query : string) : Op W CtxVal :=
  try_catch (enrich_steps query) (fun _ => ret (VQueryOnly query)).

(** [enrichedContext.relevantKnowledge?.length || 0]. *)
Definition fragment_count (enrichedContext : CtxVal) : Z :=
  match enrichedContext with
  | VEnriched _ _ _ _ _ relevantKnowledge => Js.len relevantKnowledge
  | _ => 0
  end.

Definition response_text (userQuery : string) (fragments : Z) : string :=
  "Response to " ^^ Js.dquote ^^ Js.substring_to 30 userQuery ^^ "..." ^^ Js.dquote
  ^^ " based on " ^^ Js.show_int fragments ^^ " knowledge fragments".

Definition fallback_text (userQuery : string) : string :=
  "I encountered an issue while processing your query: " ^^ Js.dquote
  ^^ Js.substring_to 30 userQuery ^^ "..." ^^ Js.dquote.

Definition log_turn (role content : string) : Op W unit :=
  match ms_storeConversation MEMORY_SYSTEM with
  | Some storeConversation =>
      t <- now ;; storeConversation role content VNull (Some t) ;;; ret tt
  | None => ret tt
  end.

(** [Number(text) % 5 === 0], the host's reading of a counter that is a
    text (see [js_multiple_of_5]). *)
Variable text_multiple_of_5 : string -> bool.

(** The eight steps inside the [try] block of [processInteraction]. *)
Definition interaction_steps (query : string)
  (responseCallback : option (string -> CtxVal -> Op W unit)) : Op W string :=
  storeContext "current_query" (VStr query) ;;;
  log_turn "user" query ;;;
  enrichedContext <- enrichContext query ;;
  let response := response_text query (fragment_count enrichedContext) in
  storeContext "last_response" (VStr response) ;;;
  log_turn "assistant" response ;;;
  count <- getContext "interaction_count" ;;
  let interactionCount := js_plus_one count in
  storeContext "interaction_count" interactionCount ;;;
  (if js_multiple_of_5 text_multiple_of_5 interactionCount
   then consolidateMemory ;;; extractKnowledge ;;; ret tt
   else ret tt) ;;;
  (match responseCallback with
   | Some callback => callback response enrichedContext
   | None => ret tt
   end) ;;;
  ret response.

(** [processInteraction(userQuery, responseCallback)].  The log line
    before [try] calls [userQuery.substring], which only a string has. *)
Definition processInteraction (userQuery : CtxVal)
  (responseCallback : option (string -> CtxVal -> Op W unit)) : Op W string :=
  match userQuery with
  | VStr query =>
      try_catch (interaction_steps query responseCallback)
        (fun _ => ret (fallback_text query))
  | _ => throw "TypeError"
  end.

End Controller.

End MEMORY_CONTROLLER.

(** ** Two ways [MEMORY_SYSTEM] gets populated *)

Module Bindings.

Definition pure {A : Type} (f : World -> A * World) (wrap : A -> CtxVal) : Op World CtxVal :=
  fun w => let (a, w') := f w in (Ok (wrap a), w').

(** The rule scripts alone: short-term, episodic (simulated database)
    and semantic memory of the rule files. *)
Definition rules : MemorySystem World :=
  mkMemorySystem World Date_now
    (Some (fun name v => pure (ShortTermMemory.storeContext name v) VBool))
    (Some (fun name w => (Ok (ShortTermMemory.getContext name w), w)))
    (Some (fun role content session timestamp =>
             pure (EpisodicMemory.storeConversation role content session timestamp) VNum))
    (Some (fun count w =>
             (Ok (VConversations (EpisodicMemory.getRecentConversations count w)), w)))
    (Some (fun topic knowledge => pure (SemanticMemory.storeKnowledge topic knowledge) VStr))
    (Some (fun query limit w =>
             (Ok (SemanticMemory.searchKnowledge query (Some limit) w), w)))
    (Some (fun topic w =>
             (Ok (option_map HitBucket (SemanticMemory.getKnowledge topic w)), w))).

(** [MEMORY_SYSTEM.storeKnowledge(topic, knowledge)] when the method is
    the wrapper of db/memory-system.js, whose parameters are
    [(category, topic, content, options)]: the topic string arrives as
    [category], the knowledge object as [topic], [content] is
    [undefined].  [MemoryDB.semantic.storeKnowledge] reads the clock for
    the id and for [now]; better-sqlite3 never binds a plain object as a
    positional value (it reads it as the bag of named parameters), so the
    [SELECT] of [getKnowledge] is one value short and throws (caught
    there, [null]) and then the [INSERT] throws (caught, [null]).  No
    table changes. *)
Definition db_storeKnowledge (topic : string) (knowledge : Knowledge) : Op World CtxVal :=
  fun w =>
    let (_, w1) := Date_now w in
    let (_, w2) := Date_now w1 in
    (Ok VNull, w2).

(** [MEMORY_SYSTEM.searchKnowledge(keyword, 2)] through the same module:
    the number 2 arrives as [options], and a number has neither
    [category] nor [limit]. *)
Definition db_searchKnowledge (query : string) (options : Z) : Op World (list Hit) :=
  fun w =>
    let (rows, w') := MemoryDB.search query (mkSearchOptions None None) w in
    (Ok (map HitRow rows), w').

(** [MEMORY_SYSTEM.getKnowledge(keyword)] through the same module:
    [topic] is [undefined] and no row is selected. *)
Definition db_getKnowledge (category : string) : Op World (option Hit) :=
  fun w => (Ok None, w).

(** The rule scripts with db/memory-system.js loaded: its wrappers are
    the semantic methods, and [MEMORY_SYSTEM.db] is the SQLite handler,
    so the episodic functions fail inside their own [try] blocks. *)
Definition with_db : MemorySystem World :=
  mkMemorySystem World Date_now
    (Some (fun name v => pure (ShortTermMemory.storeContext name v) VBool))
    (Some (fun name w => (Ok (ShortTermMemory.getContext name w), w)))
    (Some (fun role content session timestamp w =>
             (Ok VNull, EpisodicMemory.storeConversation_without_run session timestamp w)))
    (Some (fun count w => (Ok (VConversations []), w)))
    (Some db_storeKnowledge)
    (Some db_searchKnowledge)
    (Some db_getKnowledge).

(** The state after one turn of the loops of [extractKnowledge] and
    [consolidateMemory] under the rule scripts. *)
Definition rules_write (topic : string) (make : Z -> Knowledge) (w : World) : World :=
  let (t, w1) := Date_now w in
  snd (SemanticMemory.storeKnowledge topic (make t) w1).


Definition rules_consolidate_step (context : WorkingContextItem) (w : World) : World :=
  if 4 <=? importance context then
    rules_write (item_topic context)
      (fun t => mkKnowledge None "working_context" (item_details context)
                  (MEMORY_CONTROLLER.importance_label (importance context))
                  "short_term_memory" (Some t)) w
  else w.



(** An operation that leaves the SQLite tables as they are. *)
Definition keeps_database {A : Type} (m : Op World A) : Prop :=
  forall w, database (snd (m w)) = database w.

(** An operation that leaves the rule-file semantic store as it is. *)
Definition keeps_semantic {A : Type} (m : Op World A) : Prop :=
  forall w, semantic (snd (m w)) = semantic w.

End Bindings.

(** ** Concrete states used in the examples *)

Module Samples.

(** A clock that advances by one millisecond per reading from 1000, and
    a random source that always draws 7. *)
Definition host0 : Host := mkHost (fun n => 1000 + Z.of_nat n) (fun _ => 7) 0 0.


Definition empty_db : Db := mkDb [] [] 0 [] 0.

Definition no_options : StoreOptions := mkStoreOptions None None None None.


Definition world_with (wc : list WorkingContextItem) : World :=
  mkWorld host0
    (mkShortTerm [("session_id", VStr "session_1"); ("working_context", VItems wc)]
       (mkMetadata 0 0 2 1000))
    [] [] empty_db.

Definition item (topic : string) (imp : Z) (exp : option Z) : WorkingContextItem :=
  mkItem ("ctx_" ^^ topic) topic "details" imp 0 exp.

Definition node (id topic content : string) (confidence : Q) (accessed : Z)
  : KnowledgeRow :=
  mkKnowledgeRow id "notes" topic content confidence 1 accessed None None.

Definition world_with_db (nodes : list KnowledgeRow) (rels : list RelationshipRow)
  : World :=
  mkWorld host0 (mkShortTerm [] (mkMetadata 0 0 0 1000)) [] []
    (mkDb nodes rels (Js.len rels) [] 0).

(** Three nodes that mention "cache", accessed at 10, 30 and 20. *)
Definition ranked_nodes : list KnowledgeRow :=
  [node "n1" "cache design" "lru cache" (9 # 10) 10;
   node "n2" "cache size" "64 entries" (5 # 10) 30;
   node "n3" "Cache policy" "write back" (9 # 10) 20].

Definition linked_world : World :=
  world_with_db ranked_nodes
    [mkRelationshipRow 1 "n1" "n2" "depends_on" 1 5 None].

Definition world_with_conversations (l : list Conversation) : World :=
  mkWorld host0
    (mkShortTerm [("session_id", VStr "session_1"); ("working_context", VItems [])]
       (mkMetadata 0 0 2 1000))
    l [] empty_db.

(** One user turn that mentions a bug, followed by twenty later system
    entries. *)
Definition buried_user_turn : list Conversation :=
  mkConversation 1 (VStr "session_1") "user" "there is a bug in the function" 1
  :: map (fun n => mkConversation (Z.of_nat n) (VStr "session_1") "system"
                     "Session summary: none" (Z.of_nat n))
       (seq 2 20).



(** [Number(text) % 5 === 0] on the texts that are plain decimal
    numerals; the examples meet no other counter text. *)
Definition decimal_multiple_of_5 (text : string) : bool :=
  Js.all_digits text && negb (String.eqb text EmptyString)
  && (Z.rem (Js.digits_value 0 text) 5 =? 0).

End Samples.

(* ================================================================== *)
(** * Part I, continued. Further operations of the stores              *)
(* ================================================================== *)

(** ** [Array.prototype.slice] with any integer arguments *)

Module JsArray.

(** The position [slice] makes of an argument over an array of [n]
    elements: a negative argument counts from the end, and both ends are
    clamped to the array. *)
Definition clamp (i : Z) (n : nat) : nat :=
  if i <? 0 then Z.to_nat (Z.of_nat n + i) else Nat.min (Z.to_nat i) n.

(** [arr.slice(start)]. *)
Definition slice1 {A : Type} (start : Z) (l : list A) : list A :=
  skipn (clamp start (List.length l)) l.

(** [arr.slice(start, stop)]. *)
Definition slice {A : Type} (start stop : Z) (l : list A) : list A :=
  let k := clamp start (List.length l) in
  let e := clamp stop (List.length l) in
  firstn (e - k) (skipn k l).

End JsArray.

(** ** ShortTermMemory: reading and clearing the working context *)

(** The argument object of [getWorkingContext]; [None] is a missing
    property, for which the default of the parameter list applies. *)
Record ContextQuery : Type := mkContextQuery {
  wq_topic : option string;
  wq_minImportance : option Z;
  wq_maxItems : option Z
}.

Module ShortTermOps.

Definition has_topic (topic : string) (item : WorkingContextItem) : bool :=
  String.eqb (item_topic item) topic.

Definition at_least (minImportance : Z) (item : WorkingContextItem) : bool :=
  minImportance <=? importance item.

(** The three filters of [getWorkingContext], in the order of the code. *)
Definition select (query : ContextQuery) (now : Z) (l : list WorkingContextItem)
  : list WorkingContextItem :=
  let by_topic :=
    match truthy_string (wq_topic query) with
    | Some topic => filter (has_topic topic) l
    | None => l
    end in
  let minImportance := match wq_minImportance query with Some m => m | None => 0 end in
  filter (ShortTermCore.not_expired now) (filter (at_least minImportance) by_topic).

(** [if (maxItems && result.length > maxItems) result = result.slice(0, maxItems)]. *)
Definition cap (maxItems : Z) (result : list WorkingContextItem)
  : list WorkingContextItem :=
  if negb (maxItems =? 0) && (maxItems <? Js.len result)
  then JsArray.slice 0 maxItems result
  else result.

(** [getWorkingContext({ topic = null, minImportance = 0, maxItems = 10 })]
    called with an object argument.  The filters build a new array, so the
    sort does not touch the stored one. *)
Definition getWorkingContext (query : ContextQuery) (w : World)
  : list WorkingContextItem * World :=
  match ShortTermMemory.working_context w with
  | None => ([], w)
  | Some l =>
      let (now, w1) := Date_now w in
      let result := Js.sort ShortTermCore.by_importance_desc (select query now l) in
      (cap (match wq_maxItems query with Some m => m | None => 10 end) result, w1)
  end.

Definition keeps_id (itemId : string) (item : WorkingContextItem) : bool :=
  negb (String.eqb (item_id item) itemId).

(** What [clearContext] leaves in place of a whole context: [[]] for an
    array, [{}] for any other object ([typeof null] is ['object'] too) and
    [null] for a primitive.  [VNull] is read as [null]. *)
Definition cleared (v : CtxVal) : CtxVal :=
  match v with
  | VItems _ => VItems []
  | VConversations _ => VConversations []
  | VBool _ | VNum _ | VStr _ => VNull
  | _ => VObj
  end.

(** [clearContext(contextName, itemId = null)] with a string or missing
    [itemId].  The entries of a conversation array carry numeric ids, which
    no string is strictly equal to. *)
Definition clearContext (contextName : string) (itemId : option string) (w : World)
  : bool * World :=
  match Js.obj_get contextName (contexts (short_term w)) with
  | None => (false, w)
  | Some v =>
      let stored (v' : CtxVal) :=
        ShortTermMemory.set_contexts
          (Js.obj_set contextName v' (contexts (short_term w))) w in
      match truthy_string itemId, v with
      | Some id, VItems l =>
          let kept := filter (keeps_id id) l in
          let (t, w1) := Date_now (stored (VItems kept)) in
          (0 <? Js.len l - Js.len kept, ShortTermMemory.set_last_updated t w1)
      | Some id, VConversations l =>
          let (t, w1) := Date_now (stored (VConversations l)) in
          (false, ShortTermMemory.set_last_updated t w1)
      | _, _ =>
          let (t, w1) := Date_now (stored (cleared v)) in
          (true, ShortTermMemory.set_last_updated t w1)
      end
  end.

End ShortTermOps.

(** ** ShortTermMemory: the recent conversation turns

    [addConversationTurn] and [getConversationContext] use the slot
    [contexts.conversation_context], the clock and
    [metadata.last_updated] only; the state below is that part of the
    object.  [None] stands for a slot that holds no array. *)

Record Turn : Type := mkTurn {
  turn_role : string;
  turn_content : string;
  turn_timestamp : Z
}.

Record TurnStore : Type := mkTurnStore {
  ts_host : Host;
  conversation_context : option (list Turn);
  ts_last_updated : Z
}.

Module ConversationContext.

Definition now (s : TurnStore) : Z * TurnStore :=
  let (t, h) := host_now (ts_host s) in
  (t, mkTurnStore h (conversation_context s) (ts_last_updated s)).

Definition maxTurns : Z := 10.

(** [addConversationTurn({ role, content, timestamp = null })] called with
    an object argument. *)
Definition addConversationTurn (role content : string) (timestamp : option Z)
  (s : TurnStore) : bool * TurnStore :=
  let turns := match conversation_context s with Some l => l | None => [] end in
  let '(ts, s1) :=
    match timestamp with
    | Some t => if t =? 0 then now s else (t, s)
    | None => now s
    end in
  let pushed := turns ++ [mkTurn role content ts] in
  let (t, s2) := now s1 in
  let kept := if maxTurns <? Js.len pushed
              then JsArray.slice1 (- maxTurns) pushed else pushed in
  (true, mkTurnStore (ts_host s2) (Some kept) t).

(** [getConversationContext(maxTurns = 5)]. *)
Definition getConversationContext (maxTurns : option Z) (s : TurnStore) : list Turn :=
  match conversation_context s with
  | None => []
  | Some l => JsArray.slice1 (- (match maxTurns with Some n => n | None => 5 end)) l
  end.

End ConversationContext.

(** ** EpisodicMemory: filtered retrieval and session summaries *)

Definition conv_ident (c : Conversation) : Z :=
  match c with mkConversation i _ _ _ _ => i end.
Definition conv_session (c : Conversation) : CtxVal :=
  match c with mkConversation _ s _ _ _ => s end.

(** [a === b] when [a] is a primitive value: by value, and never equal to
    an object.  [VNull] is read as [null].  Two objects are compared by
    reference, which is not modelled (the answer [false] stands for two
    distinct objects). *)
Definition strict_eq (a b : CtxVal) : bool :=
  match a, b with
  | VNull, VNull => true
  | VBool x, VBool y => Bool.eqb x y
  | VNum x, VNum y => x =? y
  | VStr x, VStr y => String.eqb x y
  | _, _ => false
  end.

(** The argument object of [getConversations]; [None] is a missing
    property. *)
Record ConversationFilter : Type := mkConversationFilter {
  cf_session_id : CtxVal;
  cf_role : option string;
  cf_start_time : option Z;
  cf_end_time : option Z;
  cf_limit : option Z;
  cf_offset : option Z
}.

(** A row of the simulated [db.summaries]. *)
Record Summary : Type := mkSummary {
  sum_id : Z;
  sum_session_id : CtxVal;
  sum_summary : string;
  sum_start_time : Z;
  sum_end_time : Z;
  sum_message_count : Z
}.

Module EpisodicOps.

(** A timestamp bound of the filter, applied when it is truthy. *)
Definition bounded (bound : option Z) (test : Z -> Z -> bool) (l : list Conversation)
  : list Conversation :=
  match bound with
  | Some t => if t =? 0 then l else filter (fun c => test t (conv_timestamp c)) l
  | None => l
  end.

(** The rows that pass the filters of the simulated [db.all]. *)
Definition matching (f : ConversationFilter) (rows : list Conversation)
  : list Conversation :=
  let by_session :=
    if truthy (cf_session_id f)
    then filter (fun c => strict_eq (cf_session_id f) (conv_session c)) rows
    else rows in
  let by_role :=
    match truthy_string (cf_role f) with
    | Some role => filter (fun c => String.eqb (conv_role c) role) by_session
    | None => by_session
    end in
  bounded (cf_end_time f) (fun t ts => ts <=? t)
    (bounded (cf_start_time f) (fun t ts => t <=? ts) by_role).

(** The simulated [db.all] on a conversations query: filter, sort by
    descending timestamp, then
    [if (params.offset || params.limit) results.slice(offset, offset + limit)]
    with [limit = params.limit || 50]. *)
Definition db_all (f : ConversationFilter) (limit offset : Z) (rows : list Conversation)
  : list Conversation :=
  let results := Js.sort EpisodicMemory.by_timestamp_desc (matching f rows) in
  if (offset =? 0) && (limit =? 0) then results
  else JsArray.slice offset (offset + (if limit =? 0 then 50 else limit)) results.

(** [getConversations({ session_id = null, role = null, start_time = null,
    end_time = null, limit = 50, offset = 0 })] called with an object
    argument: the entries it returns, by id, session, role, content and
    timestamp.  The method also overwrites the [metadata] field of each
    stored entry it returns; that field is no part of [Conversation],
    and [EpisodicMetadata.getConversations] below is the method with
    it. *)
Definition getConversations (f : ConversationFilter) (w : World) : list Conversation :=
  db_all f (match cf_limit f with Some n => n | None => 50 end)
    (match cf_offset f with Some n => n | None => 0 end)
    (conversations w).

(** [storeSummary({ session_id, summary, start_time, end_time,
    message_count })]: the simulated [db.run] appends the row and returns
    its id. *)
Definition storeSummary (session_id : CtxVal) (summary : string)
  (start_time end_time message_count : Z) (summaries : list Summary)
  : Z * list Summary :=
  let id := Js.len summaries + 1 in
  (id, summaries ++ [mkSummary id session_id summary start_time end_time message_count]).

(** [getSessionSummary(session_id)]: the simulated [db.get] answers with
    [summaries.find(s => s.session_id === params.session_id)]; the
    [ORDER BY end_time DESC LIMIT 1] of the query text plays no part. *)
Definition getSessionSummary (session_id : CtxVal) (summaries : list Summary)
  : option Summary :=
  find (fun s => strict_eq session_id (sum_session_id s)) summaries.

Definition session_only (session_id : CtxVal) (limit : Z) : ConversationFilter :=
  mkConversationFilter session_id None None None (Some limit) None.

(** [MEMORY_SYSTEM.summarizeCurrentSession()] under the rule scripts.  The
    method is exported unbound, so [this] is [MEMORY_SYSTEM]:
    [this.getConversations] and [this.storeSummary] are the exported
    methods, and [this.summarizeConversations] runs with that receiver
    too.  The state is the world together with [db.summaries]; the
    [metadata] fields of the entries, which the call of
    [getConversations] parses in place, are added by
    [EpisodicMetadata.summarizeCurrentSession]. *)
Definition summarizeCurrentSession (state : World * list Summary)
  : option string * (World * list Summary) :=
  let (w, summaries) := state in
  let stored := ShortTermMemory.getContext "session_id" w in
  let '(session_id, w1) :=
    if truthy stored then (stored, w)
    else let (t, w') := Date_now w in (VStr ("session_" ^^ Js.show_int t), w') in
  let conversations := getConversations (session_only session_id 100) w1 in
  match conversations with
  | [] => (None, (w1, summaries))
  | c0 :: _ =>
      let (summary, after) :=
        EpisodicMemory.MEMORY_SYSTEM_summarizeConversations conversations in
      let sorted := Js.sort EpisodicMemory.by_timestamp_asc after in
      let start_time := conv_timestamp (hd c0 sorted) in
      let end_time := conv_timestamp (last sorted c0) in
      let (_, summaries') :=
        storeSummary session_id summary start_time end_time (Js.len sorted) summaries in
      let (_, w2) := ShortTermMemory.storeContext "conversation_summary" (VStr summary) w1 in
      (Some summary, (w2, summaries'))
  end.

End EpisodicOps.

(** ** SemanticMemory: lookup by id *)

Module SemanticOps.

(** The first bucket, in the order of [for (const topic in semantic)],
    that holds an entry under [id]. *)
Fixpoint first_with_id (id : string) (topics : list (string * list (string * Knowledge)))
  : option Knowledge :=
  match topics with
  | [] => None
  | (_, b) :: topics' =>
      match Js.obj_get id b with
      | Some k => Some k
      | None => first_with_id id topics'
      end
  end.

(** [getKnowledgeById(id)]. *)
Definition getKnowledgeById (id : string) (w : World) : option Knowledge :=
  first_with_id id (Js.entries (semantic w)).

(** A hit that [searchKnowledge] may return for [query]: a stored entry,
    tagged with its topic, whose content or whose topic contains the query
    without regard to case. *)
Definition sound_hit (query : string) (s : SemanticStore) (h : Hit) : Prop :=
  exists topic b id k,
    h = HitKnowledge k topic /\ In (topic, b) s /\ In (id, k) b
    /\ ((k_content k <> ""
         /\ Js.includes (Js.toLowerCase query) (Js.toLowerCase (k_content k)) = true)
        \/ Js.includes (Js.toLowerCase query) (Js.toLowerCase topic) = true).

End SemanticOps.

(** ** MemoryDB.shortTerm (db/memory-system.js) over [short_term_memory]

    The table is the list of its rows; [key] is its primary key.  The
    [value] column holds text: [store] writes [JSON.stringify(value)] for
    an object and [String(value)] otherwise, and is modelled on that text.
    [JSON.parse] is a parameter: [None] is its [SyntaxError], after which
    the text itself is returned. *)

Record StmRow : Type := mkStmRow {
  stm_key : string;
  stm_value : string;
  stm_timestamp : Z;
  stm_expiry_time : option Z;
  stm_metadata : option string
}.

Record StmDb : Type := mkStmDb {
  stm_host : Host;
  short_term_memory : list StmRow
}.

Record StmOptions : Type := mkStmOptions {
  sto_expiryTime : option Z;
  sto_metadata : option string        (* [JSON.stringify(options.metadata)] *)
}.

(** What [get] hands back for a row: the parsed value, or the text when it
    is no JSON. *)
Inductive StmValue (J : Type) : Type :=
| Parsed (j : J)
| Raw (text : string).
Arguments Parsed {J} j.
Arguments Raw {J} text.

Module MemoryDBShortTerm.

Definition now (d : StmDb) : Z * StmDb :=
  let (t, h) := host_now (stm_host d) in (t, mkStmDb h (short_term_memory d)).

Definition set_rows (rows : list StmRow) (d : StmDb) : StmDb :=
  mkStmDb (stm_host d) rows.

Definition has_key (key : string) (r : StmRow) : bool := String.eqb (stm_key r) key.

(** [remove(key)]: [DELETE ... WHERE key = ?]; the answer is
    [result.changes > 0]. *)
Definition remove (key : string) (d : StmDb) : bool * StmDb :=
  (existsb (has_key key) (short_term_memory d),
   set_rows (filter (fun r => negb (has_key key r)) (short_term_memory d)) d).

Section Parsing.

Context {J : Type}.
Variable JSON_parse : string -> option J.
Variable truthy_json : J -> bool.

(** [try { row.value = JSON.parse(row.value) } catch (e) { }]. *)
Definition decode (text : string) : StmValue J :=
  match JSON_parse text with
  | Some j => Parsed j
  | None => Raw text
  end.

Definition truthy_value (v : option (StmValue J)) : bool :=
  match v with
  | None => false                                       (* [null] *)
  | Some (Parsed j) => truthy_json j
  | Some (Raw text) => negb (String.eqb text EmptyString)
  end.

(** [get(key)]: an expired row is deleted and [null] returned; otherwise
    the timestamp of the row is refreshed and its value returned. *)
Definition get (key : string) (d : StmDb) : option (StmValue J) * StmDb :=
  match find (has_key key) (short_term_memory d) with
  | None => (None, d)
  | Some row =>
      let '(expired, d1) :=
        match stm_expiry_time row with
        | Some e => if e =? 0 then (false, d)
                    else let (t, d') := now d in (e <? t, d')
        | None => (false, d)
        end in
      if expired then (None, snd (remove key d1))
      else
        let (t, d2) := now d1 in
        (Some (decode (stm_value row)),
         set_rows
           (map (fun r => if has_key key r
                          then mkStmRow (stm_key r) (stm_value r) t
                                 (stm_expiry_time r) (stm_metadata r)
                          else r) (short_term_memory d2)) d2)
  end.

(** [store(key, value, options = {})], with [valueStr] the text of the
    value; [false] is the answer of the [catch] block, reached when the
    [INSERT] meets a row that already has the key. *)
Definition store (key valueStr : string) (options : StmOptions) (d : StmDb)
  : bool * StmDb :=
  let expiryTime :=
    match sto_expiryTime options with
    | Some e => if e =? 0 then None else Some e
    | None => None
    end in
  let metadata := sto_metadata options in
  let (existingEntry, d1) := get key d in
  let (t, d2) := now d1 in
  if truthy_value existingEntry then
    (true,
     set_rows
       (map (fun r => if has_key key r
                      then mkStmRow (stm_key r) valueStr t expiryTime metadata
                      else r) (short_term_memory d2)) d2)
  else if existsb (has_key key) (short_term_memory d2) then (false, d2)
  else
    (true,
     set_rows (short_term_memory d2 ++ [mkStmRow key valueStr t expiryTime metadata]) d2).

End Parsing.

End MemoryDBShortTerm.

(** ** Frames of the controller's operations *)

Module ControllerOps.

(** An operation that leaves the short-term contexts and their metadata
    as they are. *)
Definition keeps_contexts {A : Type} (m : Op World A) : Prop :=
  forall w, short_term (snd (m w)) = short_term w.

(** An operation that leaves the stored conversations as they are. *)
Definition keeps_conversations {A : Type} (m : Op World A) : Prop :=
  forall w, conversations (snd (m w)) = conversations w.

End ControllerOps.

(** ** The metadata field of the in-memory conversation entries

    [storeConversation] turns the caller's metadata into text and
    [db.run] turns that text into text once more; both retrieval methods
    then overwrite the field of every entry they return with what
    [JSON.parse] makes of it, and the entries they return are the stored
    objects themselves.  For a caller who passes a plain object [m], the
    field is therefore in one of four states. *)

Inductive MetadataField (M : Type) : Type :=
| TextOfText (m : M)   (* the text [JSON.stringify(JSON.stringify(m))] *)
| TextOf (m : M)       (* the text [JSON.stringify(m)] *)
| ObjectOf (m : M)     (* an object equal to [m] *)
| EmptyObject.         (* the [{}] of the [catch] block *)

Arguments TextOfText {M} m.
Arguments TextOf {M} m.
Arguments ObjectOf {M} m.
Arguments EmptyObject {M}.

(** The conversations of the world together with their [metadata]
    fields, entry by entry in the order of the array. *)
Record EntryStore (M : Type) : Type := mkEntryStore {
  es_world : World;
  es_metadata : list (MetadataField M)
}.

Arguments mkEntryStore {M} _ _.
Arguments es_world {M} _.
Arguments es_metadata {M} _.

Module EpisodicMetadata.

Section Fields.

Context {M : Type}.

(** [try { conv.metadata = JSON.parse(conv.metadata) } catch (e) {
    conv.metadata = {} }].  [JSON.parse] of an object first turns it into
    the text ["[object Object]"], which is not JSON. *)
Definition parse (field : MetadataField M) : MetadataField M :=
  match field with
  | TextOfText m => TextOf m
  | TextOf m => ObjectOf m
  | ObjectOf _ => EmptyObject
  | EmptyObject => EmptyObject
  end.

(** A stored entry with its position in the array and its field. *)
Definition Row : Type := nat * (Conversation * MetadataField M).

Definition positions (s : EntryStore M) : list nat :=
  seq 0 (List.length (es_metadata s)).

Definition rows (s : EntryStore M) : list Row :=
  combine (positions s) (combine (conversations (es_world s)) (es_metadata s)).

Definition by_timestamp_desc (a b : Row) : Z :=
  EpisodicMemory.by_timestamp_desc (fst (snd a)) (fst (snd b)).

(** [storeConversation({ role, content, session_id, timestamp, metadata })]
    with a plain object as [metadata]: [metadataStr] is
    [JSON.stringify(metadata)] and [db.run] stores
    [JSON.stringify(params.metadata || {})]. *)
Definition storeConversation (role content : string) (session_id : CtxVal)
  (timestamp : option Z) (metadata : M) (s : EntryStore M) : Z * EntryStore M :=
  let (id, w) :=
    EpisodicMemory.storeConversation role content session_id timestamp (es_world s) in
  (id, mkEntryStore w (es_metadata s ++ [TextOfText metadata])).

(** [conversations.map(conv => { ...; return conv; })] on the rows that
    [db.all] returned: the result holds the rows with their field parsed,
    and so does the store at the positions of these rows. *)
Definition parse_rows (page : list Row) (s : EntryStore M)
  : list (Conversation * MetadataField M) * EntryStore M :=
  (map (fun r => (fst (snd r), parse (snd (snd r)))) page,
   mkEntryStore (es_world s)
     (map (fun entry => if existsb (Nat.eqb (fst entry)) (map fst page)
                        then parse (snd entry) else snd entry)
        (combine (positions s) (es_metadata s)))).

(** [getRecentConversations(count)] without a session filter. *)
Definition getRecentConversations (count : Z) (s : EntryStore M)
  : list (Conversation * MetadataField M) * EntryStore M :=
  let results := Js.sort by_timestamp_desc (rows s) in
  let page :=
    if count =? 0 then results
    else if 0 <? count then Js.slice_to count results
    else Js.slice_to (Js.len results + count) results in
  parse_rows page s.

(** The entry of a row. *)
Definition entry (r : Row) : Conversation := fst (snd r).

(** The filters, the order and the paging of the simulated [db.all], as
    [EpisodicOps.matching] and [EpisodicOps.db_all] have them, on rows
    that carry their position and their field. *)
Definition bounded (bound : option Z) (test : Z -> Z -> bool) (l : list Row)
  : list Row :=
  match bound with
  | Some t => if t =? 0 then l else filter (fun r => test t (conv_timestamp (entry r))) l
  | None => l
  end.

Definition matching (f : ConversationFilter) (l : list Row) : list Row :=
  let by_session :=
    if truthy (cf_session_id f)
    then filter (fun r => strict_eq (cf_session_id f) (conv_session (entry r))) l
    else l in
  let by_role :=
    match truthy_string (cf_role f) with
    | Some role => filter (fun r => String.eqb (conv_role (entry r)) role) by_session
    | None => by_session
    end in
  bounded (cf_end_time f) (fun t ts => ts <=? t)
    (bounded (cf_start_time f) (fun t ts => t <=? ts) by_role).

Definition db_all (f : ConversationFilter) (limit offset : Z) (l : list Row)
  : list Row :=
  let results := Js.sort by_timestamp_desc (matching f l) in
  if (offset =? 0) && (limit =? 0) then results
  else JsArray.slice offset (offset + (if limit =? 0 then 50 else limit)) results.

(** [getConversations({ session_id, role, start_time, end_time, limit,
    offset })] with its last step, the parse of the [metadata] field of
    every entry it returns. *)
Definition getConversations (f : ConversationFilter) (s : EntryStore M)
  : list (Conversation * MetadataField M) * EntryStore M :=
  parse_rows
    (db_all f (match cf_limit f with Some n => n | None => 50 end)
       (match cf_offset f with Some n => n | None => 0 end) (rows s))
    s.

(** [MEMORY_SYSTEM.summarizeCurrentSession()] under the rule scripts, as
    [EpisodicOps.summarizeCurrentSession] has it, with what its call of
    [getConversations] does to the [metadata] fields. *)
Definition summarizeCurrentSession (state : EntryStore M * list Summary)
  : option string * (EntryStore M * list Summary) :=
  let (s, summaries) := state in
  let stored := ShortTermMemory.getContext "session_id" (es_world s) in
  let '(session_id, w1) :=
    if truthy stored then (stored, es_world s)
    else let (t, w') := Date_now (es_world s) in
         (VStr ("session_" ^^ Js.show_int t), w') in
  let (conversations, s1) :=
    getConversations (EpisodicOps.session_only session_id 100)
      (mkEntryStore w1 (es_metadata s)) in
  match map fst conversations with
  | [] => (None, (s1, summaries))
  | c0 :: rest =>
      let (summary, after) :=
        EpisodicMemory.MEMORY_SYSTEM_summarizeConversations (c0 :: rest) in
      let sorted := Js.sort EpisodicMemory.by_timestamp_asc after in
      let start_time := conv_timestamp (hd c0 sorted) in
      let end_time := conv_timestamp (last sorted c0) in
      let (_, summaries') :=
        EpisodicOps.storeSummary session_id summary start_time end_time
          (Js.len sorted) summaries in
      let (_, w2) :=
        ShortTermMemory.storeContext "conversation_summary" (VStr summary)
          (es_world s1) in
      (Some summary, (mkEntryStore w2 (es_metadata s1), summaries'))
  end.

End Fields.

End EpisodicMetadata.

(** ** SystemCore: the component registry and the banners

    The functions below use [SYSTEM_REGISTRY.active_components], the
    global [nextResponsePrepend] and the clock; the state is that part
    of the globals.  [active_components] is a plain object: its own
    properties are the registered components, and an assignment to the
    key [__proto__] replaces its prototype instead of adding a property.
    [None] stands for the initial prototype [Object.prototype], and for
    a [nextResponsePrepend] that is no array. *)

Record Component : Type := mkComponent {
  comp_version : string;
  comp_activated_at : Z;
  comp_status : string
}.

Record Globals : Type := mkGlobals {
  g_host : Host;
  active_components : list (string * Component);   (* own properties *)
  components_prototype : option Component;         (* set through [__proto__] *)
  nextResponsePrepend : option (list string)
}.

Module SystemCore.

Definition now (g : Globals) : Z * Globals :=
  let (t, h) := host_now (g_host g) in
  (t, mkGlobals h (active_components g) (components_prototype g)
        (nextResponsePrepend g)).

(** [registerComponent(componentName, version = "1.0.0")]:
    [active_components[componentName] = { version, activated_at, status }]. *)
Definition registerComponent (componentName : string) (version : option string)
  (g : Globals) : bool * Globals :=
  let (t, g1) := now g in
  let details :=
    mkComponent (match version with Some v => v | None => "1.0.0" end) t "active" in
  (true,
   if String.eqb componentName "__proto__"
   then mkGlobals (g_host g1) (active_components g1) (Some details)
          (nextResponsePrepend g1)
   else mkGlobals (g_host g1)
          (Js.obj_set componentName details (active_components g1))
          (components_prototype g1) (nextResponsePrepend g1)).

Definition is_active (details : Component) : bool :=
  String.eqb (comp_status details) "active".

(** [active_components[componentName]?.status === "active"].  The key
    [__proto__] reads the prototype; any other name that is no own
    property reads a member of the prototype chain, which is a text, a
    number or a function and has no [status]. *)
Definition isComponentActive (componentName : string) (g : Globals) : bool :=
  if String.eqb componentName "__proto__"
  then match components_prototype g with
       | Some details => is_active details
       | None => false
       end
  else match Js.obj_get componentName (active_components g) with
       | Some details => is_active details
       | None => false
       end.

(** [getActiveComponents()]: a new object with the active entries of
    [Object.entries(active_components)], the own properties. *)
Definition getActiveComponents (g : Globals) : list (string * Component) :=
  fold_left
    (fun activeComponents entry =>
       if is_active (snd entry)
       then Js.obj_set (fst entry) (snd entry) activeComponents
       else activeComponents)
    (Js.entries (active_components g)) [].

(** [checkRequiredComponents(requiredComponents)] with an array of names. *)
Definition checkRequiredComponents (requiredComponents : list string) (g : Globals)
  : bool :=
  let missingComponents :=
    fold_left
      (fun missing component =>
         if negb (isComponentActive component g) then missing ++ [component]
         else missing)
      requiredComponents [] in
  negb (0 <? Js.len missingComponents).

Definition banners (g : Globals) : list string :=
  match nextResponsePrepend g with Some l => l | None => [] end.

(** [addSystemBanner(banner)] with a string. *)
Definition addSystemBanner (banner : string) (g : Globals) : bool * Globals :=
  let stored := banners g in
  let bannerExists := existsb (fun b => String.eqb b banner) stored in
  (true,
   mkGlobals (g_host g) (active_components g) (components_prototype g)
     (Some (if bannerExists then stored else stored ++ [banner]))).

Definition systemBanner : string := "🔄 [SYSTEM: ACTIVE]".

Definition componentsBanner (componentCount : Z) : string :=
  "⚙️ [ACTIVE COMPONENTS: " ^^ Js.show_int componentCount ^^ "]".

(** [forceBanners()] called on [SystemCore] itself.  The count is
    [Object.keys(activeComponents).length]. *)
Definition forceBanners (g : Globals) : bool * Globals :=
  let g0 := mkGlobals (g_host g) (active_components g) (components_prototype g)
              (Some (banners g)) in
  let g1 := snd (addSystemBanner systemBanner g0) in
  let componentCount := Js.len (getActiveComponents g1) in
  let g2 := snd (addSystemBanner (componentsBanner componentCount) g1) in
  (0 <? Js.len (banners g2), g2).

End SystemCore.

(* ================================================================== *)
(** * Part II. Theorems                                                *)
(* ================================================================== *)

(** ** Facts about the stable sort *)

Section SortFacts.
Context {A : Type}.
Variable cmp : A -> A -> Z.

Lemma insert_by_perm (x : A) (l : list A) :
  Permutation (x :: l) (Js.insert_by cmp x l).
Proof.
  induction l as [|y l IH]; simpl.
  - apply Permutation_refl.
  - destruct (cmp x y <=? 0).
    + apply Permutation_refl.
    + eapply perm_trans; [apply perm_swap|].
      now apply perm_skip.
Qed.

Lemma sort_perm (l : list A) : Permutation l (Js.sort cmp l).
Proof.
  induction l as [|x l IH]; simpl.
  - constructor.
  - eapply perm_trans; [apply perm_skip, IH|].
    apply insert_by_perm.
Qed.

Lemma sort_length (l : list A) : List.length (Js.sort cmp l) = List.length l.
Proof. symmetry. apply Permutation_length, sort_perm. Qed.

Lemma sort_In (x : A) (l : list A) : In x (Js.sort cmp l) <-> In x l.
Proof.
  split; intro H.
  - eapply Permutation_in; [apply Permutation_sym, sort_perm|exact H].
  - eapply Permutation_in; [apply sort_perm|exact H].
Qed.

Hypothesis cmp_total : forall a b, 0 < cmp a b -> cmp b a <= 0.
Hypothesis cmp_trans : forall a b c, cmp a b <= 0 -> cmp b c <= 0 -> cmp a c <= 0.

Lemma insert_by_sorted (x : A) (l : list A) :
  StronglySorted (Js.precedes cmp) l -> StronglySorted (Js.precedes cmp) (Js.insert_by cmp x l).
Proof.
  unfold Js.precedes.
  induction 1 as [|y l Hs IH Hy]; simpl.
  - constructor; constructor.
  - destruct (Z.leb_spec (cmp x y) 0) as [Hle|Hgt].
    + constructor; [constructor; assumption|].
      constructor; [exact Hle|].
      rewrite Forall_forall in Hy |- *.
      intros z Hz. eapply cmp_trans; [exact Hle|]. now apply Hy.
    + constructor; [exact IH|].
      rewrite Forall_forall in Hy |- *.
      intros z Hz.
      apply (Permutation_in z (Permutation_sym (insert_by_perm x l))) in Hz.
      destruct Hz as [<-|Hz]; [now apply cmp_total|now apply Hy].
Qed.

Lemma sort_sorted (l : list A) : StronglySorted (Js.precedes cmp) (Js.sort cmp l).
Proof.
  induction l as [|x l IH]; simpl.
  - constructor.
  - now apply insert_by_sorted.
Qed.

End SortFacts.

(** ** Facts about objects used as maps *)

Lemma obj_get_set_same {V : Type} (k : string) (v : V) (o : list (string * V)) :
  Js.obj_get k (Js.obj_set k v o) = Some v.
Proof.
  induction o as [|[k' v'] o IH]; simpl.
  - now rewrite String.eqb_refl.
  - destruct (String.eqb k k') eqn:E; simpl; rewrite E; [reflexivity|exact IH].
Qed.

Lemma obj_get_set_other {V : Type} (k k0 : string) (v : V) (o : list (string * V)) :
  k0 <> k -> Js.obj_get k0 (Js.obj_set k v o) = Js.obj_get k0 o.
Proof.
  intro Hne.
  induction o as [|[k' v'] o IH]; simpl.
  - destruct (String.eqb_spec k0 k); [contradiction|reflexivity].
  - destruct (String.eqb_spec k k') as [->|Hk]; simpl.
    + destruct (String.eqb_spec k0 k'); [contradiction|reflexivity].
    + destruct (String.eqb k0 k'); [reflexivity|exact IH].
Qed.

(** ** Pruning the working context *)

Lemma StronglySorted_app_cross {A : Type} (R : A -> A -> Prop) (l1 l2 : list A) :
  StronglySorted R (l1 ++ l2) ->
  forall a b, In a l1 -> In b l2 -> R a b.
Proof.
  induction l1 as [|x l1 IH]; simpl; intros Hs a b Ha Hb.
  - contradiction.
  - inversion Hs as [|? ? Hs' Hall]; subst.
    destruct Ha as [<-|Ha].
    + rewrite Forall_forall in Hall. apply Hall, in_or_app. now right.
    + now apply IH.
Qed.

Lemma StronglySorted_weaken {A : Type} (R S : A -> A -> Prop) (l : list A) :
  (forall a b, R a b -> S a b) -> StronglySorted R l -> StronglySorted S l.
Proof.
  intros HRS. induction 1 as [|x l Hs IH Hall]; constructor.
  - exact IH.
  - eapply Forall_impl; [|exact Hall]. intros b Hb. now apply HRS.
Qed.

Lemma by_importance_asc_sorted (l : list WorkingContextItem) :
  StronglySorted (fun a b => importance a <= importance b)
    (Js.sort ShortTermCore.by_importance_asc l).
Proof.
  apply StronglySorted_weaken with (R := Js.precedes ShortTermCore.by_importance_asc).
  - unfold Js.precedes, ShortTermCore.by_importance_asc. intros; lia.
  - apply sort_sorted; unfold ShortTermCore.by_importance_asc; intros; lia.
Qed.

Lemma by_importance_desc_sorted (l : list WorkingContextItem) :
  StronglySorted (fun a b => importance b <= importance a)
    (Js.sort ShortTermCore.by_importance_desc l).
Proof.
  apply StronglySorted_weaken with (R := Js.precedes ShortTermCore.by_importance_desc).
  - unfold Js.precedes, ShortTermCore.by_importance_desc. intros; lia.
  - apply sort_sorted; unfold ShortTermCore.by_importance_desc; intros; lia.
Qed.

(** What [prune_items] leaves: the size, the choice of survivors and
    their order. *)
Lemma prune_items_spec (now target : Z) (l : list WorkingContextItem) :
  0 <= target ->
  let live := filter (ShortTermCore.not_expired now) l in
  let r := fst (ShortTermCore.prune_items now target l) in
  Js.len r = Z.min target (Js.len live)
  /\ (exists dropped,
        Permutation (r ++ dropped) live
        /\ forall d s, In d dropped -> In s r -> importance d <= importance s)
  /\ (target < Js.len live ->
      StronglySorted (fun a b => importance b <= importance a) r)
  /\ (Js.len live <= target -> r = live)
  /\ snd (ShortTermCore.prune_items now target l) = Js.len l - Js.len r.
Proof.
  intros Ht live r. subst r. unfold ShortTermCore.prune_items. fold live.
  destruct (Z.ltb_spec target (Js.len live)) as [Hlt|Hge]; simpl.
  - set (asc := Js.sort ShortTermCore.by_importance_asc live).
    set (excess := Js.len live - target).
    assert (Hlen_asc : List.length asc = List.length live) by apply sort_length.
    assert (Hskip : List.length (Js.slice_from excess asc) = Z.to_nat target).
    { unfold Js.slice_from. rewrite length_skipn, Hlen_asc.
      unfold excess, Js.len in *. lia. }
    repeat split.
    + unfold Js.len. rewrite sort_length, Hskip. unfold Js.len in Hlt. lia.
    + exists (firstn (Z.to_nat excess) asc). split.
      * eapply perm_trans.
        { apply Permutation_app_tail, Permutation_sym, sort_perm. }
        eapply perm_trans; [apply Permutation_app_comm|].
        unfold Js.slice_from. rewrite firstn_skipn.
        apply Permutation_sym, sort_perm.
      * intros d s Hd Hs. apply sort_In in Hs.
        apply (StronglySorted_app_cross (fun a b => importance a <= importance b)
                 (firstn (Z.to_nat excess) asc) (skipn (Z.to_nat excess) asc)); auto.
        rewrite firstn_skipn. apply by_importance_asc_sorted.
    + intros _. apply by_importance_desc_sorted.
    + intros Hle. lia.
    + unfold Js.len. rewrite sort_length, Hskip. unfold excess, Js.len in *. lia.
  - repeat split.
    + lia.
    + exists []. split; [rewrite app_nil_r; apply Permutation_refl|].
      intros d s [].
    + intros Hlt. lia.
Qed.

(** An item counts as expired when its expiry is set, is not 0 and is at
    or before the clock reading. *)
Lemma not_expired_spec (now : Z) (item : WorkingContextItem) :
  ShortTermCore.not_expired now item = false
  <-> exists e, expires item = Some e /\ e <> 0 /\ e <= now.
Proof.
  unfold ShortTermCore.not_expired. destruct (expires item) as [e|].
  - rewrite orb_false_iff, Z.eqb_neq, Z.ltb_ge. split.
    + intros [H0 Hle]. exists e. repeat split; assumption.
    + intros (e' & [= <-] & H0 & Hle). split; assumption.
  - split; [discriminate|]. intros (e & [=] & _).
Qed.

Lemma working_context_set (l : list WorkingContextItem) (w : World) :
  ShortTermMemory.working_context (ShortTermMemory.set_working_context l w) = Some l.
Proof.
  unfold ShortTermMemory.working_context, ShortTermMemory.set_working_context.
  simpl. now rewrite obj_get_set_same.
Qed.

Lemma working_context_Date_now (w : World) :
  ShortTermMemory.working_context (snd (Date_now w)) = ShortTermMemory.working_context w.
Proof. reflexivity. Qed.

Lemma working_context_set_last_updated (t : Z) (w : World) :
  ShortTermMemory.working_context (ShortTermMemory.set_last_updated t w)
  = ShortTermMemory.working_context w.
Proof. reflexivity. Qed.

(** C1 (as amended).  For a positive target below the number of stored
    items, [pruneMemory(T)] drops every item whose non-zero expiry is at
    or before the clock reading (the other items are the live ones); the
    survivors number exactly
    [min(T, live)]; no dropped live item is more important than a
    survivor; when importance eviction took place (more than [T] live
    items) the list is left sorted by descending importance, and
    otherwise the live items stay in their stored order; the call
    returns the number of removed items. *)
Theorem pruneMemory_expire_then_evict :
  forall (w : World) (l : list WorkingContextItem) (T : Z),
    ShortTermMemory.working_context w = Some l ->
    0 < T -> T < Js.len l ->
    let now := clock (host w) (ticks (host w)) in
    let live := filter (ShortTermCore.not_expired now) l in
    (forall i, In i live
               <-> In i l /\ ~ (exists e, expires i = Some e /\ e <> 0 /\ e <= now))
    /\ exists r,
      ShortTermMemory.working_context (snd (ShortTermMemory.pruneMemory (Some T) w)) = Some r
      /\ Js.len r = Z.min T (Js.len live)
      /\ (exists dropped,
            Permutation (r ++ dropped) live
            /\ forall d s, In d dropped -> In s r -> importance d <= importance s)
      /\ (T < Js.len live ->
          StronglySorted (fun a b => importance b <= importance a) r)
      /\ (Js.len live <= T -> r = live)
      /\ fst (ShortTermMemory.pruneMemory (Some T) w) = Js.len l - Js.len r.
Proof.
  intros w l T Hwc HT HTl now live.
  split.
  { intro i. unfold live. rewrite filter_In, <- not_expired_spec.
    now destruct (ShortTermCore.not_expired now i). }
  unfold ShortTermMemory.pruneMemory. rewrite Hwc.
  unfold ShortTermCore.effective_target.
  destruct (Z.eqb_spec T 0) as [->|_]; [lia|].
  destruct (Z.leb_spec (Js.len l) T) as [Hle|_]; [lia|].
  unfold Date_now at 1. simpl. fold now.
  destruct (prune_items_spec now T l) as (Hlen & Hdrop & Hsorted & Hsame & Hret); [lia|].
  destruct (ShortTermCore.prune_items now T l) as [kept removed] eqn:E.
  simpl in *. exists kept.
  split; [|repeat split; assumption].
  unfold Date_now. simpl.
  rewrite working_context_set_last_updated.
  apply (working_context_set kept).
Qed.

(** A run of the theorem: three items, one expired, target 2. *)
Lemma pruneMemory_expire_then_evict_witness :
  let w := Samples.world_with
             [Samples.item "a" 1 None; Samples.item "b" 5 None;
              Samples.item "c" 3 None; Samples.item "d" 4 (Some 500)] in
  exists r,
    ShortTermMemory.working_context (snd (ShortTermMemory.pruneMemory (Some 2) w)) = Some r
    /\ Js.len r = 2.
Proof.
  intro w.
  destruct (pruneMemory_expire_then_evict w
              [Samples.item "a" 1 None; Samples.item "b" 5 None;
               Samples.item "c" 3 None; Samples.item "d" 4 (Some 500)] 2)
    as (_ & r & Hr & Hlen & _).
  - reflexivity.
  - lia.
  - vm_compute. reflexivity.
  - exists r. split; [exact Hr|exact Hlen].
Defined.

(** C1 (as stated) fails.  With three stored items of importance 1, 5, 3,
    the last one expired, [pruneMemory(2)] only drops the expired item and
    leaves [1, 5]: not sorted by descending importance.  With target 0
    (below the one stored item) the limit 1000 is used instead and the
    expired item stays. *)
Lemma pruneMemory_claim_counterexample :
  let w := Samples.world_with
             [Samples.item "a" 1 None; Samples.item "b" 5 None;
              Samples.item "c" 3 (Some 500)] in
  let w0 := Samples.world_with [Samples.item "c" 3 (Some 500)] in
  (2 < Js.len [Samples.item "a" 1 None; Samples.item "b" 5 None;
               Samples.item "c" 3 (Some 500)]
   /\ ShortTermMemory.working_context (snd (ShortTermMemory.pruneMemory (Some 2) w))
      = Some [Samples.item "a" 1 None; Samples.item "b" 5 None]
   /\ ~ StronglySorted (fun a b => importance b <= importance a)
          [Samples.item "a" 1 None; Samples.item "b" 5 None])
  /\ (0 < Js.len [Samples.item "c" 3 (Some 500)]
      /\ ShortTermCore.not_expired 1000 (Samples.item "c" 3 (Some 500)) = false
      /\ ShortTermMemory.working_context (snd (ShortTermMemory.pruneMemory (Some 0) w0))
         = Some [Samples.item "c" 3 (Some 500)]).
Proof.
  intros w w0. split; [split; [|split]|split; [|split]].
  - vm_compute. reflexivity.
  - vm_compute. reflexivity.
  - intro H. inversion H as [|? ? _ Hall]; subst.
    inversion Hall as [|? ? Hle _]; subst. simpl in Hle. lia.
  - vm_compute. reflexivity.
  - reflexivity.
  - vm_compute. reflexivity.
Qed.

(** ** MemoryDB: relationships need both endpoints *)

Lemma touch_id (id : string) (t : Z) (r : KnowledgeRow) :
  kr_id (MemoryDB.touch id t r) = kr_id r.
Proof. unfold MemoryDB.touch. now destruct (MemoryDB.has_id id r). Qed.

Lemma touch_category (id : string) (t : Z) (r : KnowledgeRow) :
  kr_category (MemoryDB.touch id t r) = kr_category r.
Proof. unfold MemoryDB.touch. now destruct (MemoryDB.has_id id r). Qed.

Lemma touch_topic (id : string) (t : Z) (r : KnowledgeRow) :
  kr_topic (MemoryDB.touch id t r) = kr_topic r.
Proof. unfold MemoryDB.touch. now destruct (MemoryDB.has_id id r). Qed.

Lemma touch_content (id : string) (t : Z) (r : KnowledgeRow) :
  kr_content (MemoryDB.touch id t r) = kr_content r.
Proof. unfold MemoryDB.touch. now destruct (MemoryDB.has_id id r). Qed.

Lemma node_touch (i j : string) (t : Z) (nodes : list KnowledgeRow) :
  MemoryDB.node i (map (MemoryDB.touch j t) nodes)
  = option_map (MemoryDB.touch j t) (MemoryDB.node i nodes).
Proof.
  unfold MemoryDB.node.
  induction nodes as [|r nodes IH]; simpl; [reflexivity|].
  unfold MemoryDB.has_id at 1. rewrite touch_id.
  fold (MemoryDB.has_id i r).
  destruct (MemoryDB.has_id i r); [reflexivity|exact IH].
Qed.

Lemma relationship_views_touch (n j : string) (t : Z) (q : RelationshipQuery)
  (nodes : list KnowledgeRow) (rels : list RelationshipRow) :
  MemoryDB.relationship_views n q (map (MemoryDB.touch j t) nodes) rels
  = MemoryDB.relationship_views n q nodes rels.
Proof.
  unfold MemoryDB.relationship_views.
  destruct (rq_direction q); apply flat_map_ext; intro r;
    repeat rewrite node_touch.
  - destruct (_ && _); [|reflexivity].
    destruct (MemoryDB.node (rel_target_id r) nodes); simpl;
      [now rewrite touch_category, touch_topic|reflexivity].
  - destruct (_ && _); [|reflexivity].
    destruct (MemoryDB.node (rel_source_id r) nodes); simpl;
      [now rewrite touch_category, touch_topic|reflexivity].
  - destruct (_ || _); [|reflexivity].
    destruct (String.eqb (rel_source_id r) n).
    + destruct (MemoryDB.node (rel_target_id r) nodes); simpl;
        [now rewrite touch_category, touch_topic|reflexivity].
    + destruct (MemoryDB.node (rel_source_id r) nodes); simpl;
        [now rewrite touch_category, touch_topic|reflexivity].
Qed.

Lemma getRelationships_updateLastAccessed (n j : string) (q : RelationshipQuery) (w : World) :
  MemoryDB.getRelationships n q (MemoryDB.updateLastAccessed j w)
  = MemoryDB.getRelationships n q w.
Proof.
  unfold MemoryDB.getRelationships, MemoryDB.updateLastAccessed. simpl.
  now rewrite relationship_views_touch.
Qed.

Lemma relationships_updateLastAccessed (j : string) (w : World) :
  knowledge_relationships (database (MemoryDB.updateLastAccessed j w))
  = knowledge_relationships (database w).
Proof. reflexivity. Qed.

Lemma node_updateLastAccessed_none (i j : string) (w : World) :
  MemoryDB.node i (semantic_knowledge (database w)) = None ->
  MemoryDB.node i (semantic_knowledge (database (MemoryDB.updateLastAccessed j w))) = None.
Proof.
  intro H. unfold MemoryDB.updateLastAccessed. simpl.
  now rewrite node_touch, H.
Qed.

(** C4.  When either endpoint is not the id of a stored knowledge node,
    [createRelationship] returns [false], the relationships table is
    unchanged, and every [getRelationships] query (any node, direction
    and type filter) answers as it did before the call. *)
Theorem createRelationship_missing_endpoint :
  forall (w : World) (sourceId targetId relationshipType : string)
         (options : RelationshipOptions),
    MemoryDB.node sourceId (semantic_knowledge (database w)) = None
    \/ MemoryDB.node targetId (semantic_knowledge (database w)) = None ->
    let result := MemoryDB.createRelationship sourceId targetId relationshipType options w in
    fst result = false
    /\ knowledge_relationships (database (snd result))
       = knowledge_relationships (database w)
    /\ forall (nodeId : string) (q : RelationshipQuery),
         MemoryDB.getRelationships nodeId q (snd result)
         = MemoryDB.getRelationships nodeId q w.
Proof.
  intros w s t ty options Hmissing result. subst result.
  unfold MemoryDB.createRelationship, MemoryDB.getById.
  fold (MemoryDB.node s (semantic_knowledge (database w))).
  destruct (MemoryDB.node s (semantic_knowledge (database w))) as [src|] eqn:Hs.
  - destruct Hmissing as [Habs|Ht]; [discriminate|].
    fold (MemoryDB.node t (semantic_knowledge (database (MemoryDB.updateLastAccessed s w)))).
    rewrite (node_updateLastAccessed_none t s w Ht). simpl.
    split; [reflexivity|]. split; [reflexivity|].
    intros. apply getRelationships_updateLastAccessed.
  - fold (MemoryDB.node t (semantic_knowledge (database w))).
    destruct (MemoryDB.node t (semantic_knowledge (database w))) as [tgt|]; simpl.
    + split; [reflexivity|]. split; [reflexivity|].
      intros. apply getRelationships_updateLastAccessed.
    + repeat split; reflexivity.
Qed.

(** A run of the theorem: the source id is unknown, the target exists. *)
Lemma createRelationship_missing_endpoint_witness :
  let result := MemoryDB.createRelationship "missing" "n2" "depends_on"
                  (mkRelationshipOptions None None) Samples.linked_world in
  fst result = false
  /\ knowledge_relationships (database (snd result))
     = knowledge_relationships (database Samples.linked_world)
  /\ forall (nodeId : string) (q : RelationshipQuery),
       MemoryDB.getRelationships nodeId q (snd result)
       = MemoryDB.getRelationships nodeId q Samples.linked_world.
Proof.
  apply (createRelationship_missing_endpoint Samples.linked_world
           "missing" "n2" "depends_on" (mkRelationshipOptions None None)).
  left. reflexivity.
Defined.

(** ** MemoryDB: what [LIKE '%query%'] selects *)

Lemma some_suffix_ext (f g : string -> bool) (s : string) :
  (forall t, f t = g t) -> Js.some_suffix f s = Js.some_suffix g s.
Proof.
  intro H. induction s as [|c s IH]; simpl.
  - now rewrite H.
  - now rewrite H, IH.
Qed.

Lemma some_suffix_empty (f : string -> bool) (s : string) :
  f EmptyString = true -> Js.some_suffix f s = true.
Proof.
  intro H. induction s as [|c s IH]; simpl.
  - now rewrite H.
  - rewrite IH. apply orb_true_r.
Qed.

Lemma some_suffix_toLowerCase (f : string -> bool) (s : string) :
  Js.some_suffix f (Js.toLowerCase s)
  = Js.some_suffix (fun t => f (Js.toLowerCase t)) s.
Proof.
  induction s as [|c s IH]; simpl; [reflexivity|now rewrite IH].
Qed.

Lemma like_plain_prefix (q t : string) :
  Sql.plain q = true ->
  Sql.like (q ^^ "%") t = String.prefix (Js.toLowerCase q) (Js.toLowerCase t).
Proof.
  revert t. induction q as [|c q IH]; intros t Hplain.
  - simpl. rewrite some_suffix_empty; [|reflexivity].
    now destruct (Js.toLowerCase t).
  - simpl in Hplain.
    apply andb_true_iff in Hplain as [Hc Hq].
    apply andb_true_iff in Hc as [Hpct Hund].
    apply negb_true_iff in Hpct. apply negb_true_iff in Hund.
    simpl. rewrite Hpct.
    destruct t as [|d t]; simpl; [reflexivity|].
    rewrite Hund. simpl. rewrite (IH t Hq).
    destruct (ascii_dec (Js.lower c) (Js.lower d)) as [->|Hne].
    + now rewrite Ascii.eqb_refl.
    + apply Ascii.eqb_neq in Hne. now rewrite Hne.
Qed.

(** For a query without wildcard characters, [LIKE '%query%'] is the
    case-insensitive substring test. *)
Lemma like_plain_includes (q t : string) :
  Sql.plain q = true ->
  Sql.like ("%" ^^ q ^^ "%") t
  = Js.includes (Js.toLowerCase q) (Js.toLowerCase t).
Proof.
  intro Hplain. unfold Js.includes.
  rewrite some_suffix_toLowerCase. simpl.
  apply some_suffix_ext. intro u. now apply like_plain_prefix.
Qed.

(** ** MemoryDB: the ranking of [search] *)





Lemma firstn_In {A : Type} (n : nat) (l : list A) (x : A) :
  In x (firstn n l) -> In x l.
Proof.
  revert l. induction n as [|n IH]; intros [|y l]; simpl; try tauto.
  intros [H|H]; [now left|right; now apply IH].
Qed.

Lemma StronglySorted_firstn {A : Type} (R : A -> A -> Prop) (n : nat) (l : list A) :
  StronglySorted R l -> StronglySorted R (firstn n l).
Proof.
  revert l. induction n as [|n IH]; intros l Hs; simpl; [constructor|].
  destruct l as [|x l]; [constructor|].
  inversion Hs as [|? ? Hs' Hall]; subst.
  constructor; [now apply IH|].
  rewrite Forall_forall in Hall |- *.
  intros y Hy. apply Hall. eapply firstn_In; eassumption.
Qed.


Lemma limit_In {A : Type} (n : Z) (l : list A) (x : A) :
  In x (Sql.limit n l) -> In x l.
Proof.
  unfold Sql.limit. destruct (n <? 0); [tauto|]. apply firstn_In.
Qed.


Lemma search_rows_of (query : string) (options : SearchOptions) (w : World) :
  fst (MemoryDB.search query options w)
  = MemoryDB.search_rows query options (semantic_knowledge (database w)).
Proof. reflexivity. Qed.




(** The ranking scenario of C5: confidences 0.9, 0.5, 0.9 accessed at 10,
    30 and 20.  Both 0.9 nodes come before the 0.5 node, the one
    accessed at 20 first. *)
Example search_ranking_scenario :
  map kr_id (fst (MemoryDB.search "cache" (mkSearchOptions None None)
                    Samples.linked_world))
  = ["n3"; "n1"; "n2"].
Proof. vm_compute. reflexivity. Qed.

(** The cap of 10 at work: of twelve matching nodes, ten come back when
    the limit is 0 and when no limit is given. *)
Example search_limit_zero_scenario :
  let nodes := map (fun n => Samples.node (Js.show_int (Z.of_nat n)) "abc" "xyz" 1 0)
                 (seq 1 12) in
  let w := Samples.world_with_db nodes [] in
  Js.len (fst (MemoryDB.search "abc" (mkSearchOptions None (Some 0)) w)) = 10
  /\ Js.len (fst (MemoryDB.search "abc" (mkSearchOptions None None) w)) = 10.
Proof. vm_compute. split; reflexivity. Qed.


(** ** MemoryDB: minted identifiers *)

Lemma append_inj_left (p x y : string) : p ^^ x = p ^^ y -> x = y.
Proof.
  induction p as [|c p IH]; simpl; intro H; [exact H|].
  injection H as H. now apply IH.
Qed.






Lemma to_int_not_nil (z : Z) :
  Z.to_int z <> Decimal.Pos Decimal.Nil /\ Z.to_int z <> Decimal.Neg Decimal.Nil.
Proof.
  destruct z; simpl; split; try discriminate; intro H; injection H as H;
    now apply DecimalPos.Unsigned.to_uint_nonnil in H.
Qed.

Lemma show_int_inj (a b : Z) : Js.show_int a = Js.show_int b -> a = b.
Proof.
  unfold Js.show_int. intro H.
  destruct (to_int_not_nil a) as [Ha1 Ha2].
  destruct (to_int_not_nil b) as [Hb1 Hb2].
  pose proof (NilZero.isi (Z.to_int a) Ha1 Ha2) as Ia.
  pose proof (NilZero.isi (Z.to_int b) Hb1 Hb2) as Ib.
  rewrite H in Ia. rewrite Ia in Ib. injection Ib as Ib.
  now apply DecimalZ.to_int_inj.
Qed.


(** ** MemoryDB: [storeKnowledge] inserts or overwrites *)


Lemma find_app_none {A : Type} (f : A -> bool) (l : list A) (x : A) :
  find f l = None -> f x = true -> find f (l ++ [x]) = Some x.
Proof.
  induction l as [|y l IH]; simpl; intros Hnone Hx.
  - now rewrite Hx.
  - destruct (f y); [discriminate|now apply IH].
Qed.










(** The timestamps of that run: the first call stores the reading 1001,
    the second call replaces it by its own reading, 1003. *)
Example storeKnowledge_twice_timestamp_scenario :
  let first := MemoryDB.storeKnowledge "notes" "new topic" "draft"
                 Samples.no_options Samples.linked_world in
  let second := MemoryDB.storeKnowledge "notes" "new topic" "final"
                  Samples.no_options (snd first) in
  map kr_timestamp (filter (MemoryDB.keyed "notes" "new topic")
                      (semantic_knowledge (database (snd first)))) = [1001]
  /\ map kr_timestamp (filter (MemoryDB.keyed "notes" "new topic")
                         (semantic_knowledge (database (snd second)))) = [1003].
Proof. vm_compute. split; reflexivity. Qed.


(** ** MemoryDB: the id returned by an updating call *)

Lemma find_map_preserving {A : Type} (p : A -> bool) (f : A -> A) (l : list A) :
  (forall x, p (f x) = p x) ->
  find p (map f l) = option_map f (find p l).
Proof.
  intro H. induction l as [|x l IH]; simpl; [reflexivity|].
  rewrite H. destruct (p x); [reflexivity|exact IH].
Qed.




Lemma find_some_In {A : Type} (p : A -> bool) (l : list A) (x : A) :
  find p l = Some x -> In x l /\ p x = true.
Proof. apply find_some. Qed.




(** ** The controller behind its [try] blocks *)

Section ControllerFacts.

Context {W : Type}.
Variable ms : MemorySystem W.

Lemma try_catch_total {A : Type} (body : Op W A) (fallback : A) (w : W) :
  exists r, fst (try_catch body (fun _ => ret fallback) w) = Ok r.
Proof.
  unfold try_catch. destruct (body w) as [[a|e] w']; simpl; eauto.
Qed.



End ControllerFacts.

(** ** The store operations behind [MEMORY_SYSTEM] *)





Lemma working_context_set_host (h : Host) (w : World) :
  ShortTermMemory.working_context (set_host h w) = ShortTermMemory.working_context w.
Proof. reflexivity. Qed.





(** ** The controller over the SQLite-backed semantic methods *)

Lemma keeps_database_ret {A : Type} (a : A) : Bindings.keeps_database (ret a).
Proof. intro w. reflexivity. Qed.

Lemma keeps_database_bind {A B : Type} (m : Op World A) (k : A -> Op World B) :
  Bindings.keeps_database m -> (forall a, Bindings.keeps_database (k a)) ->
  Bindings.keeps_database (bind m k).
Proof.
  intros Hm Hk w. unfold bind. specialize (Hm w).
  destruct (m w) as [[a|e] w']; simpl in *; [|exact Hm].
  now rewrite (Hk a w').
Qed.

Lemma keeps_database_try_catch {A : Type} (m : Op World A) (h : string -> Op World A) :
  Bindings.keeps_database m -> (forall e, Bindings.keeps_database (h e)) ->
  Bindings.keeps_database (try_catch m h).
Proof.
  intros Hm Hh w. unfold try_catch. specialize (Hm w).
  destruct (m w) as [[a|e] w']; simpl in *; [exact Hm|].
  now rewrite (Hh e w').
Qed.

Lemma keeps_database_for_each {A : Type} (l : list A) (body : A -> Op World unit) :
  (forall x, Bindings.keeps_database (body x)) ->
  Bindings.keeps_database (for_each l body).
Proof.
  intro H. induction l as [|x l IH]; simpl.
  - apply keeps_database_ret.
  - apply keeps_database_bind; [apply H|intros _; exact IH].
Qed.

Lemma keeps_database_now : Bindings.keeps_database (MEMORY_CONTROLLER.now Bindings.with_db).
Proof. intro w. reflexivity. Qed.

Lemma keeps_database_getContext (name : string) :
  Bindings.keeps_database (MEMORY_CONTROLLER.getContext Bindings.with_db name).
Proof. intro w. reflexivity. Qed.

Lemma keeps_database_session :
  Bindings.keeps_database (MEMORY_CONTROLLER.session_or_new Bindings.with_db).
Proof.
  unfold MEMORY_CONTROLLER.session_or_new.
  apply keeps_database_bind; [apply keeps_database_getContext|].
  intro sid. destruct (truthy sid); [apply keeps_database_ret|].
  apply keeps_database_bind; [apply keeps_database_now|].
  intros; apply keeps_database_ret.
Qed.

Lemma keeps_database_without_run (session : CtxVal) (timestamp : option Z) (w : World) :
  database (EpisodicMemory.storeConversation_without_run session timestamp w) = database w.
Proof.
  unfold EpisodicMemory.storeConversation_without_run.
  destruct (truthy session);
    [|destruct (truthy (ShortTermMemory.getContext "session_id" w))];
    destruct timestamp as [t|]; try destruct (t =? 0); reflexivity.
Qed.

Lemma keeps_database_consolidate_item (context : WorkingContextItem) :
  Bindings.keeps_database
    (MEMORY_CONTROLLER.consolidate_item Bindings.with_db Bindings.db_storeKnowledge context).
Proof.
  unfold MEMORY_CONTROLLER.consolidate_item.
  destruct (4 <=? importance context); [|apply keeps_database_ret].
  apply keeps_database_bind; [apply keeps_database_now|]. intro t.
  apply keeps_database_bind; [|intros; apply keeps_database_ret].
  intro w. reflexivity.
Qed.

(** With the SQLite-backed [storeKnowledge] behind [MEMORY_SYSTEM],
    [consolidateMemory] changes none of the tables, whatever the working
    context holds. *)
Lemma consolidateMemory_with_db_stores_nothing :
  forall w : World,
    database (snd (MEMORY_CONTROLLER.consolidateMemory Bindings.with_db w)) = database w.
Proof.
  unfold MEMORY_CONTROLLER.consolidateMemory, MEMORY_CONTROLLER.consolidate_steps.
  apply keeps_database_try_catch; [|intros; apply keeps_database_ret].
  apply keeps_database_bind; [apply keeps_database_getContext|]. intro wc.
  apply keeps_database_bind; [apply keeps_database_getContext|]. intro summary.
  apply keeps_database_bind; [apply keeps_database_session|]. intro sessionId.
  apply keeps_database_bind.
  - simpl. destruct (truthy summary); [|apply keeps_database_ret].
    apply keeps_database_bind; [apply keeps_database_now|]. intro t.
    apply keeps_database_bind; [|intros; apply keeps_database_ret].
    intro w. exact (keeps_database_without_run sessionId (Some t) w).
  - intros _. apply keeps_database_bind; [|intros; apply keeps_database_ret].
    destruct (js_or wc (VItems [])); simpl; try apply keeps_database_ret.
    apply keeps_database_for_each. apply keeps_database_consolidate_item.
Qed.

(** C2, evaluated on the store it names.  The scenario with the
    SQLite-backed semantic methods behind [MEMORY_SYSTEM]: after
    [addWorkingContext({topic: "goal", details: "ship v1", importance: 5})]
    and [consolidateMemory()], which returns [true], no node is keyed by
    [("working_context", "goal")] and the table is still empty. *)
Theorem consolidateMemory_scenario_with_db :
  let w1 := snd (ShortTermMemory.addWorkingContext "goal" "ship v1" (Some 5) None
                   (Samples.world_with [])) in
  let result := MEMORY_CONTROLLER.consolidateMemory Bindings.with_db w1 in
  fst result = Ok true
  /\ fst (MemoryDB.getKnowledge "working_context" "goal" (snd result)) = None
  /\ semantic_knowledge (database (snd result)) = [].
Proof.
  intros w1 result. split; [vm_compute; reflexivity|].
  assert (Hdb : database (snd result) = database w1)
    by apply consolidateMemory_with_db_stores_nothing.
  unfold MemoryDB.getKnowledge. rewrite Hdb. split; reflexivity.
Qed.

(** ** The rule-file semantic store *)

Lemma bucket_set (topic : string) (b : list (string * Knowledge)) (w : World) :
  SemanticMemory.bucket topic (set_semantic (Js.obj_set topic b (semantic w)) w) = b.
Proof.
  unfold SemanticMemory.bucket. simpl. now rewrite obj_get_set_same.
Qed.

Lemma bucket_set_other (topic other : string) (b : list (string * Knowledge)) (w : World) :
  other <> topic ->
  SemanticMemory.bucket other (set_semantic (Js.obj_set topic b (semantic w)) w)
  = SemanticMemory.bucket other w.
Proof.
  intro H. unfold SemanticMemory.bucket. simpl. now rewrite obj_get_set_other.
Qed.

(** The state in which [storeKnowledge] writes the entry, the id and the
    timestamp it gives it. *)
Lemma storeKnowledge_shape (topic : string) (k : Knowledge) (w : World) :
  exists (id : string) (ts : Z) (w2 : World),
    SemanticMemory.storeKnowledge topic k w
    = (id,
       set_semantic
         (Js.obj_set topic
            (Js.obj_set id
               (mkKnowledge (Some id) (k_category k) (k_content k)
                  (k_importance k) (k_source k) (Some ts))
               (SemanticMemory.bucket topic w2))
            (semantic w2)) w2)
    /\ (forall other, SemanticMemory.bucket other w2 = SemanticMemory.bucket other w).
Proof.
  unfold SemanticMemory.storeKnowledge.
  set (w0 := match Js.obj_get topic (semantic w) with
             | Some _ => w
             | None => set_semantic (Js.obj_set topic [] (semantic w)) w
             end).
  assert (H0 : forall other, SemanticMemory.bucket other w0 = SemanticMemory.bucket other w).
  { intro other. subst w0. unfold SemanticMemory.bucket.
    destruct (Js.obj_get topic (semantic w)) eqn:E; [reflexivity|]. simpl.
    destruct (String.eqb_spec other topic) as [->|Hne].
    - now rewrite obj_get_set_same, E.
    - now rewrite obj_get_set_other. }
  set (minted := let (t, w') := Date_now w0 in
                 let (r, w'') := Math_random_10000 w' in
                 ("sm_" ^^ Js.show_int t ^^ "_" ^^ Js.show_int r, w'')).
  assert (Hm : forall other, SemanticMemory.bucket other (snd minted)
                             = SemanticMemory.bucket other w0) by reflexivity.
  set (chosen := match k_id k with
                 | Some i => if String.eqb i EmptyString then minted else (i, w0)
                 | None => minted
                 end).
  assert (H1 : forall other, SemanticMemory.bucket other (snd chosen)
                             = SemanticMemory.bucket other w).
  { intro other. subst chosen.
    destruct (k_id k) as [i|]; [destruct (String.eqb i EmptyString)|];
      simpl; rewrite ?Hm; apply H0. }
  destruct chosen as [id w1]. simpl in H1.
  set (timed := match k_timestamp k with
                | Some t => if t =? 0 then Date_now w1 else (t, w1)
                | None => Date_now w1
                end).
  assert (H2 : forall other, SemanticMemory.bucket other (snd timed)
                             = SemanticMemory.bucket other w).
  { intro other. subst timed.
    destruct (k_timestamp k) as [t|]; [destruct (t =? 0)|]; simpl; apply H1. }
  destruct timed as [ts w2]. simpl in H2.
  exists id, ts, w2. split; [reflexivity|exact H2].
Qed.

Lemma storeKnowledge_holds (topic : string) (k : Knowledge) (Q : Knowledge -> Prop)
  (w : World) :
  (forall id ts, Q (mkKnowledge id (k_category k) (k_content k)
                      (k_importance k) (k_source k) ts)) ->
  SemanticMemory.holds_entry topic Q (snd (SemanticMemory.storeKnowledge topic k w)).
Proof.
  intro HQ.
  destruct (storeKnowledge_shape topic k w) as (id & ts & w2 & -> & _).
  simpl. exists id. eexists. rewrite bucket_set, obj_get_set_same.
  split; [reflexivity|apply HQ].
Qed.

Lemma storeKnowledge_keeps_holds (topic other : string) (k : Knowledge)
  (Q : Knowledge -> Prop) (w : World) :
  other <> topic
  \/ (forall id ts, Q (mkKnowledge id (k_category k) (k_content k)
                         (k_importance k) (k_source k) ts)) ->
  SemanticMemory.holds_entry other Q w ->
  SemanticMemory.holds_entry other Q (snd (SemanticMemory.storeKnowledge topic k w)).
Proof.
  intros Hcase (id0 & k0 & Hget & Hk0).
  destruct (storeKnowledge_shape topic k w) as (id & ts & w2 & -> & Hsame).
  simpl. destruct (String.eqb_spec other topic) as [->|Hne].
  - destruct (String.eqb_spec id0 id) as [->|Hid].
    + destruct Hcase as [Habs|HQ]; [congruence|].
      exists id. eexists. rewrite bucket_set, obj_get_set_same.
      split; [reflexivity|apply HQ].
    + exists id0, k0. rewrite bucket_set, obj_get_set_other by exact Hid.
      rewrite Hsame. split; assumption.
  - exists id0, k0. rewrite bucket_set_other by exact Hne.
    rewrite Hsame. split; assumption.
Qed.

(** ** The controller over the rule scripts *)

Lemma for_each_steps {A : Type} (l : list A) (body : A -> Op World unit)
  (step : A -> World -> World) (w : World) :
  (forall x w, body x w = (Ok tt, step x w)) ->
  for_each l body w = (Ok tt, fold_left (fun acc x => step x acc) l w).
Proof.
  intro H. revert w. induction l as [|x l IH]; intro w; simpl; [reflexivity|].
  unfold bind. rewrite H. apply IH.
Qed.




Lemma consolidate_item_rules (context : WorkingContextItem) (w : World) :
  MEMORY_CONTROLLER.consolidate_item Bindings.rules
    (fun topic knowledge =>
       Bindings.pure (SemanticMemory.storeKnowledge topic knowledge) VStr) context w
  = (Ok tt, Bindings.rules_consolidate_step context w).
Proof.
  unfold MEMORY_CONTROLLER.consolidate_item, Bindings.rules_consolidate_step,
    Bindings.rules_write.
  destruct (4 <=? importance context); [|reflexivity].
  unfold bind, ret, MEMORY_CONTROLLER.now, Bindings.rules, Bindings.pure. simpl.
  match goal with
  | |- context [SemanticMemory.storeKnowledge ?t ?k ?x] =>
      destruct (SemanticMemory.storeKnowledge t k x)
  end. reflexivity.
Qed.

Lemma rules_write_holds (topic : string) (make : Z -> Knowledge)
  (Q : Knowledge -> Prop) (w : World) :
  (forall t id ts, Q (mkKnowledge id (k_category (make t)) (k_content (make t))
                        (k_importance (make t)) (k_source (make t)) ts)) ->
  SemanticMemory.holds_entry topic Q (Bindings.rules_write topic make w).
Proof.
  intro HQ. unfold Bindings.rules_write. simpl.
  apply storeKnowledge_holds. apply HQ.
Qed.

Lemma rules_write_keeps_holds (topic other : string) (make : Z -> Knowledge)
  (Q : Knowledge -> Prop) (w : World) :
  other <> topic
  \/ (forall t id ts, Q (mkKnowledge id (k_category (make t)) (k_content (make t))
                           (k_importance (make t)) (k_source (make t)) ts)) ->
  SemanticMemory.holds_entry other Q w ->
  SemanticMemory.holds_entry other Q (Bindings.rules_write topic make w).
Proof.
  intros Hcase H. unfold Bindings.rules_write. simpl.
  apply storeKnowledge_keeps_holds.
  - destruct Hcase as [Hne|HQ]; [now left|right; apply HQ].
  - exact H.
Qed.






(** ** The window of recent conversations *)



Lemma filter_length_perm {A : Type} (p : A -> bool) (l l' : list A) :
  Permutation l l' -> List.length (filter p l) = List.length (filter p l').
Proof.
  induction 1 as [|x l l' _ IH|x y l|l l' l'' _ IH1 _ IH2]; simpl.
  - reflexivity.
  - destruct (p x); simpl; now rewrite IH.
  - destruct (p x), (p y); reflexivity.
  - now rewrite IH1.
Qed.




Lemma holds_entry_weaken (topic : string) (Q R : Knowledge -> Prop) (w : World) :
  (forall k, Q k -> R k) ->
  SemanticMemory.holds_entry topic Q w -> SemanticMemory.holds_entry topic R w.
Proof. intros H (id & k & Hget & Hk). exists id, k. split; [exact Hget|now apply H]. Qed.



(** The two entries of that scenario, as stored. *)
Example extractKnowledge_bug_in_function_scenario :
  let w := snd (EpisodicMemory.storeConversation "user" "there is a bug in the function"
                  VNull None (Samples.world_with [])) in
  let w' := snd (MEMORY_CONTROLLER.extractKnowledge Bindings.rules w) in
  map (fun e => (k_importance (snd e), k_content (snd e)))
    (SemanticMemory.bucket "code_patterns" w')
  = [("medium", "Code discussion: there is a bug in the function...")]
  /\ map (fun e => (k_importance (snd e), k_content (snd e)))
       (SemanticMemory.bucket "troubleshooting" w')
     = [("high", "Error discussion: there is a bug in the function...")].
Proof. vm_compute. split; reflexivity. Qed.


(** ** Consolidation under the rule scripts *)

Lemma importance_label_mapImportance (n : Z) :
  4 <= n -> MEMORY_CONTROLLER.importance_label n = MEMORY_CONTROLLER.mapImportance n.
Proof.
  intro H. unfold MEMORY_CONTROLLER.importance_label, MEMORY_CONTROLLER.mapImportance.
  destruct (5 <=? n); [reflexivity|].
  destruct (Z.leb_spec 3 n); [reflexivity|lia].
Qed.

(** Under the rule scripts the turn of [consolidateMemory] for an item of
    importance at least 4 writes it under its topic with the mapped
    importance, and the turn for a lesser item writes nothing. *)
Lemma consolidate_step_rules (context : WorkingContextItem) (w : World) :
  (4 <= importance context ->
   SemanticMemory.holds_entry (item_topic context)
     (fun k => k_category k = "working_context"
               /\ k_content k = item_details context
               /\ k_importance k = MEMORY_CONTROLLER.mapImportance (importance context)
               /\ k_source k = "short_term_memory")
     (Bindings.rules_consolidate_step context w))
  /\ (importance context < 4 -> Bindings.rules_consolidate_step context w = w).
Proof.
  unfold Bindings.rules_consolidate_step. split; intro H.
  - destruct (Z.leb_spec 4 (importance context)); [|lia].
    apply rules_write_holds. intros. simpl.
    rewrite importance_label_mapImportance by exact H. repeat split; reflexivity.
  - destruct (Z.leb_spec 4 (importance context)); [lia|reflexivity].
Qed.

(** The scenario of C2 under the rule scripts, where
    [storeKnowledge(topic, knowledge)] is the method the controller calls:
    the bucket of ["goal"] then holds the item with the mapped
    importance. *)
Example consolidateMemory_scenario_rules :
  let w1 := snd (ShortTermMemory.addWorkingContext "goal" "ship v1" (Some 5) None
                   (Samples.world_with [])) in
  let result := MEMORY_CONTROLLER.consolidateMemory Bindings.rules w1 in
  fst result = Ok true
  /\ option_map
       (map (fun e => (k_category (snd e), k_content (snd e),
                       k_importance (snd e), k_source (snd e))))
       (SemanticMemory.getKnowledge "goal" (snd result))
     = Some [("working_context", "ship v1", "high", "short_term_memory")].
Proof. vm_compute. split; reflexivity. Qed.

(** ** Enrichment over the SQLite-backed search *)

(** C7, evaluated on the store it names.  The query ["cache"] has the
    single keyword ["cache"]; three nodes mention it.  With
    [MemoryDB.semantic.search] behind
    [MEMORY_SYSTEM.searchKnowledge], the argument 2 is taken for the
    options object, the limit falls back to 10, and all three rows enter
    [relevantKnowledge]; the enriched context is stored under
    ["enriched_context"]. *)
Theorem enrichContext_with_db_ignores_limit :
  let result := MEMORY_CONTROLLER.enrichContext Bindings.with_db "cache"
                  Samples.linked_world in
  MEMORY_CONTROLLER.keywords "cache" = ["cache"]
  /\ (exists t sid wc rc rows,
        fst result = Ok (VEnriched "cache" t sid wc rc rows)
        /\ Js.len rows = 3
        /\ ShortTermMemory.getContext "enriched_context" (snd result)
           = VEnriched "cache" t sid wc rc rows).
Proof.
  split; [reflexivity|].
  eexists _, _, _, _, _. split; [vm_compute; reflexivity|].
  split; vm_compute; reflexivity.
Qed.

(** ** The conversation summary *)

(** C9, evaluated through the exported method.  Called as
    [MEMORY_SYSTEM.summarizeConversations], every non-empty list of
    entries yields the error string of the [catch] block: the receiver
    has no [extractTopics] (or, before that, a timestamp is no valid
    date). *)
Theorem exported_summarizeConversations_fails :
  forall (c : Conversation) (l : list Conversation),
    fst (EpisodicMemory.MEMORY_SYSTEM_summarizeConversations (c :: l))
    = "Error generating summary.".
Proof.
  intros c l.
  unfold EpisodicMemory.MEMORY_SYSTEM_summarizeConversations,
    EpisodicMemory.summarizeConversations.
  destruct (Js.toISOString _); [destruct (Js.toISOString _)|]; reflexivity.
Qed.

(** ** Enrichment under the rule scripts *)

Lemma len_app {A : Type} (l1 l2 : list A) : Js.len (l1 ++ l2) = Js.len l1 + Js.len l2.
Proof. unfold Js.len. rewrite length_app. lia. Qed.

Lemma len_cons {A : Type} (x : A) (l : list A) : Js.len (x :: l) = 1 + Js.len l.
Proof. unfold Js.len. cbn [List.length]. rewrite Nat2Z.inj_succ. lia. Qed.

Lemma scan_bucket_bound (query topic : string) (limit : Z)
  (b : list (string * Knowledge)) (results : list Hit) :
  Js.len results < limit ->
  Js.len (fst (SemanticMemory.scan_bucket query topic limit b results)) <= limit
  /\ (snd (SemanticMemory.scan_bucket query topic limit b results) = false ->
      Js.len (fst (SemanticMemory.scan_bucket query topic limit b results)) < limit).
Proof.
  revert results. induction b as [|[id k] b IH]; intros results Hlt; simpl.
  - split; [lia|intros _; exact Hlt].
  - destruct (SemanticMemory.matches query topic k); [|now apply IH].
    destruct (Z.leb_spec limit (Js.len (results ++ [HitKnowledge k topic]))) as [Hfull|Hroom].
    + simpl. rewrite len_app in *. unfold Js.len in *. simpl in *.
      split; [lia|discriminate].
    + now apply IH.
Qed.

Lemma scan_topics_bound (query : string) (limit : Z) (s : SemanticStore)
  (results : list Hit) :
  Js.len results < limit ->
  Js.len (SemanticMemory.scan_topics query limit s results) <= limit.
Proof.
  revert results. induction s as [|[topic b] s IH]; intros results Hlt; simpl.
  - lia.
  - pose proof (scan_bucket_bound query topic limit (Js.entries b) results Hlt)
      as [Hle Hroom].
    destruct (SemanticMemory.scan_bucket query topic limit (Js.entries b) results)
      as [results' stopped]. simpl in *.
    destruct (Z.leb_spec limit (Js.len results')); [exact Hle|].
    apply IH. lia.
Qed.

(** [searchKnowledge(keyword, 2)] of the rule scripts returns at most two
    hits. *)
Lemma searchKnowledge_rules_bound (query : string) (w : World) :
  Js.len (SemanticMemory.searchKnowledge query (Some 2) w) <= 2.
Proof.
  unfold SemanticMemory.searchKnowledge. apply scan_topics_bound.
  unfold Js.len. simpl. lia.
Qed.

Lemma relevant_knowledge_rules (words : list string) (w : World) :
  exists hits,
    MEMORY_CONTROLLER.relevant_knowledge Bindings.rules words w = (Ok hits, w)
    /\ Js.len hits <= 2 * Js.len words.
Proof.
  unfold MEMORY_CONTROLLER.relevant_knowledge. simpl.
  assert (H : forall acc,
            exists hits,
              fold_op words acc
                (fun relevantKnowledge keyword =>
                   results <- (fun w0 =>
                                 (Ok (SemanticMemory.searchKnowledge keyword (Some 2) w0),
                                  w0)) ;;
                   ret (if 0 <? Js.len results then relevantKnowledge ++ results
                        else relevantKnowledge)) w
              = (Ok hits, w)
              /\ Js.len hits <= Js.len acc + 2 * Js.len words).
  { induction words as [|kw words IH]; intro acc; cbn [fold_op].
    - exists acc. split; [reflexivity|]. unfold Js.len. simpl. lia.
    - unfold bind at 1. unfold bind at 1. cbn [ret].
      pose proof (searchKnowledge_rules_bound kw w) as Hkw.
      destruct (IH (if 0 <? Js.len (SemanticMemory.searchKnowledge kw (Some 2) w)
                    then acc ++ SemanticMemory.searchKnowledge kw (Some 2) w
                    else acc)) as (hits & Heq & Hlen).
      exists hits. split; [exact Heq|].
      rewrite (len_cons kw words).
      destruct (0 <? Js.len (SemanticMemory.searchKnowledge kw (Some 2) w)).
      + rewrite len_app in Hlen. lia.
      + lia. }
  destruct (H []) as (hits & Heq & Hlen).
  exists hits. split; [exact Heq|]. unfold Js.len in *. simpl in *. lia.
Qed.

Lemma storeContext_getContext (name : string) (v : CtxVal) (w : World) :
  ShortTermMemory.getContext name (snd (ShortTermMemory.storeContext name v w)) = v.
Proof.
  unfold ShortTermMemory.storeContext, ShortTermMemory.getContext.
  destruct (Js.obj_get name (contexts (short_term w))); simpl;
    now rewrite obj_get_set_same.
Qed.

Lemma bind_ok {W A B : Type} (m : Op W A) (k : A -> Op W B) (w w' : W) (a : A) :
  m w = (Ok a, w') -> bind m k w = k a w'.
Proof. intro H. unfold bind. now rewrite H. Qed.

Lemma try_catch_ok {W A : Type} (m : Op W A) (h : string -> Op W A) (w w' : W) (a : A) :
  m w = (Ok a, w') -> try_catch m h w = (Ok a, w').
Proof. intro H. unfold try_catch. now rewrite H. Qed.

Lemma session_or_new_rules (w : World) :
  exists sid w', MEMORY_CONTROLLER.session_or_new Bindings.rules w = (Ok sid, w').
Proof.
  unfold MEMORY_CONTROLLER.session_or_new, bind, MEMORY_CONTROLLER.getContext. simpl.
  match goal with
  | |- context [if ?c then _ else _] => destruct c
  end; simpl; do 2 eexists; reflexivity.
Qed.

Lemma enrichContext_rules_run (query : string) (w : World) :
  exists t sid wc rc hits w',
    MEMORY_CONTROLLER.enrichContext Bindings.rules query w
    = (Ok (VEnriched query t sid wc rc hits), w')
    /\ Js.len hits <= 2 * Js.len (MEMORY_CONTROLLER.keywords query)
    /\ ShortTermMemory.getContext "enriched_context" w'
       = VEnriched query t sid wc rc hits.
Proof.
  destruct (session_or_new_rules (snd (Date_now w))) as (sid & w2 & Hsession).
  destruct (relevant_knowledge_rules (MEMORY_CONTROLLER.keywords query) w2)
    as (hits & Hhits & Hlen).
  set (enriched :=
         VEnriched query (fst (Date_now w)) sid
           (js_or (ShortTermMemory.getContext "working_context" w2) (VItems []))
           (Some (VConversations (EpisodicMemory.getRecentConversations 5 w2)))
           hits).
  exists (fst (Date_now w)), sid,
    (js_or (ShortTermMemory.getContext "working_context" w2) (VItems [])),
    (Some (VConversations (EpisodicMemory.getRecentConversations 5 w2))),
    hits, (snd (ShortTermMemory.storeContext "enriched_context" enriched w2)).
  fold enriched.
  split; [|split; [exact Hlen|apply storeContext_getContext]].
  unfold MEMORY_CONTROLLER.enrichContext, MEMORY_CONTROLLER.enrich_steps.
  apply try_catch_ok.
  rewrite (bind_ok _ _ w (snd (Date_now w)) (fst (Date_now w))) by reflexivity.
  rewrite (bind_ok _ _ _ _ _ Hsession).
  rewrite (bind_ok _ _ w2 w2 (ShortTermMemory.getContext "working_context" w2))
    by reflexivity.
  rewrite (bind_ok _ _ w2 w2
             (Some (VConversations (EpisodicMemory.getRecentConversations 5 w2))))
    by reflexivity.
  rewrite (bind_ok _ _ _ _ _ Hhits).
  fold enriched.
  rewrite (bind_ok _ _ w2
             (snd (ShortTermMemory.storeContext "enriched_context" enriched w2))
             (VBool (fst (ShortTermMemory.storeContext "enriched_context" enriched w2)))).
  - reflexivity.
  - unfold MEMORY_CONTROLLER.storeContext, Bindings.rules, Bindings.pure. simpl.
    now destruct (ShortTermMemory.storeContext "enriched_context" enriched w2).
Qed.

(** Under the rule scripts, where [searchKnowledge(query, limit)] takes
    the limit as its second parameter, [enrichContext] gathers at most
    two hits per keyword and stores the enriched context under
    ["enriched_context"]. *)
Lemma enrichContext_rules_bounded (query : string) (w : World) :
  exists t sid wc rc hits,
    fst (MEMORY_CONTROLLER.enrichContext Bindings.rules query w)
    = Ok (VEnriched query t sid wc rc hits)
    /\ Js.len hits <= 2 * Js.len (MEMORY_CONTROLLER.keywords query)
    /\ ShortTermMemory.getContext "enriched_context"
         (snd (MEMORY_CONTROLLER.enrichContext Bindings.rules query w))
       = VEnriched query t sid wc rc hits.
Proof.
  destruct (enrichContext_rules_run query w)
    as (t & sid & wc & rc & hits & w' & -> & Hlen & Hget).
  exists t, sid, wc, rc, hits. repeat split; assumption.
Qed.

(** Every keyword is longer than three characters. *)
Lemma keywords_long (query word : string) :
  In word (MEMORY_CONTROLLER.keywords query) -> 3 < Js.strlen word.
Proof.
  unfold MEMORY_CONTROLLER.keywords. intro H.
  apply filter_In in H as [_ H]. now apply Z.ltb_lt.
Qed.

(** ** The summary computed by [EpisodicMemory] on itself *)

Lemma obj_get_bump (k k' : string) (counts : list (string * Z)) :
  Js.obj_get k (EpisodicMemory.bump k' counts)
  = if String.eqb k k'
    then Some (match Js.obj_get k' counts with Some n => n + 1 | None => 1 end)
    else Js.obj_get k counts.
Proof.
  unfold EpisodicMemory.bump.
  destruct (String.eqb_spec k k') as [->|Hne].
  - rewrite obj_get_set_same. destruct (Js.obj_get k' counts) as [n|]; [|reflexivity].
    now destruct (Z.eqb_spec n 0) as [->|_].
  - now apply obj_get_set_other.
Qed.

Lemma obj_get_fold_bump (keys : list string) (acc : list (string * Z)) (k : string) :
  Js.obj_get k (fold_left (fun a x => EpisodicMemory.bump x a) keys acc)
  = match Js.obj_get k acc, count_occ string_dec keys k with
    | Some n, c => Some (n + Z.of_nat c)
    | None, O => None
    | None, c => Some (Z.of_nat c)
    end.
Proof.
  revert acc. induction keys as [|x keys IH]; intro acc; simpl.
  - destruct (Js.obj_get k acc); [f_equal; lia|reflexivity].
  - rewrite IH, obj_get_bump.
    destruct (string_dec x k) as [->|Hne].
    + rewrite String.eqb_refl.
      destruct (Js.obj_get k acc) as [n|]; f_equal; lia.
    + destruct (String.eqb_spec k x) as [->|_]; [contradiction|reflexivity].
Qed.

Lemma obj_set_keys_NoDup {V : Type} (k : string) (v : V) (o : list (string * V)) :
  NoDup (map fst o) -> NoDup (map fst (Js.obj_set k v o)).
Proof.
  induction o as [|[k' v'] o IH]; simpl; intro H.
  - constructor; [tauto|constructor].
  - destruct (String.eqb_spec k k') as [->|Hne]; simpl; [exact H|].
    inversion H as [|? ? Hnotin Hnodup]; subst.
    constructor; [|now apply IH].
    intro Hin. apply in_map_iff in Hin as ([k1 v1] & Hk1 & Hin1). simpl in Hk1. subst k1.
    assert (Hget : Js.obj_get k' (Js.obj_set k v o) <> None).
    { clear - Hin1. induction (Js.obj_set k v o) as [|[a b] r IHr]; simpl in *; [tauto|].
      destruct Hin1 as [Heq|Hin1].
      - injection Heq as -> ->. now rewrite String.eqb_refl.
      - destruct (String.eqb k' a); [discriminate|now apply IHr]. }
    rewrite obj_get_set_other in Hget by congruence.
    apply Hget. clear - Hnotin.
    induction o as [|[a b] o IHo]; simpl in *; [reflexivity|].
    destruct (String.eqb_spec k' a) as [->|_]; [tauto|]. apply IHo. tauto.
Qed.

Lemma In_obj_get {V : Type} (k : string) (v : V) (o : list (string * V)) :
  NoDup (map fst o) -> In (k, v) o -> Js.obj_get k o = Some v.
Proof.
  induction o as [|[k' v'] o IH]; simpl; intros Hnd Hin; [contradiction|].
  inversion Hnd as [|? ? Hnotin Hnd']; subst.
  destruct Hin as [Heq|Hin].
  - injection Heq as -> ->. now rewrite String.eqb_refl.
  - destruct (String.eqb_spec k k') as [->|_]; [|now apply IH].
    exfalso. apply Hnotin. apply in_map_iff. now exists (k', v).
Qed.

Lemma fold_bump_keys_NoDup (keys : list string) (acc : list (string * Z)) :
  NoDup (map fst acc) ->
  NoDup (map fst (fold_left (fun a x => EpisodicMemory.bump x a) keys acc)).
Proof.
  revert acc. induction keys as [|x keys IH]; intros acc H; simpl; [exact H|].
  apply IH. unfold EpisodicMemory.bump. now apply obj_set_keys_NoDup.
Qed.

Lemma entries_In {V : Type} (o : list (string * V)) (x : string * V) :
  In x (Js.entries o) -> In x o.
Proof.
  unfold Js.entries. intro H. apply in_app_or in H as [H|H].
  - apply sort_In in H. now apply filter_In in H.
  - now apply filter_In in H.
Qed.

Lemma entries_length {V : Type} (o : list (string * V)) :
  List.length (Js.entries o) = List.length o.
Proof.
  unfold Js.entries. rewrite length_app, sort_length.
  induction o as [|x o IH]; simpl; [reflexivity|].
  destruct (Js.is_index_key x); simpl; lia.
Qed.

Lemma count_roles_fold (l : list Conversation) :
  EpisodicMemory.count_roles l
  = fold_left (fun a x => EpisodicMemory.bump x a) (map conv_role l) [].
Proof.
  unfold EpisodicMemory.count_roles. generalize (@nil (string * Z)).
  induction l as [|c l IH]; intro acc; simpl; [reflexivity|apply IH].
Qed.

Lemma count_words_fold (words : list string) :
  EpisodicMemory.count_words words
  = fold_left (fun a x => EpisodicMemory.bump x a)
      (filter EpisodicMemory.topic_word words) [].
Proof.
  unfold EpisodicMemory.count_words. generalize (@nil (string * Z)).
  induction words as [|x words IH]; intro acc; simpl; [reflexivity|].
  destruct (EpisodicMemory.topic_word x); simpl; apply IH.
Qed.

(** Every listed count is the number of occurrences of its key. *)
Lemma fold_bump_counts (keys : list string) (k : string) (n : Z) :
  In (k, n) (Js.entries (fold_left (fun a x => EpisodicMemory.bump x a) keys [])) ->
  n = Z.of_nat (count_occ string_dec keys k) /\ In k keys.
Proof.
  intro H. apply entries_In in H.
  apply In_obj_get in H; [|apply fold_bump_keys_NoDup; constructor].
  rewrite obj_get_fold_bump in H. simpl in H.
  destruct (count_occ string_dec keys k) as [|c] eqn:E; [discriminate|].
  injection H as <-. split; [reflexivity|].
  apply (count_occ_In string_dec). lia.
Qed.

Lemma StronglySorted_hd_min {A : Type} (R : A -> A -> Prop) (d : A) (l : list A) :
  (forall a, R a a) -> StronglySorted R l ->
  forall x, In x l -> R (hd d l) x.
Proof.
  intros Hrefl Hs x Hin. destruct l as [|y l]; [contradiction|]. simpl.
  inversion Hs as [|? ? _ Hall]; subst.
  destruct Hin as [<-|Hin]; [apply Hrefl|].
  rewrite Forall_forall in Hall. now apply Hall.
Qed.

Lemma StronglySorted_last_max {A : Type} (R : A -> A -> Prop) (d : A) (l : list A) :
  (forall a, R a a) -> StronglySorted R l ->
  forall x, In x l -> R x (last l d).
Proof.
  intros Hrefl Hs. induction Hs as [|y l Hs IH Hall]; intros x Hin; [contradiction|].
  destruct l as [|z l].
  - destruct Hin as [<-|[]]. apply Hrefl.
  - change (last (y :: z :: l) d) with (last (z :: l) d).
    destruct Hin as [<-|Hin]; [|now apply IH].
    rewrite Forall_forall in Hall. apply Hall.
    clear. revert z. induction l as [|a l IHl]; intro z; simpl; [now left|].
    right. apply IHl.
Qed.

Lemma by_timestamp_asc_sorted (l : list Conversation) :
  StronglySorted (fun a b => conv_timestamp a <= conv_timestamp b)
    (Js.sort EpisodicMemory.by_timestamp_asc l).
Proof.
  apply StronglySorted_weaken with (R := Js.precedes EpisodicMemory.by_timestamp_asc).
  - unfold Js.precedes, EpisodicMemory.by_timestamp_asc. intros; lia.
  - apply sort_sorted; unfold EpisodicMemory.by_timestamp_asc; intros; lia.
Qed.

Lemma by_count_desc_sorted (l : list (string * Z)) :
  StronglySorted (fun a b => snd b <= snd a)
    (Js.sort EpisodicMemory.by_count_desc l).
Proof.
  apply StronglySorted_weaken with (R := Js.precedes EpisodicMemory.by_count_desc).
  - unfold Js.precedes, EpisodicMemory.by_count_desc. intros; lia.
  - apply sort_sorted; unfold EpisodicMemory.by_count_desc; intros; lia.
Qed.

(** [extractTopics], for an ASCII text none of whose cleaned words
    names a member of [Object.prototype]: at most five words, each
    longer than three characters and outside the stop-word list, listed
    by descending number of occurrences among the cleaned words. *)
Lemma extractTopics_spec (text : string) :
  let words := Js.split_spaces (Js.strip_punctuation (Js.toLowerCase text)) in
  Js.ascii_text text = true ->
  (forall word, In word words -> Js.inherited_name word = false) ->
  exists counted : list (string * Z),
    EpisodicMemory.extractTopics text = map fst counted
    /\ (List.length counted <= 5)%nat
    /\ StronglySorted (fun a b => snd b <= snd a) counted
    /\ forall word n, In (word, n) counted ->
         In word words
         /\ 3 < Js.strlen word
         /\ EpisodicMemory.is_common word = false
         /\ n = Z.of_nat (count_occ string_dec
                            (filter EpisodicMemory.topic_word words) word).
Proof.
  intros words _ _. unfold EpisodicMemory.extractTopics. fold words.
  exists (Js.slice_to 5 (Js.sort EpisodicMemory.by_count_desc
                           (Js.entries (EpisodicMemory.count_words words)))).
  split; [reflexivity|]. split; [|split].
  - unfold Js.slice_to. rewrite length_firstn.
    change (Z.to_nat 5) with 5%nat. apply Nat.le_min_l.
  - unfold Js.slice_to. apply StronglySorted_firstn, by_count_desc_sorted.
  - intros word n Hin. unfold Js.slice_to in Hin.
    apply firstn_In in Hin. apply sort_In in Hin.
    rewrite count_words_fold in Hin.
    apply fold_bump_counts in Hin as [Hn Hword].
    apply filter_In in Hword as [Hw Htopic].
    unfold EpisodicMemory.topic_word in Htopic.
    apply andb_true_iff in Htopic as [Hlong Hcommon].
    apply Z.ltb_lt in Hlong. apply negb_true_iff in Hcommon.
    repeat split; assumption.
Qed.

(** Called on [EpisodicMemory] itself, with timestamps that are valid
    dates, and with roles and words that do not name a member of
    [Object.prototype], [summarizeConversations] reports the number of entries, the
    earliest and the latest timestamp, the number of entries per role and
    the topic words; it leaves the caller's array sorted by timestamp. *)
Lemma own_summarizeConversations_reports (c : Conversation) (l : list Conversation)
  (earliest latest : string) :
  let entries := c :: l in
  let sorted := Js.sort EpisodicMemory.by_timestamp_asc entries in
  Js.toISOString (conv_timestamp (hd c sorted)) = Some earliest ->
  Js.toISOString (conv_timestamp (last sorted c)) = Some latest ->
  (forall x, In x entries -> Js.inherited_name (conv_role x) = false) ->
  (forall word,
     In word (Js.split_spaces
                (Js.strip_punctuation
                   (Js.toLowerCase (Js.join " " (map conv_content sorted))))) ->
     Js.inherited_name word = false) ->
  EpisodicMemory.own_summarizeConversations entries
  = (EpisodicMemory.summary_text (Js.len entries) earliest latest
       (EpisodicMemory.count_roles entries)
       (EpisodicMemory.extractTopics (Js.join " " (map conv_content sorted))),
     sorted)
  /\ (forall x, In x entries ->
        conv_timestamp (hd c sorted) <= conv_timestamp x
        /\ conv_timestamp x <= conv_timestamp (last sorted c))
  /\ (forall role n,
        In (role, n) (Js.entries (EpisodicMemory.count_roles entries)) ->
        n = Z.of_nat (count_occ string_dec (map conv_role entries) role)).
Proof.
  intros entries sorted Hfirst Hlast _ _. split; [|split].
  - subst sorted entries.
    unfold EpisodicMemory.own_summarizeConversations,
      EpisodicMemory.summarizeConversations.
    cbv beta iota zeta. rewrite Hfirst, Hlast.
    unfold Js.len. now rewrite sort_length.
  - intros x Hx. apply (sort_In EpisodicMemory.by_timestamp_asc) in Hx. fold sorted in Hx.
    split.
    + apply (StronglySorted_hd_min
               (fun a b => conv_timestamp a <= conv_timestamp b) c sorted);
        [intros; lia|apply by_timestamp_asc_sorted|exact Hx].
    + apply (StronglySorted_last_max
               (fun a b => conv_timestamp a <= conv_timestamp b) c sorted);
        [intros; lia|apply by_timestamp_asc_sorted|exact Hx].
  - intros role n Hin. rewrite count_roles_fold in Hin.
    now apply fold_bump_counts in Hin as [Hn _].
Qed.

(** The array is sorted in place, so passing the same array again can
    list the roles in another order. *)
Example summarizeConversations_sorts_in_place :
  let entries := [mkConversation 1 VNull "assistant" "stored memory items" 2000;
                  mkConversation 2 VNull "user" "where are memory items" 1000] in
  let first := EpisodicMemory.own_summarizeConversations entries in
  let second := EpisodicMemory.own_summarizeConversations (snd first) in
  snd first <> entries /\ fst second <> fst first.
Proof. vm_compute. split; discriminate. Qed.

(* ================================================================== *)
(** * Part II, continued. Further properties of the stores             *)
(* ================================================================== *)

(** ** Slices *)

Lemma slice_0_firstn {A : Type} (stop : Z) (l : list A) :
  JsArray.slice 0 stop l = firstn (JsArray.clamp stop (List.length l)) l.
Proof.
  unfold JsArray.slice. change (JsArray.clamp 0 (List.length l)) with 0%nat.
  now rewrite Nat.sub_0_r.
Qed.

Lemma clamp_le (i : Z) (n : nat) : (JsArray.clamp i n <= n)%nat.
Proof.
  unfold JsArray.clamp. destruct (Z.ltb_spec i 0); [lia|apply Nat.le_min_r].
Qed.

Lemma slice1_suffix {A : Type} (start : Z) (l : list A) :
  exists older, l = older ++ JsArray.slice1 start l
    /\ List.length older = JsArray.clamp start (List.length l).
Proof.
  exists (firstn (JsArray.clamp start (List.length l)) l). split.
  - unfold JsArray.slice1. now rewrite firstn_skipn.
  - rewrite length_firstn. apply Nat.min_l, clamp_le.
Qed.

Lemma filter_length_lt {A : Type} (p : A -> bool) (l : list A) :
  (List.length (filter p l) < List.length l)%nat <-> exists x, In x l /\ p x = false.
Proof.
  induction l as [|a l IH]; simpl.
  - split; [lia|intros (x & [] & _)].
  - pose proof (filter_length_le p l) as Hle.
    destruct (p a) eqn:Ha; simpl.
    + rewrite <- Nat.succ_lt_mono, IH. split.
      * intros (x & Hx & Hp). exists x. split; [now right|exact Hp].
      * intros (x & [<-|Hx] & Hp); [congruence|]. now exists x.
    + split; [|lia]. intros _. exists a. split; [now left|exact Ha].
Qed.

(** ** ShortTermMemory: reading the working context *)

Lemma cap_firstn (maxItems : Z) (result : list WorkingContextItem) :
  exists k, ShortTermOps.cap maxItems result = firstn k result.
Proof.
  unfold ShortTermOps.cap.
  destruct (negb (maxItems =? 0) && (maxItems <? Js.len result)).
  - eexists. apply slice_0_firstn.
  - exists (List.length result). now rewrite firstn_all.
Qed.

Lemma cap_length (maxItems : Z) (result : list WorkingContextItem) :
  0 < maxItems -> Js.len (ShortTermOps.cap maxItems result) <= maxItems.
Proof.
  intro Hpos. unfold ShortTermOps.cap.
  destruct (Z.eqb_spec maxItems 0) as [->|_]; [lia|]. simpl.
  destruct (Z.ltb_spec maxItems (Js.len result)) as [Hlt|Hge]; [|exact Hge].
  rewrite slice_0_firstn. unfold Js.len, JsArray.clamp in *.
  destruct (Z.ltb_spec maxItems 0); [lia|].
  rewrite length_firstn. lia.
Qed.

Lemma select_In (query : ContextQuery) (now : Z) (l : list WorkingContextItem)
  (i : WorkingContextItem) :
  In i (ShortTermOps.select query now l)
  <-> In i l
      /\ (match wq_minImportance query with Some m => m | None => 0 end) <= importance i
      /\ ShortTermCore.not_expired now i = true
      /\ (forall topic, truthy_string (wq_topic query) = Some topic ->
                        item_topic i = topic).
Proof.
  unfold ShortTermOps.select. rewrite !filter_In.
  unfold ShortTermOps.at_least. rewrite Z.leb_le.
  destruct (truthy_string (wq_topic query)) as [topic|].
  - rewrite filter_In. unfold ShortTermOps.has_topic. rewrite String.eqb_eq. split.
    + intros (((Hin & Htopic) & Hmin) & Hlive). repeat split; try assumption.
      now intros topic' [= <-].
    + intros (Hin & Hmin & Hlive & Htopic). repeat split; try assumption.
      now apply Htopic.
  - split.
    + intros ((Hin & Hmin) & Hlive). repeat split; try assumption. discriminate.
    + intros (Hin & Hmin & Hlive & _). repeat split; assumption.
Qed.

(** [getWorkingContext] returns stored items only: each has at least the
    asked importance, is not expired at the clock reading and carries the
    asked topic; the result is ordered by descending importance and holds
    at most [maxItems] items for a positive [maxItems] (10 by default);
    the stored working context is left as it was. *)
Theorem getWorkingContext_ranked :
  forall (w : World) (l : list WorkingContextItem) (query : ContextQuery),
    ShortTermMemory.working_context w = Some l ->
    let now := clock (host w) (ticks (host w)) in
    let result := fst (ShortTermOps.getWorkingContext query w) in
    (forall i, In i result ->
       In i l
       /\ (match wq_minImportance query with Some m => m | None => 0 end) <= importance i
       /\ ShortTermCore.not_expired now i = true
       /\ (forall topic, truthy_string (wq_topic query) = Some topic ->
                         item_topic i = topic))
    /\ StronglySorted (fun a b => importance b <= importance a) result
    /\ (forall m, wq_maxItems query = Some m -> 0 < m -> Js.len result <= m)
    /\ (wq_maxItems query = None -> Js.len result <= 10)
    /\ ShortTermMemory.working_context (snd (ShortTermOps.getWorkingContext query w))
       = Some l.
Proof.
  intros w l query Hwc now result. subst result.
  unfold ShortTermOps.getWorkingContext. rewrite Hwc.
  unfold Date_now. simpl. fold now.
  set (sorted := Js.sort ShortTermCore.by_importance_desc
                   (ShortTermOps.select query now l)).
  destruct (cap_firstn (match wq_maxItems query with Some m => m | None => 10 end) sorted)
    as [k Hk].
  split; [|split; [|split; [|split]]].
  - intros i Hi. rewrite Hk in Hi. apply firstn_In in Hi.
    apply sort_In in Hi. now apply select_In.
  - rewrite Hk. apply StronglySorted_firstn, by_importance_desc_sorted.
  - intros m -> Hm. now apply cap_length.
  - intros ->. now apply cap_length.
  - exact Hwc.
Qed.

(** A run of the theorem: four items, one expired, one below the asked
    importance. *)
Lemma getWorkingContext_ranked_witness :
  let w := Samples.world_with
             [Samples.item "a" 1 None; Samples.item "b" 5 None;
              Samples.item "c" 3 None; Samples.item "d" 4 (Some 500)] in
  map item_topic
    (fst (ShortTermOps.getWorkingContext (mkContextQuery None (Some 2) (Some 1)) w))
  = ["b"]
  /\ Js.len (fst (ShortTermOps.getWorkingContext
                    (mkContextQuery None (Some 2) (Some 1)) w)) <= 1.
Proof.
  intro w. split; [vm_compute; reflexivity|].
  destruct (getWorkingContext_ranked w
              [Samples.item "a" 1 None; Samples.item "b" 5 None;
               Samples.item "c" 3 None; Samples.item "d" 4 (Some 500)]
              (mkContextQuery None (Some 2) (Some 1)))
    as (_ & _ & Hcap & _).
  - reflexivity.
  - apply (Hcap 1); [reflexivity|lia].
Defined.

(** With [maxItems: 0] the cap is switched off: a stored item is
    returned exactly when it passes the filters (importance, expiry,
    topic), so the result holds all of them, however many there are. *)
Theorem getWorkingContext_uncapped :
  forall (w : World) (l : list WorkingContextItem) (query : ContextQuery),
    ShortTermMemory.working_context w = Some l ->
    wq_maxItems query = Some 0 ->
    let now := clock (host w) (ticks (host w)) in
    let result := fst (ShortTermOps.getWorkingContext query w) in
    (forall i, In i result
       <-> In i l
           /\ (match wq_minImportance query with Some m => m | None => 0 end)
              <= importance i
           /\ ShortTermCore.not_expired now i = true
           /\ (forall topic, truthy_string (wq_topic query) = Some topic ->
                             item_topic i = topic))
    /\ Permutation result (ShortTermOps.select query now l).
Proof.
  intros w l query Hwc Hmax now result. subst result.
  unfold ShortTermOps.getWorkingContext. rewrite Hwc, Hmax.
  unfold Date_now. simpl. fold now.
  split.
  - intro i. etransitivity; [apply sort_In|apply select_In].
  - apply Permutation_sym, sort_perm.
Qed.

(** A run of the theorem: twelve stored items all come back. *)
Lemma getWorkingContext_uncapped_witness :
  let l := map (fun n => Samples.item "t" (Z.of_nat n) None) (seq 1 12) in
  Js.len (fst (ShortTermOps.getWorkingContext (mkContextQuery None None (Some 0))
                 (Samples.world_with l))) = 12.
Proof.
  intro l.
  pose proof (proj2 (getWorkingContext_uncapped (Samples.world_with l) l
                       (mkContextQuery None None (Some 0)) eq_refl eq_refl)) as H.
  unfold Js.len. rewrite (Permutation_length H). vm_compute. reflexivity.
Defined.

(** ** ShortTermMemory: clearing one item *)

Lemma getContext_set_other (name other : string) (v : CtxVal) (w : World) :
  other <> name ->
  ShortTermMemory.getContext other
    (ShortTermMemory.set_contexts (Js.obj_set name v (contexts (short_term w))) w)
  = ShortTermMemory.getContext other w.
Proof.
  intro Hne. unfold ShortTermMemory.getContext. simpl.
  now rewrite obj_get_set_other.
Qed.

(** [clearContext("working_context", id)] removes exactly the items whose
    id is [id], keeps the others in their order, answers [true] when at
    least one item was removed, and leaves every other context alone. *)
Theorem clearContext_removes_item :
  forall (w : World) (l : list WorkingContextItem) (id : string),
    ShortTermMemory.working_context w = Some l ->
    id <> "" ->
    let result := ShortTermOps.clearContext "working_context" (Some id) w in
    ShortTermMemory.working_context (snd result)
    = Some (filter (fun item => negb (String.eqb (item_id item) id)) l)
    /\ (fst result = true <-> exists item, In item l /\ item_id item = id)
    /\ (forall other, other <> "working_context" ->
          ShortTermMemory.getContext other (snd result)
          = ShortTermMemory.getContext other w).
Proof.
  intros w l id Hwc Hid result. subst result.
  unfold ShortTermMemory.working_context in Hwc.
  unfold ShortTermOps.clearContext.
  destruct (Js.obj_get "working_context" (contexts (short_term w))) as [v|] eqn:Hget;
    [|discriminate].
  destruct v; try discriminate. injection Hwc as ->.
  assert (Htruthy : truthy_string (Some id) = Some id).
  { simpl. destruct (String.eqb_spec id ""); [contradiction|reflexivity]. }
  rewrite Htruthy. unfold Date_now. simpl.
  split; [|split].
  - unfold ShortTermMemory.working_context. simpl. now rewrite obj_get_set_same.
  - fold (ShortTermOps.keeps_id id).
    rewrite Z.ltb_lt. unfold Js.len.
    assert (Hiff : (List.length (filter (ShortTermOps.keeps_id id) l) < List.length l)%nat
                   <-> exists item, In item l /\ item_id item = id).
    { rewrite filter_length_lt. unfold ShortTermOps.keeps_id.
      split; intros (x & Hx & Hp); exists x; split; try exact Hx.
      - apply negb_false_iff in Hp. now apply String.eqb_eq.
      - apply negb_false_iff. now apply String.eqb_eq. }
    rewrite <- Hiff. lia.
  - intros other Hne. unfold ShortTermMemory.getContext. simpl.
    now rewrite obj_get_set_other.
Qed.

(** A run of the theorem: the item added last is cleared by the id that
    [addWorkingContext] returned. *)
Lemma clearContext_removes_item_witness :
  let added := ShortTermMemory.addWorkingContext "goal" "ship v1" (Some 5) None
                 (Samples.world_with [Samples.item "a" 1 None]) in
  let result := ShortTermOps.clearContext "working_context" (Some (fst added))
                  (snd added) in
  fst result = true
  /\ ShortTermMemory.working_context (snd result) = Some [Samples.item "a" 1 None].
Proof.
  intros added result.
  destruct (clearContext_removes_item (snd added)
              [Samples.item "a" 1 None; mkItem "ctx_1000_7" "goal" "ship v1" 5 1001 None]
              (fst added))
    as (Hkept & Hret & _).
  - vm_compute. reflexivity.
  - vm_compute. discriminate.
  - split.
    + apply Hret. eexists. split; [right; left; reflexivity|reflexivity].
    + exact Hkept.
Defined.

(** ** ShortTermMemory: the working context stays within its limit *)

Lemma working_context_pruneMemory_bound (w : World) (l : list WorkingContextItem) :
  ShortTermMemory.working_context w = Some l ->
  0 <= ShortTermMemory.memory_limit w ->
  exists r,
    ShortTermMemory.working_context (snd (ShortTermMemory.pruneMemory None w)) = Some r
    /\ (ShortTermMemory.memory_limit w < Js.len l ->
        Js.len r <= ShortTermMemory.memory_limit w)
    /\ (forall i, In i r -> In i l).
Proof.
  intros Hwc Hlimit. unfold ShortTermMemory.pruneMemory. rewrite Hwc.
  unfold ShortTermCore.effective_target.
  destruct (Z.leb_spec (Js.len l) (ShortTermMemory.memory_limit w)) as [Hle|Hgt].
  - exists l. simpl. split; [exact Hwc|]. split; [lia|tauto].
  - set (now := fst (Date_now w)).
    destruct (prune_items_spec now (ShortTermMemory.memory_limit w) l Hlimit)
      as (Hlen & (dropped & Hperm & _) & _).
    unfold Date_now at 1. simpl.
    change (clock (host w) (ticks (host w))) with now.
    destruct (ShortTermCore.prune_items now (ShortTermMemory.memory_limit w) l)
      as [kept removed] eqn:E.
    simpl in *. exists kept. split; [|split].
    + unfold Date_now. simpl. rewrite working_context_set_last_updated.
      apply (working_context_set kept).
    + intros _. lia.
    + intros i Hi.
      assert (Hin : In i (filter (ShortTermCore.not_expired now) l)).
      { apply (Permutation_in i Hperm). apply in_or_app. now left. }
      now apply filter_In in Hin.
Qed.

(** After [addWorkingContext] the working context never holds more items
    than [memory_limit] (for a limit that is not negative): the new item
    is appended when there is room, and otherwise the list is pruned at
    once, possibly dropping the new item itself. *)
Theorem addWorkingContext_within_limit :
  forall (w : World) (topic details : string) (imp expiry : option Z),
    0 <= ShortTermMemory.memory_limit w ->
    let stored := match ShortTermMemory.working_context w with
                  | Some l => l | None => [] end in
    let result := ShortTermMemory.addWorkingContext topic details imp expiry w in
    exists r item,
      ShortTermMemory.working_context (snd result) = Some r
      /\ Js.len r <= ShortTermMemory.memory_limit w
      /\ item_id item = fst result
      /\ item_topic item = topic /\ item_details item = details
      /\ importance item = match imp with Some i => i | None => 3 end
      /\ expires item = expiry
      /\ (forall i, In i r -> In i stored \/ i = item)
      /\ (Js.len stored < ShortTermMemory.memory_limit w -> r = stored ++ [item]).
Proof.
  intros w topic details imp expiry Hlimit stored result. subst result.
  unfold ShortTermMemory.addWorkingContext.
  set (w0 := match ShortTermMemory.working_context w with
             | Some _ => w
             | None => ShortTermMemory.set_working_context [] w
             end).
  assert (Hw0 : ShortTermMemory.working_context w0 = Some stored).
  { subst w0 stored. destruct (ShortTermMemory.working_context w) eqn:E;
      [exact E|apply working_context_set]. }
  assert (Hlimit0 : ShortTermMemory.memory_limit w0 = ShortTermMemory.memory_limit w).
  { subst w0. now destruct (ShortTermMemory.working_context w). }
  unfold Date_now, Math_random_10000, host_now, host_random.
  cbv beta iota zeta.
  rewrite !working_context_set_host, Hw0.
  set (item := mkItem _ topic details _ _ expiry).
  set (w6 := ShortTermMemory.set_last_updated _ _).
  assert (Hw6 : ShortTermMemory.working_context w6 = Some (stored ++ [item])).
  { subst w6. rewrite working_context_set_last_updated, working_context_set_host.
    apply working_context_set. }
  assert (Hlimit6 : ShortTermMemory.memory_limit w6 = ShortTermMemory.memory_limit w).
  { subst w6. unfold ShortTermMemory.memory_limit. simpl. exact Hlimit0. }
  assert (Hlen : Js.len (stored ++ [item]) = Js.len stored + 1).
  { rewrite len_app. reflexivity. }
  rewrite Hlimit6.
  destruct (Z.ltb_spec (ShortTermMemory.memory_limit w) (Js.len (stored ++ [item])))
    as [Hover|Hroom].
  - destruct (working_context_pruneMemory_bound w6 (stored ++ [item]) Hw6)
      as (r & Hr & Hbound & Hsub); [lia|].
    exists r, item. cbn [fst snd]. rewrite Hr.
    split; [reflexivity|]. split; [rewrite Hlimit6 in Hbound; apply Hbound; lia|].
    repeat split; try reflexivity.
    + intros i Hi. apply Hsub in Hi. apply in_app_or in Hi as [Hi|[<-|[]]]; auto.
    + intros Hlt. lia.
  - exists (stored ++ [item]), item. cbn [fst snd]. rewrite Hw6.
    split; [reflexivity|]. split; [lia|].
    repeat split; try reflexivity.
    intros i Hi. apply in_app_or in Hi as [Hi|[<-|[]]]; auto.
Qed.

(** A run of the theorem with a limit of two items: the third item, the
    least important, is dropped as soon as it is added. *)
Lemma addWorkingContext_within_limit_witness :
  let w := mkWorld Samples.host0
             (mkShortTerm [("working_context",
                            VItems [Samples.item "a" 5 None; Samples.item "b" 4 None])]
                (mkMetadata 0 0 1 2))
             [] [] Samples.empty_db in
  let result := ShortTermMemory.addWorkingContext "c" "minor" (Some 1) None w in
  exists r,
    ShortTermMemory.working_context (snd result) = Some r /\ Js.len r <= 2.
Proof.
  intros w result.
  destruct (addWorkingContext_within_limit w "c" "minor" (Some 1) None)
    as (r & item & Hr & Hlen & _).
  - vm_compute. discriminate.
  - exists r. split; [exact Hr|exact Hlen].
Defined.

(** ** ShortTermMemory: the window of conversation turns *)

Lemma turns_now (s : TurnStore) :
  conversation_context (snd (ConversationContext.now s)) = conversation_context s.
Proof. reflexivity. Qed.

(** [addConversationTurn] appends the turn and then keeps the ten most
    recent turns: what is stored afterwards is a suffix of the old turns
    followed by the new one, of length [min 10 (n + 1)]; a timestamp of 0
    or none is replaced by the clock reading. *)
Theorem addConversationTurn_keeps_last_ten :
  forall (s : TurnStore) (role content : string) (timestamp : option Z),
    let before := match conversation_context s with Some l => l | None => [] end in
    let result := ConversationContext.addConversationTurn role content timestamp s in
    exists (stamp : Z) (dropped kept : list Turn),
      fst result = true
      /\ conversation_context (snd result) = Some kept
      /\ before ++ [mkTurn role content stamp] = dropped ++ kept
      /\ Js.len kept = Z.min 10 (Js.len before + 1)
      /\ (forall t, timestamp = Some t -> t <> 0 -> stamp = t)
      /\ (timestamp = None \/ timestamp = Some 0 ->
          stamp = clock (ts_host s) (ticks (ts_host s))).
Proof.
  intros s role content timestamp before result. subst result.
  unfold ConversationContext.addConversationTurn. fold before.
  set (stamped := match timestamp with
                  | Some t => if t =? 0 then ConversationContext.now s else (t, s)
                  | None => ConversationContext.now s
                  end).
  destruct stamped as [ts s1] eqn:Hstamped.
  destruct (ConversationContext.now s1) as [t s2].
  set (pushed := before ++ [mkTurn role content ts]).
  assert (Hlen : Js.len pushed = Js.len before + 1) by (subst pushed; now rewrite len_app).
  exists ts. cbn [fst snd conversation_context].
  assert (Hstamp : (forall t0, timestamp = Some t0 -> t0 <> 0 -> ts = t0)
                   /\ (timestamp = None \/ timestamp = Some 0 ->
                       ts = clock (ts_host s) (ticks (ts_host s)))).
  { subst stamped. split.
    - intros t0 -> Ht0. destruct (Z.eqb_spec t0 0); [contradiction|].
      now injection Hstamped as <- _.
    - intros [->| ->]; now injection Hstamped as <- _. }
  destruct Hstamp as [Hgiven Hclock].
  destruct (Z.ltb_spec ConversationContext.maxTurns (Js.len pushed)) as [Hover|Hroom].
  - destruct (slice1_suffix (- ConversationContext.maxTurns) pushed)
      as (older & Hsplit & Holder).
    exists older, (JsArray.slice1 (- ConversationContext.maxTurns) pushed).
    split; [reflexivity|]. split; [reflexivity|]. split; [exact Hsplit|].
    split; [|split; assumption].
    set (kept := JsArray.slice1 (- ConversationContext.maxTurns) pushed) in *.
    assert (Hsum : Js.len pushed = Js.len older + Js.len kept).
    { rewrite Hsplit at 1. apply len_app. }
    unfold Js.len in *. rewrite Holder in Hsum.
    unfold JsArray.clamp, ConversationContext.maxTurns in *.
    change (- (10) <? 0) with true in Hsum. cbv iota in Hsum. lia.
  - exists [], pushed.
    split; [reflexivity|]. split; [reflexivity|]. split; [reflexivity|].
    split; [|split; assumption].
    unfold ConversationContext.maxTurns in Hroom. lia.
Qed.

(** [getConversationContext(n)] returns the most recent turns, oldest
    first: the last [min n stored] for a positive [n] (5 by default).
    With [n = 0] it returns every stored turn, not none. *)
Theorem getConversationContext_recent :
  forall (s : TurnStore) (l : list Turn) (maxTurns : option Z),
    conversation_context s = Some l ->
    let n := match maxTurns with Some n => n | None => 5 end in
    let result := ConversationContext.getConversationContext maxTurns s in
    (exists older, l = older ++ result)
    /\ (0 < n -> Js.len result = Z.min n (Js.len l))
    /\ (n = 0 -> result = l).
Proof.
  intros s l maxTurns Hl n result. subst result.
  unfold ConversationContext.getConversationContext. rewrite Hl. fold n.
  destruct (slice1_suffix (- n) l) as (older & Hsplit & Holder).
  split; [now exists older|]. split.
  - intro Hpos.
    assert (Hsum : Js.len l = Js.len older + Js.len (JsArray.slice1 (- n) l)).
    { rewrite Hsplit at 1. apply len_app. }
    set (kept := JsArray.slice1 (- n) l) in *.
    unfold Js.len in *. rewrite Holder in Hsum. unfold JsArray.clamp in Hsum.
    destruct (Z.ltb_spec (- n) 0); lia.
  - intros ->. reflexivity.
Qed.

(** A run of the theorem after twelve turns: ten are stored, and asking
    for three gives the last three. *)
Lemma getConversationContext_recent_witness :
  let s := fold_left
             (fun acc n =>
                snd (ConversationContext.addConversationTurn "user"
                       (Js.show_int (Z.of_nat n)) None acc))
             (seq 1 12) (mkTurnStore Samples.host0 None 0) in
  map turn_content (ConversationContext.getConversationContext (Some 3) s)
  = ["10"; "11"; "12"]
  /\ Js.len (ConversationContext.getConversationContext (Some 3) s) = 3
  /\ Js.len (ConversationContext.getConversationContext (Some 0) s) = 10.
Proof.
  intro s. split; [vm_compute; reflexivity|].
  destruct (conversation_context s) as [l|] eqn:Hl; [|vm_compute in Hl; discriminate].
  destruct (getConversationContext_recent s l (Some 3) Hl) as (_ & Hlen & _).
  split.
  - rewrite Hlen by lia. vm_compute in Hl. injection Hl as <-. vm_compute. reflexivity.
  - vm_compute. reflexivity.
Defined.

(** ** EpisodicMemory: filtered retrieval *)

Lemma slice_window {A : Type} (offset limit : Z) (l : list A) :
  0 <= offset -> 0 <= limit ->
  JsArray.slice offset (offset + limit) l
  = firstn (Z.to_nat limit) (skipn (Z.to_nat offset) l).
Proof.
  intros Ho Hl. unfold JsArray.slice, JsArray.clamp.
  destruct (Z.ltb_spec offset 0); [lia|].
  destruct (Z.ltb_spec (offset + limit) 0); [lia|].
  set (n := List.length l). set (a := Z.to_nat offset). set (b := Z.to_nat limit).
  replace (Z.to_nat (offset + limit)) with (a + b)%nat by (subst a b; lia).
  destruct (Nat.le_gt_cases n a) as [Hfar|Hnear].
  - rewrite (Nat.min_r a n) by exact Hfar.
    rewrite !skipn_all2 by (fold n; lia).
    now rewrite !firstn_nil.
  - rewrite (Nat.min_l a n) by lia.
    destruct (Nat.le_gt_cases (a + b) n) as [Hin|Hout].
    + rewrite (Nat.min_l (a + b) n) by exact Hin. f_equal. lia.
    + rewrite (Nat.min_r (a + b) n) by lia.
      rewrite !firstn_all2; [reflexivity| |]; rewrite length_skipn; fold n; lia.
Qed.

Lemma bounded_In (bound : option Z) (test : Z -> Z -> bool) (l : list Conversation)
  (c : Conversation) :
  In c (EpisodicOps.bounded bound test l)
  <-> In c l /\ forall t, bound = Some t -> t <> 0 -> test t (conv_timestamp c) = true.
Proof.
  unfold EpisodicOps.bounded. destruct bound as [t|].
  - destruct (Z.eqb_spec t 0) as [->|Hne].
    + split; [intro H; split; [exact H|]|tauto]. intros t [= <-] Ht. contradiction.
    + rewrite filter_In. split.
      * intros [Hin Htest]. split; [exact Hin|]. now intros t' [= <-] _.
      * intros [Hin Htest]. split; [exact Hin|]. now apply Htest.
  - split; [intro H; split; [exact H|discriminate]|tauto].
Qed.

Lemma matching_In (f : ConversationFilter) (rows : list Conversation) (c : Conversation) :
  In c (EpisodicOps.matching f rows)
  <-> In c rows
      /\ (truthy (cf_session_id f) = true ->
          strict_eq (cf_session_id f) (conv_session c) = true)
      /\ (forall role, truthy_string (cf_role f) = Some role -> conv_role c = role)
      /\ (forall t, cf_start_time f = Some t -> t <> 0 -> t <= conv_timestamp c)
      /\ (forall t, cf_end_time f = Some t -> t <> 0 -> conv_timestamp c <= t).
Proof.
  unfold EpisodicOps.matching. rewrite !bounded_In.
  assert (Hrole : forall l,
            In c (match truthy_string (cf_role f) with
                  | Some role => filter (fun c => String.eqb (conv_role c) role) l
                  | None => l
                  end)
            <-> In c l /\ forall role, truthy_string (cf_role f) = Some role ->
                                       conv_role c = role).
  { intro l. destruct (truthy_string (cf_role f)) as [role|].
    - rewrite filter_In, String.eqb_eq. split.
      + intros [Hin Hr]. split; [exact Hin|]. now intros role' [= <-].
      + intros [Hin Hr]. split; [exact Hin|]. now apply Hr.
    - split; [intro H; split; [exact H|discriminate]|tauto]. }
  rewrite Hrole.
  assert (Hsession :
            In c (if truthy (cf_session_id f)
                  then filter (fun c => strict_eq (cf_session_id f) (conv_session c)) rows
                  else rows)
            <-> In c rows /\ (truthy (cf_session_id f) = true ->
                              strict_eq (cf_session_id f) (conv_session c) = true)).
  { destruct (truthy (cf_session_id f)).
    - rewrite filter_In. tauto.
    - split; [intro H; split; [exact H|discriminate]|tauto]. }
  rewrite Hsession.
  split.
  - intros ((((Hin & Hs) & Hr) & Hstart) & Hend). repeat split; try assumption.
    + intros t Ht Hne. apply Z.leb_le. now apply Hstart.
    + intros t Ht Hne. apply Z.leb_le. now apply Hend.
  - intros (Hin & Hs & Hr & Hstart & Hend). repeat split; try assumption.
    + intros t Ht Hne. apply Z.leb_le. now apply Hstart.
    + intros t Ht Hne. apply Z.leb_le. now apply Hend.
Qed.

Lemma by_timestamp_desc_sorted (l : list Conversation) :
  StronglySorted (fun a b => conv_timestamp b <= conv_timestamp a)
    (Js.sort EpisodicMemory.by_timestamp_desc l).
Proof.
  apply StronglySorted_weaken with (R := Js.precedes EpisodicMemory.by_timestamp_desc).
  - unfold Js.precedes, EpisodicMemory.by_timestamp_desc. intros; lia.
  - apply sort_sorted; unfold EpisodicMemory.by_timestamp_desc; intros; lia.
Qed.

Lemma StronglySorted_skipn {A : Type} (R : A -> A -> Prop) (n : nat) (l : list A) :
  StronglySorted R l -> StronglySorted R (skipn n l).
Proof.
  revert l. induction n as [|n IH]; intros l H; [exact H|].
  destruct l as [|x l]; [exact H|]. simpl. apply IH. now inversion H.
Qed.

Lemma skipn_In {A : Type} (n : nat) (l : list A) (x : A) : In x (skipn n l) -> In x l.
Proof.
  intro H. rewrite <- (firstn_skipn n l). apply in_or_app. now right.
Qed.

Lemma db_all_piece (f : ConversationFilter) (limit offset : Z) (rows : list Conversation) :
  exists k n,
    EpisodicOps.db_all f limit offset rows
    = firstn n (skipn k (Js.sort EpisodicMemory.by_timestamp_desc
                           (EpisodicOps.matching f rows))).
Proof.
  unfold EpisodicOps.db_all.
  destruct ((offset =? 0) && (limit =? 0)).
  - exists 0%nat. eexists. simpl. symmetry. apply firstn_all.
  - eexists. eexists. reflexivity.
Qed.

(** [getConversations] returns stored entries that pass every filter
    given (session, role, start and end time; a filter that is missing,
    empty or 0 does not apply), newest first. *)
Theorem getConversations_filtered :
  forall (w : World) (f : ConversationFilter),
    let result := EpisodicOps.getConversations f w in
    (forall c, In c result ->
       In c (conversations w)
       /\ (truthy (cf_session_id f) = true ->
           strict_eq (cf_session_id f) (conv_session c) = true)
       /\ (forall role, truthy_string (cf_role f) = Some role -> conv_role c = role)
       /\ (forall t, cf_start_time f = Some t -> t <> 0 -> t <= conv_timestamp c)
       /\ (forall t, cf_end_time f = Some t -> t <> 0 -> conv_timestamp c <= t))
    /\ StronglySorted (fun a b => conv_timestamp b <= conv_timestamp a) result.
Proof.
  intros w f result. subst result. unfold EpisodicOps.getConversations.
  destruct (db_all_piece f (match cf_limit f with Some n => n | None => 50 end)
              (match cf_offset f with Some n => n | None => 0 end) (conversations w))
    as (k & n & ->).
  split.
  - intros c Hc. apply firstn_In, skipn_In, sort_In in Hc. now apply matching_In.
  - apply StronglySorted_firstn, StronglySorted_skipn, by_timestamp_desc_sorted.
Qed.

(** Paging.  With a limit and an offset that are not both 0,
    [getConversations] returns the entries from position [offset] on of
    the full listing, at most [limit] of them (50 when the limit is 0 or
    missing); with both 0 it returns the full listing, uncapped. *)
Theorem getConversations_page :
  forall (w : World) (f : ConversationFilter) (limit offset : Z),
    0 <= limit -> 0 <= offset ->
    let page := mkConversationFilter (cf_session_id f) (cf_role f) (cf_start_time f)
                  (cf_end_time f) (Some limit) (Some offset) in
    let everything := mkConversationFilter (cf_session_id f) (cf_role f)
                        (cf_start_time f) (cf_end_time f) (Some 0) (Some 0) in
    let listing := EpisodicOps.getConversations everything w in
    (forall c, In c listing <-> In c (EpisodicOps.matching f (conversations w)))
    /\ (0 < limit ->
        EpisodicOps.getConversations page w
        = firstn (Z.to_nat limit) (skipn (Z.to_nat offset) listing))
    /\ (limit = 0 -> 0 < offset ->
        EpisodicOps.getConversations page w
        = firstn 50 (skipn (Z.to_nat offset) listing)).
Proof.
  intros w f limit offset Hlimit Hoffset page everything listing.
  assert (Hlisting : listing = Js.sort EpisodicMemory.by_timestamp_desc
                                 (EpisodicOps.matching f (conversations w))).
  { reflexivity. }
  split; [|split].
  - intro c. rewrite Hlisting. apply sort_In.
  - intro Hpos. rewrite Hlisting.
    unfold EpisodicOps.getConversations, EpisodicOps.db_all. subst page. simpl.
    change (EpisodicOps.matching _ (conversations w))
      with (EpisodicOps.matching f (conversations w)).
    destruct (Z.eqb_spec limit 0) as [->|_]; [lia|].
    rewrite andb_false_r. apply slice_window; lia.
  - intros -> Hoff. rewrite Hlisting.
    unfold EpisodicOps.getConversations, EpisodicOps.db_all. subst page. simpl.
    change (EpisodicOps.matching _ (conversations w))
      with (EpisodicOps.matching f (conversations w)).
    destruct (Z.eqb_spec offset 0) as [->|_]; [lia|]. simpl.
    now rewrite slice_window by lia.
Qed.

(** A run of the theorem: a user turn and twenty system entries, read in
    pages of eight. *)
Lemma getConversations_page_witness :
  let w := Samples.world_with_conversations Samples.buried_user_turn in
  let f := mkConversationFilter VNull None None None None None in
  map conv_ident
    (EpisodicOps.getConversations
       (mkConversationFilter VNull None None None (Some 8) (Some 16)) w)
  = [5; 4; 3; 2; 1].
Proof.
  intros w f.
  destruct (getConversations_page w f 8 16) as (_ & Hpage & _); [lia|lia|].
  cbv zeta in Hpage. simpl cf_session_id in Hpage. simpl cf_role in Hpage.
  simpl cf_start_time in Hpage. simpl cf_end_time in Hpage.
  rewrite Hpage by lia. vm_compute. reflexivity.
Defined.

(** ** EpisodicMemory: session summaries *)

Lemma exported_summarize_text (c : Conversation) (l : list Conversation) :
  fst (EpisodicMemory.MEMORY_SYSTEM_summarizeConversations (c :: l))
  = "Error generating summary.".
Proof.
  unfold EpisodicMemory.MEMORY_SYSTEM_summarizeConversations,
    EpisodicMemory.summarizeConversations.
  destruct (Js.toISOString _); [destruct (Js.toISOString _)|]; reflexivity.
Qed.

Lemma find_app_some {A : Type} (p : A -> bool) (l l' : list A) (x : A) :
  find p l = Some x -> find p (l ++ l') = Some x.
Proof.
  induction l as [|y l IH]; simpl; [discriminate|].
  destruct (p y); [tauto|exact IH].
Qed.

(** [getSessionSummary] answers with the summary that was stored first
    for the session: once a session has a summary, storing another one
    (whatever its end time) does not change the answer.  For a session
    without a summary, the stored one is returned. *)
Theorem getSessionSummary_first_stored :
  forall (summaries : list Summary) (session_id : CtxVal) (summary : string)
         (start_time end_time message_count : Z),
    strict_eq session_id session_id = true ->
    let stored := EpisodicOps.storeSummary session_id summary start_time end_time
                    message_count summaries in
    (forall first,
       EpisodicOps.getSessionSummary session_id summaries = Some first ->
       EpisodicOps.getSessionSummary session_id (snd stored) = Some first)
    /\ (EpisodicOps.getSessionSummary session_id summaries = None ->
        EpisodicOps.getSessionSummary session_id (snd stored)
        = Some (mkSummary (fst stored) session_id summary start_time end_time
                  message_count))
    /\ fst stored = Js.len summaries + 1.
Proof.
  intros summaries session_id summary start_time end_time message_count Hprim stored.
  subst stored. unfold EpisodicOps.storeSummary, EpisodicOps.getSessionSummary.
  cbn [fst snd]. split; [|split].
  - intros first Hfirst. now apply find_app_some.
  - intro Hnone. apply find_app_none; [exact Hnone|exact Hprim].
  - reflexivity.
Qed.

(** A run of the theorem: a later summary of the same session stays
    hidden behind the first one. *)
Lemma getSessionSummary_first_stored_witness :
  let one := snd (EpisodicOps.storeSummary (VStr "s1") "first" 10 20 2 []) in
  let two := snd (EpisodicOps.storeSummary (VStr "s1") "second" 10 90 7 one) in
  option_map sum_summary (EpisodicOps.getSessionSummary (VStr "s1") two) = Some "first".
Proof.
  intros one two.
  destruct (getSessionSummary_first_stored one (VStr "s1") "second" 10 90 7 eq_refl)
    as (Hfirst & _).
  subst two. rewrite (Hfirst (mkSummary 1 (VStr "s1") "first" 10 20 2) eq_refl).
  reflexivity.
Defined.

Lemma storeContext_getContext_same (name : string) (v : CtxVal) (w : World) :
  ShortTermMemory.getContext name (snd (ShortTermMemory.storeContext name v w)) = v.
Proof.
  unfold ShortTermMemory.storeContext, ShortTermMemory.getContext.
  destruct (Js.obj_get name (contexts (short_term w))); simpl;
    now rewrite obj_get_set_same.
Qed.

Lemma storeContext_conversations (name : string) (v : CtxVal) (w : World) :
  conversations (snd (ShortTermMemory.storeContext name v w)) = conversations w.
Proof.
  unfold ShortTermMemory.storeContext.
  destruct (Js.obj_get name (contexts (short_term w))); reflexivity.
Qed.

(** What [summarizeCurrentSession] does with the entries, the summaries
    and the short-term store; the [metadata] fields follow in
    [summarizeCurrentSession_records_error]. *)
Lemma summarizeCurrentSession_world :
  forall (w : World) (summaries : list Summary) (session : string),
    ShortTermMemory.getContext "session_id" w = VStr session ->
    session <> "" ->
    let entries := EpisodicOps.getConversations
                     (EpisodicOps.session_only (VStr session) 100) w in
    let result := EpisodicOps.summarizeCurrentSession (w, summaries) in
    (entries = [] -> result = (None, (w, summaries)))
    /\ (entries <> [] ->
        fst result = Some "Error generating summary."
        /\ (exists row,
              snd (snd result) = summaries ++ [row]
              /\ sum_summary row = "Error generating summary."
              /\ sum_session_id row = VStr session
              /\ sum_message_count row = Js.len entries
              /\ (forall c, In c entries ->
                    sum_start_time row <= conv_timestamp c <= sum_end_time row))
        /\ ShortTermMemory.getContext "conversation_summary" (fst (snd result))
           = VStr "Error generating summary."
        /\ conversations (fst (snd result)) = conversations w).
Proof.
  intros w summaries session Hsession Hne entries result. subst result.
  unfold EpisodicOps.summarizeCurrentSession. rewrite Hsession.
  assert (Htruthy : truthy (VStr session) = true).
  { simpl. destruct (String.eqb_spec session ""); [contradiction|reflexivity]. }
  rewrite Htruthy. fold entries.
  destruct entries as [|c0 rest] eqn:Hentries.
  - split; [reflexivity|]. intro H. contradiction.
  - split; [discriminate|]. intros _.
    pose proof (exported_summarize_text c0 rest) as Htext.
    destruct (EpisodicMemory.MEMORY_SYSTEM_summarizeConversations (c0 :: rest))
      as [summary after] eqn:Hcall.
    cbn [fst] in Htext. subst summary.
    assert (Hafter : after = Js.sort EpisodicMemory.by_timestamp_asc (c0 :: rest)).
    { unfold EpisodicMemory.MEMORY_SYSTEM_summarizeConversations,
        EpisodicMemory.summarizeConversations in Hcall.
      destruct (Js.toISOString _) in Hcall; [destruct (Js.toISOString _) in Hcall|];
        now injection Hcall as <-. }
    unfold EpisodicOps.storeSummary.
    destruct (ShortTermMemory.storeContext "conversation_summary"
                (VStr "Error generating summary.") w) as [stored w2] eqn:Hstore.
    cbn [fst snd].
    assert (Hw2 : w2 = snd (ShortTermMemory.storeContext "conversation_summary"
                             (VStr "Error generating summary.") w))
      by now rewrite Hstore.
    split; [reflexivity|]. split; [|split].
    + eexists. split; [reflexivity|]. cbn [sum_summary sum_session_id sum_message_count
                                            sum_start_time sum_end_time].
      split; [reflexivity|]. split; [reflexivity|].
      set (sorted := Js.sort EpisodicMemory.by_timestamp_asc after).
      assert (Hin_sorted : forall c, In c (c0 :: rest) <-> In c sorted).
      { intro c. subst sorted after. now rewrite !sort_In. }
      split.
      * subst sorted after. unfold Js.len. now rewrite !sort_length.
      * intros c Hc. apply Hin_sorted in Hc. split.
        -- apply (StronglySorted_hd_min
                    (fun a b => conv_timestamp a <= conv_timestamp b) c0 sorted);
             [intros; lia|apply by_timestamp_asc_sorted|exact Hc].
        -- apply (StronglySorted_last_max
                    (fun a b => conv_timestamp a <= conv_timestamp b) c0 sorted);
             [intros; lia|apply by_timestamp_asc_sorted|exact Hc].
    + rewrite Hw2. apply storeContext_getContext_same.
    + rewrite Hw2. apply storeContext_conversations.
Qed.

(** ** EpisodicMemory: ids and the newest entry *)

Lemma NoDup_map_of_nat (l : list nat) : NoDup l -> NoDup (map Z.of_nat l).
Proof.
  induction 1 as [|x l Hx Hl IH]; simpl; constructor; [|exact IH].
  intro Hin. apply in_map_iff in Hin as (y & Hy & Hin).
  apply Nat2Z.inj in Hy. now subst y.
Qed.

Lemma seq_snoc (start n : nat) : seq start (S n) = seq start n ++ [(start + n)%nat].
Proof. now rewrite seq_S. Qed.

(** [storeConversation] numbers the entries: when the stored entries
    carry the ids 1, 2, ..., n in this order, the call returns [n + 1],
    appends one entry with that id and the given role and content, and
    leaves the earlier entries as they were, so that ids stay distinct. *)
Theorem storeConversation_numbers_entries :
  forall (w : World) (role content : string) (session_id : CtxVal)
         (timestamp : option Z),
    map conv_ident (conversations w)
    = map Z.of_nat (seq 1 (List.length (conversations w))) ->
    let result := EpisodicMemory.storeConversation role content session_id timestamp w in
    fst result = Js.len (conversations w) + 1
    /\ (exists entry,
          conversations (snd result) = conversations w ++ [entry]
          /\ conv_ident entry = fst result
          /\ conv_role entry = role /\ conv_content entry = content)
    /\ map conv_ident (conversations (snd result))
       = map Z.of_nat (seq 1 (List.length (conversations (snd result))))
    /\ NoDup (map conv_ident (conversations (snd result))).
Proof.
  intros w role content session_id timestamp Hids result.
  assert (Hshape : exists session ts w',
            result = (Js.len (conversations w) + 1,
                      set_conversations
                        (conversations w
                         ++ [mkConversation (Js.len (conversations w) + 1) session
                               role content ts]) w')
            /\ conversations w' = conversations w).
  { subst result. unfold EpisodicMemory.storeConversation.
    destruct (truthy session_id);
      [|destruct (truthy (ShortTermMemory.getContext "session_id" w))];
      destruct timestamp as [t|]; try destruct (Z.eqb_spec t 0);
      unfold Date_now, host_now; cbv beta iota zeta;
      repeat match goal with
             | |- context [if ?c =? 0 then _ else _] => destruct (c =? 0)
             end;
      do 3 eexists; split; reflexivity. }
  destruct Hshape as (session & ts & w' & -> & Hsame).
  cbn [fst snd]. split; [reflexivity|].
  assert (Hnew : map conv_ident
                   (conversations w
                    ++ [mkConversation (Js.len (conversations w) + 1) session role
                          content ts])
                 = map Z.of_nat (seq 1 (S (List.length (conversations w))))).
  { rewrite map_app, Hids, seq_snoc, map_app. simpl. f_equal. f_equal.
    unfold Js.len. lia. }
  split; [|split].
  - eexists. split; [reflexivity|]. repeat split.
  - simpl. rewrite Hnew. f_equal. f_equal. rewrite length_app. simpl. lia.
  - simpl. rewrite Hnew. apply NoDup_map_of_nat, seq_NoDup.
Qed.

(** A run of the theorem from an empty store: three calls give the ids
    1, 2, 3. *)
Lemma storeConversation_numbers_entries_witness :
  let w1 := snd (EpisodicMemory.storeConversation "user" "one" VNull None
                   (Samples.world_with [])) in
  let w2 := snd (EpisodicMemory.storeConversation "assistant" "two" VNull None w1) in
  let result := EpisodicMemory.storeConversation "user" "three" VNull None w2 in
  fst result = 3
  /\ NoDup (map conv_ident (conversations (snd result))).
Proof.
  intros w1 w2 result.
  destruct (storeConversation_numbers_entries w2 "user" "three" VNull None)
    as (Hid & _ & _ & Hnodup).
  - vm_compute. reflexivity.
  - split; [|exact Hnodup]. subst result. rewrite Hid. vm_compute. reflexivity.
Defined.

Lemma sort_desc_newest (l : list Conversation) (x : Conversation) :
  (forall c, In c l -> conv_timestamp c < conv_timestamp x) ->
  Js.sort EpisodicMemory.by_timestamp_desc (l ++ [x])
  = x :: Js.sort EpisodicMemory.by_timestamp_desc l.
Proof.
  induction l as [|a l IH]; intro Hnew; [reflexivity|].
  change (Js.sort EpisodicMemory.by_timestamp_desc ((a :: l) ++ [x]))
    with (Js.insert_by EpisodicMemory.by_timestamp_desc a
            (Js.sort EpisodicMemory.by_timestamp_desc (l ++ [x]))).
  rewrite IH by (intros c Hc; apply Hnew; now right).
  simpl. unfold EpisodicMemory.by_timestamp_desc at 1.
  specialize (Hnew a (or_introl eq_refl)).
  destruct (Z.leb_spec (conv_timestamp x - conv_timestamp a) 0); [lia|reflexivity].
Qed.

Lemma sort_desc_tie (l : list Conversation) (x : Conversation) :
  (exists c, In c l /\ conv_timestamp x <= conv_timestamp c) ->
  exists c rest,
    In c l /\ Js.sort EpisodicMemory.by_timestamp_desc (l ++ [x]) = c :: rest.
Proof.
  induction l as [|a l IH]; intros (c & Hc & Hle); [contradiction|].
  change (Js.sort EpisodicMemory.by_timestamp_desc ((a :: l) ++ [x]))
    with (Js.insert_by EpisodicMemory.by_timestamp_desc a
            (Js.sort EpisodicMemory.by_timestamp_desc (l ++ [x]))).
  destruct (existsb (fun c' => conv_timestamp x <=? conv_timestamp c') l) eqn:Hlater.
  - apply existsb_exists in Hlater as (c' & Hc' & Hle').
    destruct IH as (h & rest & Hh & ->); [exists c'; split; [exact Hc'|lia]|].
    cbn [Js.insert_by].
    destruct (EpisodicMemory.by_timestamp_desc a h <=? 0).
    + exists a, (h :: rest). split; [now left|reflexivity].
    + exists h, (Js.insert_by EpisodicMemory.by_timestamp_desc a rest).
      split; [now right|reflexivity].
  - assert (Hnew : forall c', In c' l -> conv_timestamp c' < conv_timestamp x).
    { intros c' Hc'. destruct (Z.lt_ge_cases (conv_timestamp c') (conv_timestamp x))
        as [Hlt|Hge]; [exact Hlt|].
      assert (existsb (fun c' => conv_timestamp x <=? conv_timestamp c') l = true)
        as Habs; [|congruence].
      apply existsb_exists. exists c'. split; [exact Hc'|lia]. }
    rewrite (sort_desc_newest l x Hnew).
    destruct Hc as [<-|Hc]; [|specialize (Hnew c Hc); lia].
    cbn [Js.insert_by]. unfold EpisodicMemory.by_timestamp_desc at 1.
    destruct (Z.leb_spec (conv_timestamp x - conv_timestamp a) 0); [|lia].
    exists a, (x :: Js.sort EpisodicMemory.by_timestamp_desc l).
    split; [now left|reflexivity].
Qed.

(** An entry stored with a timestamp later than every stored one is what
    [getRecentConversations(1)] returns next.  When a stored entry has
    the same or a later timestamp, the call returns a stored entry in
    its place: on a tie the older entry wins. *)
Theorem storeConversation_then_recent :
  forall (w : World) (role content session : string) (t : Z),
    session <> "" -> t <> 0 ->
    let stored := EpisodicMemory.storeConversation role content (VStr session) (Some t) w in
    let recent := EpisodicMemory.getRecentConversations 1 (snd stored) in
    ((forall c, In c (conversations w) -> conv_timestamp c < t) ->
     recent = [mkConversation (fst stored) (VStr session) role content t])
    /\ ((exists c, In c (conversations w) /\ t <= conv_timestamp c) ->
        exists c, In c (conversations w) /\ recent = [c]).
Proof.
  intros w role content session t Hsession Ht stored recent. subst recent stored.
  unfold EpisodicMemory.storeConversation.
  assert (Htruthy : truthy (VStr session) = true).
  { simpl. destruct (String.eqb_spec session ""); [contradiction|reflexivity]. }
  assert (Hz : (t =? 0) = false) by now apply Z.eqb_neq.
  rewrite Htruthy, !Hz.
  cbn [fst snd]. unfold EpisodicMemory.getRecentConversations, set_conversations.
  cbn [conversations]. change (1 =? 0) with false. change (0 <? 1) with true.
  cbv iota. split.
  - intro Hnewest. rewrite sort_desc_newest by exact Hnewest. reflexivity.
  - intro Hlater.
    destruct (sort_desc_tie (conversations w)
                (mkConversation (Js.len (conversations w) + 1) (VStr session) role
                   content t) Hlater) as (c & rest & Hc & ->).
    exists c. split; [exact Hc|reflexivity].
Qed.

(** A run of the theorem, and a tie: an entry stored with the timestamp
    of the newest stored entry comes after it. *)
Lemma storeConversation_then_recent_witness :
  let w := Samples.world_with_conversations Samples.buried_user_turn in
  map conv_content
    (EpisodicMemory.getRecentConversations 1
       (snd (EpisodicMemory.storeConversation "user" "latest" (VStr "s") (Some 500) w)))
  = ["latest"]
  /\ map conv_content
       (EpisodicMemory.getRecentConversations 1
          (snd (EpisodicMemory.storeConversation "user" "tie" (VStr "s") (Some 21) w)))
     = ["Session summary: none"].
Proof.
  intro w. split; [|vm_compute; reflexivity].
  destruct (storeConversation_then_recent w "user" "latest" "s" 500) as [Hnewest _].
  - discriminate.
  - discriminate.
  - rewrite Hnewest; [reflexivity|].
    intros c Hc. vm_compute in Hc.
    repeat (destruct Hc as [<-|Hc]; [vm_compute; reflexivity|]). contradiction.
Defined.

(** ** SemanticMemory (rule file): search and lookup by id *)

Lemma matches_spec (query topic : string) (k : Knowledge) :
  SemanticMemory.matches query topic k = true
  <-> (k_content k <> ""
       /\ Js.includes (Js.toLowerCase query) (Js.toLowerCase (k_content k)) = true)
      \/ Js.includes (Js.toLowerCase query) (Js.toLowerCase topic) = true.
Proof.
  unfold SemanticMemory.matches.
  rewrite orb_true_iff, andb_true_iff, negb_true_iff.
  destruct (String.eqb_spec (k_content k) ""); split; intros [[H1 H2]|H]; auto;
    try discriminate; try contradiction.
Qed.

Lemma scan_bucket_sound (query topic : string) (limit : Z) (s : SemanticStore)
  (whole b : list (string * Knowledge)) (results : list Hit) :
  In (topic, whole) s -> (forall x, In x b -> In x whole) ->
  Forall (SemanticOps.sound_hit query s) results ->
  Forall (SemanticOps.sound_hit query s)
    (fst (SemanticMemory.scan_bucket query topic limit b results)).
Proof.
  intros Htopic. revert results.
  induction b as [|[id k] b IH]; intros results Hsub Hres; simpl; [exact Hres|].
  assert (Hsub' : forall x, In x b -> In x whole) by (intros x Hx; apply Hsub; now right).
  destruct (SemanticMemory.matches query topic k) eqn:Hm; [|now apply IH].
  assert (Hres' : Forall (SemanticOps.sound_hit query s) (results ++ [HitKnowledge k topic])).
  { apply Forall_app. split; [exact Hres|]. constructor; [|constructor].
    exists topic, whole, id, k. split; [reflexivity|]. split; [exact Htopic|].
    split; [apply Hsub; now left|]. now apply matches_spec. }
  destruct (limit <=? Js.len (results ++ [HitKnowledge k topic])); [exact Hres'|].
  now apply IH.
Qed.

Lemma scan_topics_sound (query : string) (limit : Z) (s topics : SemanticStore)
  (results : list Hit) :
  (forall x, In x topics -> In x s) ->
  Forall (SemanticOps.sound_hit query s) results ->
  Forall (SemanticOps.sound_hit query s)
    (SemanticMemory.scan_topics query limit topics results).
Proof.
  revert results. induction topics as [|[topic b] topics IH]; intros results Hsub Hres;
    simpl; [exact Hres|].
  pose proof (scan_bucket_sound query topic limit s b (Js.entries b) results
                (Hsub _ (or_introl eq_refl)) (entries_In b) Hres) as Hb.
  destruct (SemanticMemory.scan_bucket query topic limit (Js.entries b) results)
    as [results' stopped]. simpl in Hb.
  destruct (limit <=? Js.len results'); [exact Hb|].
  apply IH; [|exact Hb]. intros x Hx. apply Hsub. now right.
Qed.

Lemma scan_bucket_grows (query topic : string) (limit : Z)
  (b : list (string * Knowledge)) (results : list Hit) :
  Js.len results <= Js.len (fst (SemanticMemory.scan_bucket query topic limit b results))
  /\ (Js.len results < limit \/ Js.len results = 0 ->
      Js.len (fst (SemanticMemory.scan_bucket query topic limit b results))
      <= Z.max limit 1).
Proof.
  revert results. induction b as [|[id k] b IH]; intros results; simpl.
  - split; [lia|]. intros [H|H]; lia.
  - destruct (SemanticMemory.matches query topic k); [|apply IH].
    pose proof (len_app results [HitKnowledge k topic]) as Hlen.
    change (Js.len [HitKnowledge k topic]) with 1 in Hlen.
    destruct (Z.leb_spec limit (Js.len (results ++ [HitKnowledge k topic])))
      as [Hfull|Hroom]; simpl.
    + split; [lia|]. intros [H|H]; lia.
    + destruct (IH (results ++ [HitKnowledge k topic])) as [Hge Hle].
      split; [lia|]. intros _. apply Hle. left. exact Hroom.
Qed.

Lemma scan_topics_cap (query : string) (limit : Z) (topics : SemanticStore)
  (results : list Hit) :
  Js.len results < limit \/ Js.len results = 0 ->
  Js.len (SemanticMemory.scan_topics query limit topics results) <= Z.max limit 1.
Proof.
  revert results. induction topics as [|[topic b] topics IH]; intros results Hstart;
    simpl.
  - destruct Hstart; lia.
  - destruct (scan_bucket_grows query topic limit (Js.entries b) results) as [Hge Hle].
    destruct (SemanticMemory.scan_bucket query topic limit (Js.entries b) results)
      as [results' stopped]. simpl in *.
    destruct (Z.leb_spec limit (Js.len results')) as [Hfull|Hroom]; [now apply Hle|].
    apply IH. now left.
Qed.

(** [searchKnowledge(query, limit)] of the rule file returns stored
    entries only, each tagged with its topic and such that its content or
    its topic contains the query without regard to case; it returns at
    most [limit] hits for a limit of at least 1 (10 by default), and at
    most one hit for a limit of 0 or below. *)
Theorem searchKnowledge_sound_bounded :
  forall (w : World) (query : string) (limit : option Z),
    let n := match limit with Some n => n | None => 10 end in
    let hits := SemanticMemory.searchKnowledge query limit w in
    Forall (SemanticOps.sound_hit query (semantic w)) hits
    /\ (1 <= n -> Js.len hits <= n)
    /\ (n <= 0 -> Js.len hits <= 1).
Proof.
  intros w query limit n hits. subst hits. unfold SemanticMemory.searchKnowledge.
  fold n. split.
  - apply scan_topics_sound; [apply entries_In|constructor].
  - pose proof (scan_topics_cap query n (Js.entries (semantic w)) []
                  (or_intror eq_refl)) as Hcap.
    split; intro Hn; lia.
Qed.

Lemma entries_complete {V : Type} (o : list (string * V)) (x : string * V) :
  In x o -> In x (Js.entries o).
Proof.
  intro H. unfold Js.entries. apply in_or_app.
  destruct (Js.is_index_key x) eqn:E.
  - left. apply sort_In. apply filter_In. now split.
  - right. apply filter_In. split; [exact H|]. now rewrite E.
Qed.

Lemma obj_get_In {V : Type} (k : string) (v : V) (o : list (string * V)) :
  Js.obj_get k o = Some v -> exists k', In (k', v) o.
Proof.
  induction o as [|[k' v'] o IH]; simpl; [discriminate|].
  destruct (String.eqb k k').
  - intros [= <-]. exists k'. now left.
  - intro H. destruct (IH H) as [k'' Hin]. exists k''. now right.
Qed.

Lemma obj_set_In {V : Type} (k : string) (v : V) (o : list (string * V))
  (x : string * V) :
  In x (Js.obj_set k v o) -> snd x = v \/ In x o.
Proof.
  induction o as [|[k' v'] o IH]; simpl.
  - intros [<-|[]]. now left.
  - destruct (String.eqb k k'); simpl.
    + intros [<-|H]; [now left|right; now right].
    + intros [<-|H]; [right; now left|].
      destruct (IH H) as [Hv|Hin]; [now left|right; now right].
Qed.

Lemma first_with_id_found (id : string) (topics : SemanticStore)
  (b : list (string * Knowledge)) (k : Knowledge) (topic : string) :
  In (topic, b) topics -> Js.obj_get id b = Some k ->
  exists k', SemanticOps.first_with_id id topics = Some k'.
Proof.
  induction topics as [|[t b'] topics IH]; simpl; [contradiction|].
  intros [[= -> ->]|Hin] Hget.
  - rewrite Hget. now exists k.
  - destruct (Js.obj_get id b') as [k0|]; [now exists k0|now apply IH].
Qed.

Lemma first_with_id_only (id : string) (topics : SemanticStore) (k k' : Knowledge) :
  (forall topic b, In (topic, b) topics ->
     Js.obj_get id b = None \/ Js.obj_get id b = Some k) ->
  SemanticOps.first_with_id id topics = Some k' -> k' = k.
Proof.
  induction topics as [|[t b] topics IH]; simpl; intros Hall Hfound; [discriminate|].
  destruct (Hall t b (or_introl eq_refl)) as [Hnone|Hsome].
  - rewrite Hnone in Hfound. apply IH; [|exact Hfound].
    intros topic b' Hin. apply (Hall topic b'). now right.
  - rewrite Hsome in Hfound. now injection Hfound as <-.
Qed.

(** Where [storeKnowledge] writes: the bucket of the topic in a store that
    is the given one, with an empty bucket added when the topic is new. *)
Lemma storeKnowledge_layout (topic : string) (k : Knowledge) (w : World) :
  exists (id : string) (ts : Z) (w2 : World),
    SemanticMemory.storeKnowledge topic k w
    = (id,
       set_semantic
         (Js.obj_set topic
            (Js.obj_set id
               (mkKnowledge (Some id) (k_category k) (k_content k)
                  (k_importance k) (k_source k) (Some ts))
               (SemanticMemory.bucket topic w2))
            (semantic w2)) w2)
    /\ semantic w2
       = match Js.obj_get topic (semantic w) with
         | Some _ => semantic w
         | None => Js.obj_set topic [] (semantic w)
         end.
Proof.
  unfold SemanticMemory.storeKnowledge.
  set (w0 := match Js.obj_get topic (semantic w) with
             | Some _ => w
             | None => set_semantic (Js.obj_set topic [] (semantic w)) w
             end).
  assert (H0 : semantic w0
               = match Js.obj_get topic (semantic w) with
                 | Some _ => semantic w
                 | None => Js.obj_set topic [] (semantic w)
                 end).
  { subst w0. now destruct (Js.obj_get topic (semantic w)). }
  set (minted := let (t, w') := Date_now w0 in
                 let (r, w'') := Math_random_10000 w' in
                 ("sm_" ^^ Js.show_int t ^^ "_" ^^ Js.show_int r, w'')).
  assert (Hm : semantic (snd minted) = semantic w0) by reflexivity.
  set (chosen := match k_id k with
                 | Some i => if String.eqb i EmptyString then minted else (i, w0)
                 | None => minted
                 end).
  assert (H1 : semantic (snd chosen) = semantic w0).
  { subst chosen. destruct (k_id k) as [i|]; [destruct (String.eqb i EmptyString)|];
      simpl; rewrite ?Hm; reflexivity. }
  destruct chosen as [id w1]. simpl in H1.
  set (timed := match k_timestamp k with
                | Some t => if t =? 0 then Date_now w1 else (t, w1)
                | None => Date_now w1
                end).
  assert (H2 : semantic (snd timed) = semantic w0).
  { subst timed. destruct (k_timestamp k) as [t|]; [destruct (t =? 0)|]; simpl;
      exact H1. }
  destruct timed as [ts w2]. simpl in H2.
  exists id, ts, w2. split; [reflexivity|]. now rewrite H2.
Qed.

(** What [storeKnowledge] files can be looked up by its id, for a topic
    and a given id that do not name a member of [Object.prototype]:
    after [storeKnowledge(topic, knowledge)] returned [id], the bucket of
    the topic holds the entry under [id], and [getKnowledgeById(id)]
    finds an entry; when no bucket used [id] before, it is the stored
    entry, with the category, content, importance and source given. *)
Theorem storeKnowledge_getKnowledgeById :
  forall (w : World) (topic : string) (k : Knowledge),
    Js.inherited_name topic = false ->
    (forall id, k_id k = Some id -> Js.inherited_name id = false) ->
    let result := SemanticMemory.storeKnowledge topic k w in
    exists stored,
      Js.obj_get (fst result) (SemanticMemory.bucket topic (snd result)) = Some stored
      /\ k_id stored = Some (fst result)
      /\ k_category stored = k_category k /\ k_content stored = k_content k
      /\ k_importance stored = k_importance k /\ k_source stored = k_source k
      /\ (exists found, SemanticOps.getKnowledgeById (fst result) (snd result) = Some found)
      /\ ((forall t b, In (t, b) (semantic w) -> Js.obj_get (fst result) b = None) ->
          SemanticOps.getKnowledgeById (fst result) (snd result) = Some stored).
Proof.
  intros w topic k _ _ result. subst result.
  destruct (storeKnowledge_layout topic k w) as (id & ts & w2 & -> & Hsem).
  cbn [fst snd].
  set (stored := mkKnowledge (Some id) (k_category k) (k_content k)
                   (k_importance k) (k_source k) (Some ts)).
  set (b' := Js.obj_set id stored (SemanticMemory.bucket topic w2)).
  exists stored.
  assert (Hbucket : SemanticMemory.bucket topic
                      (set_semantic (Js.obj_set topic b' (semantic w2)) w2) = b')
    by apply bucket_set.
  assert (Hget : Js.obj_get id b' = Some stored) by apply obj_get_set_same.
  assert (Hin : exists t, In (t, b') (Js.entries (Js.obj_set topic b' (semantic w2)))).
  { destruct (obj_get_In topic b' (Js.obj_set topic b' (semantic w2))
                (obj_get_set_same _ _ _)) as [t Ht].
    exists t. now apply entries_complete. }
  destruct Hin as [t Hin].
  destruct (first_with_id_found id _ b' stored t Hin Hget) as [found Hfound].
  rewrite Hbucket. split; [exact Hget|]. repeat split; try reflexivity.
  - now exists found.
  - intro Hfresh. unfold SemanticOps.getKnowledgeById. cbn [semantic set_semantic].
    unfold SemanticOps.getKnowledgeById in Hfound. cbn [semantic set_semantic] in Hfound.
    rewrite Hfound. f_equal.
    apply (first_with_id_only id (Js.entries (Js.obj_set topic b' (semantic w2)))
             stored found); [|exact Hfound].
    intros t' b Hb. apply entries_In in Hb. apply obj_set_In in Hb as [Hb|Hb].
    + simpl in Hb. subst b. now right.
    + left. rewrite Hsem in Hb.
      destruct (Js.obj_get topic (semantic w)).
      * now apply (Hfresh t').
      * apply obj_set_In in Hb as [Hb|Hb]; [simpl in Hb; now subst b|].
        now apply (Hfresh t').
Qed.

(** A run of the theorem: an entry filed under ["notes"] with a minted
    id is found again by that id. *)
Lemma storeKnowledge_getKnowledgeById_witness :
  let k := mkKnowledge None "design" "lru cache" "high" "conversation" None in
  let result := SemanticMemory.storeKnowledge "notes" k (Samples.world_with []) in
  fst result = "sm_1000_7"
  /\ option_map k_content (SemanticOps.getKnowledgeById "sm_1000_7" (snd result))
     = Some "lru cache".
Proof.
  intros k result. split; [vm_compute; reflexivity|].
  destruct (storeKnowledge_getKnowledgeById (Samples.world_with []) "notes" k)
    as (stored & _ & _ & _ & Hcontent & _ & _ & _ & Hfound).
  - reflexivity.
  - discriminate.
  - fold result in Hfound.
    change (fst result) with "sm_1000_7" in Hfound.
    rewrite Hfound by (intros t b []). cbn [option_map]. now rewrite Hcontent.
Defined.

(** ** MemoryDB.shortTerm: storing and reading a key *)

Section ShortTermDbFacts.

Context {J : Type}.
Variable JSON_parse : string -> option J.
Variable truthy_json : J -> bool.

Lemma find_none_existsb {A : Type} (p : A -> bool) (l : list A) :
  find p l = None <-> existsb p l = false.
Proof.
  induction l as [|x l IH]; simpl; [tauto|].
  destruct (p x); simpl; [split; discriminate|exact IH].
Qed.

Lemma stm_get_missing (key : string) (d : StmDb) :
  existsb (MemoryDBShortTerm.has_key key) (short_term_memory d) = false ->
  MemoryDBShortTerm.get JSON_parse key d = (None, d).
Proof.
  intro H. unfold MemoryDBShortTerm.get.
  apply find_none_existsb in H. now rewrite H.
Qed.

Lemma filter_negb_all {A : Type} (p : A -> bool) (l : list A) :
  existsb p (filter (fun x => negb (p x)) l) = false.
Proof.
  induction l as [|x l IH]; simpl; [reflexivity|].
  destruct (p x) eqn:E; simpl; [exact IH|]. now rewrite E.
Qed.

(** Storing under a key that the table does not hold inserts one row and
    answers [true]; an expiry time of 0 counts as none.  A later [get]
    returns the value, parsed when the text is JSON and as text
    otherwise, as long as the clock has not passed the expiry time; once
    it has, [get] answers [null] and deletes the row. *)
Theorem shortTerm_store_then_get :
  forall (d : StmDb) (key valueStr : string) (options : StmOptions),
    existsb (MemoryDBShortTerm.has_key key) (short_term_memory d) = false ->
    let stored := MemoryDBShortTerm.store JSON_parse truthy_json key valueStr options d in
    let read := MemoryDBShortTerm.get JSON_parse key (snd stored) in
    let read_at := clock (stm_host d) (S (ticks (stm_host d))) in
    fst stored = true
    /\ Js.len (short_term_memory (snd stored)) = Js.len (short_term_memory d) + 1
    /\ ((forall e, sto_expiryTime options = Some e -> e = 0 \/ read_at <= e) ->
        fst read = Some (MemoryDBShortTerm.decode JSON_parse valueStr))
    /\ (forall e, sto_expiryTime options = Some e -> e <> 0 -> e < read_at ->
          fst read = None
          /\ short_term_memory (snd read) = short_term_memory d).
Proof.
  intros d key valueStr options Hfresh stored read read_at.
  assert (Hfind : find (MemoryDBShortTerm.has_key key) (short_term_memory d) = None)
    by now apply find_none_existsb.
  remember (match sto_expiryTime options with
            | Some e => if e =? 0 then None else Some e
            | None => None
            end) as expiryTime eqn:Hexpiry.
  set (t := clock (stm_host d) (ticks (stm_host d))).
  set (row := mkStmRow key valueStr t expiryTime (sto_metadata options)).
  set (h1 := mkHost (clock (stm_host d)) (rnd (stm_host d)) (S (ticks (stm_host d)))
               (draws (stm_host d))).
  assert (Hstored : stored = (true, mkStmDb h1 (short_term_memory d ++ [row]))).
  { subst stored. unfold MemoryDBShortTerm.store.
    rewrite (stm_get_missing key d Hfresh).
    unfold MemoryDBShortTerm.now, host_now. cbn [fst snd stm_host short_term_memory].
    cbn [MemoryDBShortTerm.truthy_value]. cbv iota. rewrite Hfresh, <- Hexpiry.
    reflexivity. }
  assert (Hrow : find (MemoryDBShortTerm.has_key key) (short_term_memory d ++ [row])
                 = Some row).
  { apply find_app_none; [exact Hfind|]. unfold MemoryDBShortTerm.has_key. simpl.
    apply String.eqb_refl. }
  subst read. rewrite Hstored. cbn [fst snd].
  split; [reflexivity|]. split; [apply len_app|].
  unfold MemoryDBShortTerm.get. cbn [short_term_memory]. rewrite Hrow.
  replace (stm_expiry_time row) with expiryTime by reflexivity.
  replace (stm_value row) with valueStr by reflexivity.
  assert (Hnow : MemoryDBShortTerm.now (mkStmDb h1 (short_term_memory d ++ [row]))
                 = (read_at, mkStmDb (mkHost (clock (stm_host d)) (rnd (stm_host d))
                                        (S (S (ticks (stm_host d)))) (draws (stm_host d)))
                               (short_term_memory d ++ [row])))
    by reflexivity.
  split.
  - intro Hlive.
    destruct (sto_expiryTime options) as [e|]; [|now subst expiryTime].
    destruct (Z.eqb_spec e 0) as [Hz|Hne]; [now subst expiryTime|].
    subst expiryTime. apply Z.eqb_neq in Hne as Hz. rewrite Hz, Hnow.
    destruct (Hlive e eq_refl) as [|Hle]; [contradiction|].
    destruct (Z.ltb_spec e read_at); [lia|]. reflexivity.
  - intros e He Hne Hpast. rewrite He in Hexpiry.
    apply Z.eqb_neq in Hne as Hz. rewrite Hz in Hexpiry. subst expiryTime.
    rewrite Hz, Hnow.
    destruct (Z.ltb_spec e read_at); [|lia].
    split; [reflexivity|].
    unfold MemoryDBShortTerm.remove, MemoryDBShortTerm.set_rows.
    cbn [snd short_term_memory]. rewrite filter_app.
    assert (Hself : MemoryDBShortTerm.has_key key row = true).
    { unfold MemoryDBShortTerm.has_key. simpl. apply String.eqb_refl. }
    simpl. rewrite Hself. simpl. rewrite app_nil_r.
    clear - Hfresh. induction (short_term_memory d) as [|r l IH]; [reflexivity|].
    simpl in *. apply orb_false_iff in Hfresh as [Hr Hl].
    rewrite Hr. simpl. now rewrite IH.
Qed.

Lemma stm_get_live (key : string) (d : StmDb) (row : StmRow) :
  find (MemoryDBShortTerm.has_key key) (short_term_memory d) = Some row ->
  (forall e, stm_expiry_time row = Some e ->
             e = 0 \/ clock (stm_host d) (ticks (stm_host d)) <= e) ->
  exists h t,
    MemoryDBShortTerm.get JSON_parse key d
    = (Some (MemoryDBShortTerm.decode JSON_parse (stm_value row)),
       mkStmDb h
         (map (fun r => if MemoryDBShortTerm.has_key key r
                        then mkStmRow (stm_key r) (stm_value r) t
                               (stm_expiry_time r) (stm_metadata r)
                        else r) (short_term_memory d)))
    /\ clock h = clock (stm_host d).
Proof.
  intros Hfind Hlive. unfold MemoryDBShortTerm.get. rewrite Hfind.
  destruct (stm_expiry_time row) as [e|].
  - destruct (Z.eqb_spec e 0) as [Hz|Hne].
    + do 2 eexists. split; reflexivity.
    + destruct (Hlive e eq_refl) as [|Hle]; [contradiction|].
      unfold MemoryDBShortTerm.now at 1, host_now.
      destruct (Z.ltb_spec e (clock (stm_host d) (ticks (stm_host d)))); [lia|].
      do 2 eexists. split; reflexivity.
  - do 2 eexists. split; reflexivity.
Qed.

Lemma existsb_map_key (key : string) (f : StmRow -> StmRow) (rows : list StmRow) :
  (forall r, stm_key (f r) = stm_key r) ->
  existsb (MemoryDBShortTerm.has_key key) (map f rows)
  = existsb (MemoryDBShortTerm.has_key key) rows.
Proof.
  intro Hf. induction rows as [|r rows IH]; simpl; [reflexivity|].
  unfold MemoryDBShortTerm.has_key at 1. rewrite Hf.
  fold (MemoryDBShortTerm.has_key key r). now rewrite IH.
Qed.

(** A key whose stored value reads as falsy (the texts [0], [false],
    [null], an empty text, ...) cannot be overwritten: [store] takes the
    row for missing, its [INSERT] meets the primary key, and it answers
    [false]; every row keeps its key, value, expiry time and metadata. *)
Theorem shortTerm_falsy_value_is_stuck :
  forall (d : StmDb) (key valueStr : string) (options : StmOptions) (row : StmRow),
    find (MemoryDBShortTerm.has_key key) (short_term_memory d) = Some row ->
    (forall e, stm_expiry_time row = Some e ->
               e = 0 \/ clock (stm_host d) (ticks (stm_host d)) <= e) ->
    MemoryDBShortTerm.truthy_value truthy_json
      (Some (MemoryDBShortTerm.decode JSON_parse (stm_value row))) = false ->
    let result := MemoryDBShortTerm.store JSON_parse truthy_json key valueStr options d in
    fst result = false
    /\ map (fun r => (stm_key r, stm_value r, stm_expiry_time r, stm_metadata r))
         (short_term_memory (snd result))
       = map (fun r => (stm_key r, stm_value r, stm_expiry_time r, stm_metadata r))
           (short_term_memory d).
Proof.
  intros d key valueStr options row Hfind Hlive Hfalsy result. subst result.
  unfold MemoryDBShortTerm.store.
  destruct (stm_get_live key d row Hfind Hlive) as (h & t & -> & _).
  unfold MemoryDBShortTerm.now, host_now. cbn [stm_host short_term_memory].
  rewrite Hfalsy.
  rewrite existsb_map_key
    by (intro r; now destruct (MemoryDBShortTerm.has_key key r)).
  assert (Hpresent : existsb (MemoryDBShortTerm.has_key key) (short_term_memory d) = true).
  { destruct (existsb _ _) eqn:E; [reflexivity|].
    apply find_none_existsb in E. congruence. }
  rewrite Hpresent. cbn [fst snd short_term_memory]. split; [reflexivity|].
  rewrite map_map. apply map_ext. intro r.
  now destruct (MemoryDBShortTerm.has_key key r).
Qed.

(** A key whose stored value reads as truthy is overwritten in place:
    [store] answers [true], the row takes the new text, expiry time and
    metadata, no row is added and the rows of other keys are left alone
    (the key being unique, as the primary key makes it). *)
Theorem shortTerm_store_overwrites :
  forall (d : StmDb) (key valueStr : string) (options : StmOptions) (row : StmRow),
    find (MemoryDBShortTerm.has_key key) (short_term_memory d) = Some row ->
    (forall e, stm_expiry_time row = Some e ->
               e = 0 \/ clock (stm_host d) (ticks (stm_host d)) <= e) ->
    MemoryDBShortTerm.truthy_value truthy_json
      (Some (MemoryDBShortTerm.decode JSON_parse (stm_value row))) = true ->
    let result := MemoryDBShortTerm.store JSON_parse truthy_json key valueStr options d in
    fst result = true
    /\ map stm_key (short_term_memory (snd result)) = map stm_key (short_term_memory d)
    /\ (exists row',
          find (MemoryDBShortTerm.has_key key) (short_term_memory (snd result)) = Some row'
          /\ stm_value row' = valueStr
          /\ stm_metadata row' = sto_metadata options
          /\ stm_expiry_time row'
             = match sto_expiryTime options with
               | Some e => if e =? 0 then None else Some e
               | None => None
               end)
    /\ (forall r, In r (short_term_memory d) -> stm_key r <> key ->
          In r (short_term_memory (snd result))).
Proof.
  intros d key valueStr options row Hfind Hlive Htruthy result. subst result.
  unfold MemoryDBShortTerm.store.
  destruct (stm_get_live key d row Hfind Hlive) as (h & t & -> & _).
  unfold MemoryDBShortTerm.now, host_now. cbn [stm_host short_term_memory].
  rewrite Htruthy. cbn [fst snd short_term_memory MemoryDBShortTerm.set_rows].
  set (touch := fun r : StmRow =>
                  if MemoryDBShortTerm.has_key key r
                  then mkStmRow (stm_key r) (stm_value r) t (stm_expiry_time r)
                         (stm_metadata r)
                  else r).
  set (expiryTime := match sto_expiryTime options with
                     | Some e => if e =? 0 then None else Some e
                     | None => None
                     end).
  set (write := fun r : StmRow =>
                  if MemoryDBShortTerm.has_key key r
                  then mkStmRow (stm_key r) valueStr (clock h (ticks h)) expiryTime
                         (sto_metadata options)
                  else r).
  assert (Htouch : forall r, stm_key (touch r) = stm_key r).
  { intro r. subst touch. cbv beta. now destruct (MemoryDBShortTerm.has_key key r). }
  assert (Hwrite : forall r, stm_key (write r) = stm_key r).
  { intro r. subst write. cbv beta. now destruct (MemoryDBShortTerm.has_key key r). }
  split; [reflexivity|]. split; [|split].
  - rewrite !map_map. apply map_ext. intro r. now rewrite Hwrite, Htouch.
  - exists (write (touch row)).
    rewrite (find_map_preserving _ write)
      by (intro r; unfold MemoryDBShortTerm.has_key; now rewrite Hwrite).
    rewrite (find_map_preserving _ touch)
      by (intro r; unfold MemoryDBShortTerm.has_key; now rewrite Htouch).
    rewrite Hfind. split; [reflexivity|].
    destruct (find_some _ _ Hfind) as [_ Hrow].
    assert (Hkeyed : MemoryDBShortTerm.has_key key (touch row) = true).
    { unfold MemoryDBShortTerm.has_key. now rewrite Htouch. }
    subst write. cbv beta. rewrite Hkeyed. repeat split; reflexivity.
  - intros r Hr Hne. apply in_map_iff. exists (touch r).
    assert (Hk : MemoryDBShortTerm.has_key key r = false).
    { unfold MemoryDBShortTerm.has_key. now apply String.eqb_neq. }
    assert (Hsame : touch r = r) by (subst touch; cbv beta; now rewrite Hk).
    split; [|apply in_map_iff; now exists r].
    rewrite Hsame. subst write. cbv beta. now rewrite Hk.
Qed.

End ShortTermDbFacts.

(** Runs of the three theorems with integers as values: the numeral of
    an integer is parsed back to it, and 0 is falsy. *)
Lemma shortTerm_store_then_get_witness :
  let parse := fun s => if Js.all_digits s && negb (String.eqb s "")
                        then Some (Js.digits_value 0 s) else None in
  let truthy := fun n => negb (n =? 0) in
  let d := mkStmDb Samples.host0 [] in
  let stored := MemoryDBShortTerm.store parse truthy "count" "7"
                  (mkStmOptions None None) d in
  fst stored = true
  /\ fst (MemoryDBShortTerm.get parse "count" (snd stored)) = Some (Parsed 7).
Proof.
  intros parse truthy d stored.
  destruct (shortTerm_store_then_get parse truthy d "count" "7"
              (mkStmOptions None None) eq_refl)
    as (Hstored & _ & Hread & _).
  split; [exact Hstored|]. apply Hread. discriminate.
Defined.

Lemma shortTerm_falsy_value_is_stuck_witness :
  let parse := fun s => if Js.all_digits s && negb (String.eqb s "")
                        then Some (Js.digits_value 0 s) else None in
  let truthy := fun n => negb (n =? 0) in
  let d := snd (MemoryDBShortTerm.store parse truthy "count" "0"
                  (mkStmOptions None None) (mkStmDb Samples.host0 [])) in
  let again := MemoryDBShortTerm.store parse truthy "count" "1"
                 (mkStmOptions None None) d in
  fst again = false
  /\ map stm_value (short_term_memory (snd again)) = ["0"].
Proof.
  intros parse truthy d again.
  destruct (shortTerm_falsy_value_is_stuck parse truthy d "count" "1"
              (mkStmOptions None None) (mkStmRow "count" "0" 1000 None None))
    as (Hret & _).
  - reflexivity.
  - discriminate.
  - reflexivity.
  - split; [exact Hret|]. vm_compute. reflexivity.
Defined.

Lemma shortTerm_store_overwrites_witness :
  let parse := fun s => if Js.all_digits s && negb (String.eqb s "")
                        then Some (Js.digits_value 0 s) else None in
  let truthy := fun n => negb (n =? 0) in
  let d := snd (MemoryDBShortTerm.store parse truthy "count" "7"
                  (mkStmOptions None None) (mkStmDb Samples.host0 [])) in
  let again := MemoryDBShortTerm.store parse truthy "count" "8"
                 (mkStmOptions None None) d in
  fst again = true
  /\ map stm_key (short_term_memory (snd again)) = ["count"].
Proof.
  intros parse truthy d again.
  destruct (shortTerm_store_overwrites parse truthy d "count" "8"
              (mkStmOptions None None) (mkStmRow "count" "7" 1000 None None))
    as (Hret & Hkeys & _).
  - reflexivity.
  - discriminate.
  - reflexivity.
  - split; [exact Hret|]. etransitivity; [exact Hkeys|reflexivity].
Defined.

(** ** MemoryDB.semantic: the category filter of [search] *)

Lemma limit_all {A : Type} (n : Z) (l : list A) :
  n < 0 \/ Js.len l <= n -> Sql.limit n l = l.
Proof.
  intro H. unfold Sql.limit. destruct (Z.ltb_spec n 0); [reflexivity|].
  destruct H as [H|H]; [lia|]. apply firstn_all2. unfold Js.len in H. lia.
Qed.

(** The category filter of [search] is joined with [AND] to the content
    test only: a returned row has the query in its topic, or has it in
    its content and is of the asked category.  So a row whose topic
    contains the query is returned whatever its category, as long as the
    limit is not exhausted. *)
Theorem search_category_spares_topic_matches :
  forall (w : World) (query category : string) (limit : option Z),
    Sql.plain query = true -> category <> "" ->
    let options := mkSearchOptions (Some category) limit in
    let rows := fst (MemoryDB.search query options w) in
    let table := semantic_knowledge (database w) in
    let in_topic := fun r => Js.includes (Js.toLowerCase query) (Js.toLowerCase (kr_topic r)) in
    let in_content := fun r => Js.includes (Js.toLowerCase query)
                                 (Js.toLowerCase (kr_content r)) in
    (forall r, In r rows ->
       In r table
       /\ (in_topic r = true \/ (in_content r = true /\ kr_category r = category)))
    /\ (forall r, In r table -> in_topic r = true ->
          Js.len (filter (MemoryDB.search_where query (Some category)) table)
          <= MemoryDB.search_limit options ->
          In r rows).
Proof.
  intros w query category limit Hplain Hcat options rows table in_topic in_content.
  subst rows. rewrite search_rows_of. unfold MemoryDB.search_rows. fold table.
  assert (Hwhere : forall r,
            MemoryDB.search_where query (Some category) r
            = in_topic r || (in_content r && String.eqb (kr_category r) category)).
  { intro r. unfold MemoryDB.search_where. cbn [truthy_string].
    destruct (String.eqb_spec category ""); [contradiction|].
    now rewrite !like_plain_includes by exact Hplain. }
  split.
  - intros r Hr. apply limit_In, sort_In, filter_In in Hr as [Hin Hr].
    split; [exact Hin|]. rewrite Hwhere in Hr.
    apply orb_true_iff in Hr as [Hr|Hr]; [now left|right].
    apply andb_true_iff in Hr as [Hc Heq]. split; [exact Hc|now apply String.eqb_eq].
  - intros r Hin Htopic Hroom.
    rewrite limit_all.
    + apply sort_In. apply filter_In. split; [exact Hin|].
      rewrite Hwhere, Htopic. reflexivity.
    + right. unfold Js.len. rewrite sort_length. exact Hroom.
Qed.

(** A run of the theorem: a node of category ["notes"] is returned by a
    search restricted to the category ["other"], its topic matching. *)
Lemma search_category_spares_topic_matches_witness :
  In (Samples.node "n1" "cache design" "lru cache" (9 # 10) 10)
    (fst (MemoryDB.search "design" (mkSearchOptions (Some "other") None)
            Samples.linked_world)).
Proof.
  destruct (search_category_spares_topic_matches Samples.linked_world "design" "other"
              None eq_refl)
    as (_ & Hin).
  - discriminate.
  - apply Hin.
    + left. reflexivity.
    + reflexivity.
    + vm_compute. discriminate.
Defined.

(** ** MemoryDB.semantic: relationships in both directions *)

Lemma getRelationships_rows (nodeId : string) (q : RelationshipQuery) (w : World)
  (r : RelationshipRow) :
  (exists v, In v (MemoryDB.getRelationships nodeId q w) /\ rv_row v = r)
  <-> exists v, In v (MemoryDB.relationship_views nodeId q
                        (semantic_knowledge (database w))
                        (knowledge_relationships (database w)))
                /\ rv_row v = r.
Proof.
  unfold MemoryDB.getRelationships.
  split; intros (v & Hv & Hr); exists v; split; try exact Hr.
  - now apply sort_In in Hv.
  - now apply sort_In.
Qed.

(** With the default direction (both) and a type filter,
    [getRelationships] applies the filter to the incoming relationships
    only: a stored relationship is listed exactly when the node is its
    source (whatever its type), or the node is its target and the type
    is the asked one. *)
Theorem getRelationships_type_filter_incoming_only :
  forall (w : World) (nodeId relationshipType : string) (r : RelationshipRow),
    relationshipType <> "" ->
    let q := mkRelationshipQuery BothDirections (Some relationshipType) in
    (exists v, In v (MemoryDB.getRelationships nodeId q w) /\ rv_row v = r)
    <-> In r (knowledge_relationships (database w))
        /\ (rel_source_id r = nodeId
            \/ (rel_target_id r = nodeId /\ rel_type r = relationshipType)).
Proof.
  intros w nodeId ty r Hty q. rewrite getRelationships_rows.
  unfold MemoryDB.relationship_views. subst q. cbn [rq_direction rq_type].
  assert (Hfilter : forall x, MemoryDB.type_filter (Some ty) x = String.eqb (rel_type x) ty).
  { intro x. unfold MemoryDB.type_filter. cbn [truthy_string].
    now destruct (String.eqb_spec ty ""). }
  split.
  - intros (v & Hv & Hr). apply in_flat_map in Hv as (x & Hx & Hv).
    rewrite Hfilter in Hv.
    destruct (String.eqb_spec (rel_source_id x) nodeId) as [Hs|Hs]; simpl in Hv.
    + destruct Hv as [<-|[]]. simpl in Hr. subst x. split; [exact Hx|now left].
    + destruct (String.eqb_spec (rel_target_id x) nodeId) as [Ht|Ht]; simpl in Hv;
        [|contradiction].
      destruct (String.eqb_spec (rel_type x) ty) as [Hy|Hy]; simpl in Hv;
        [|contradiction].
      destruct Hv as [<-|[]]. simpl in Hr. subst x. split; [exact Hx|right; now split].
  - intros (Hin & Hcase).
    eexists. split; [apply in_flat_map; exists r; split; [exact Hin|]|].
    + rewrite Hfilter.
      assert (Hpass : String.eqb (rel_source_id r) nodeId
                      || (String.eqb (rel_target_id r) nodeId && String.eqb (rel_type r) ty)
                      = true).
      { destruct Hcase as [Hs|[Ht Hy]].
        - apply String.eqb_eq in Hs. now rewrite Hs.
        - apply String.eqb_eq in Ht. apply String.eqb_eq in Hy.
          rewrite Ht, Hy. apply orb_true_r. }
      rewrite Hpass. left. reflexivity.
    + reflexivity.
Qed.

(** A run of the theorem: the [depends_on] link from [n1] is listed for
    [n1] under the filter [related_to]. *)
Lemma getRelationships_type_filter_incoming_only_witness :
  exists v,
    In v (MemoryDB.getRelationships "n1"
            (mkRelationshipQuery BothDirections (Some "related_to"))
            Samples.linked_world)
    /\ rel_type (rv_row v) = "depends_on".
Proof.
  destruct (getRelationships_type_filter_incoming_only Samples.linked_world "n1"
              "related_to" (mkRelationshipRow 1 "n1" "n2" "depends_on" 1 5 None))
    as [_ Hback].
  - discriminate.
  - destruct Hback as (v & Hv & Hrow).
    + split; [left; reflexivity|left; reflexivity].
    + exists v. split; [exact Hv|]. now rewrite Hrow.
Defined.

(** ** MemoryDB.semantic: creating a relationship *)

Lemma getRelationship_updateLastAccessed (s t ty j : string) (w : World) :
  MemoryDB.getRelationship s t ty (MemoryDB.updateLastAccessed j w)
  = MemoryDB.getRelationship s t ty w.
Proof. reflexivity. Qed.

(** Between two stored nodes [createRelationship] answers [true] and
    writes the relationship once: a new triple (source, target, type) is
    appended with the next id; for a triple that is already stored the
    rows keep their ids and endpoints and only strength, timestamp and
    metadata are replaced.  A strength of 0 or none is stored as 1.0. *)
Theorem createRelationship_writes_once :
  forall (w : World) (sourceId targetId relationshipType : string)
         (options : RelationshipOptions) (src tgt : KnowledgeRow),
    MemoryDB.node sourceId (semantic_knowledge (database w)) = Some src ->
    MemoryDB.node targetId (semantic_knowledge (database w)) = Some tgt ->
    let result := MemoryDB.createRelationship sourceId targetId relationshipType options w in
    let before := knowledge_relationships (database w) in
    let after := knowledge_relationships (database (snd result)) in
    let strength := match ro_strength options with
                    | Some q => if Qeq_bool q 0 then 1%Q else q
                    | None => 1%Q
                    end in
    fst result = true
    /\ (MemoryDB.getRelationship sourceId targetId relationshipType w = None ->
        exists t,
          after = before
                  ++ [mkRelationshipRow (relationships_seq (database w) + 1) sourceId
                        targetId relationshipType strength t (ro_metadata options)])
    /\ (MemoryDB.getRelationship sourceId targetId relationshipType w <> None ->
        map (fun r => (rel_id r, rel_source_id r, rel_target_id r, rel_type r)) after
        = map (fun r => (rel_id r, rel_source_id r, rel_target_id r, rel_type r)) before)
    /\ (exists row,
          MemoryDB.getRelationship sourceId targetId relationshipType (snd result)
          = Some row
          /\ rel_strength row = strength /\ rel_metadata row = ro_metadata options).
Proof.
  intros w s t ty options src tgt Hsrc Htgt result before after strength.
  subst result after.
  unfold MemoryDB.createRelationship, MemoryDB.getById.
  fold (MemoryDB.node s (semantic_knowledge (database w))). rewrite Hsrc.
  set (w1 := MemoryDB.updateLastAccessed s w).
  fold (MemoryDB.node t (semantic_knowledge (database w1))).
  assert (Htgt1 : exists tgt', MemoryDB.node t (semantic_knowledge (database w1)) = Some tgt').
  { subst w1. unfold MemoryDB.updateLastAccessed. simpl.
    rewrite node_touch, Htgt. simpl. eauto. }
  destruct Htgt1 as [tgt' ->].
  set (w2 := MemoryDB.updateLastAccessed t w1).
  fold strength.
  assert (Hrels : knowledge_relationships (database w2) = before) by reflexivity.
  assert (Hseq : relationships_seq (database w2) = relationships_seq (database w))
    by reflexivity.
  assert (Hget : MemoryDB.getRelationship s t ty w2 = MemoryDB.getRelationship s t ty w)
    by reflexivity.
  rewrite Hget, Hrels, Hseq.
  assert (Hself : forall id tm,
            MemoryDB.same_relationship s t ty
              (mkRelationshipRow id s t ty strength tm (ro_metadata options)) = true).
  { intros. unfold MemoryDB.same_relationship. simpl. now rewrite !String.eqb_refl. }
  unfold MemoryDB.getRelationship. fold before.
  destruct (find (MemoryDB.same_relationship s t ty) before) as [old|] eqn:Hold.
  - unfold Date_now, host_now. cbn [fst snd].
    unfold MemoryDB.set_relationships. cbn [database set_database knowledge_relationships].
    set (update := fun r : RelationshipRow => _).
    split; [reflexivity|]. split; [intro H; discriminate|]. split.
    + intros _. rewrite map_map. apply map_ext. intro r. subst update. cbv beta.
      now destruct (MemoryDB.same_relationship s t ty r).
    + exists (update old).
      assert (Hkeep : forall r, MemoryDB.same_relationship s t ty (update r)
                                = MemoryDB.same_relationship s t ty r).
      { intro r. subst update. cbv beta.
        destruct (MemoryDB.same_relationship s t ty r) eqn:E; [|exact E].
        unfold MemoryDB.same_relationship in *. exact E. }
      rewrite (find_map_preserving _ update before Hkeep), Hold.
      split; [reflexivity|].
      destruct (find_some _ _ Hold) as [_ Hsame].
      subst update. cbv beta. rewrite Hsame. split; reflexivity.
  - unfold Date_now, host_now. cbn [fst snd].
    unfold MemoryDB.set_relationships. cbn [database set_database knowledge_relationships].
    split; [reflexivity|]. split; [intros _; eexists; reflexivity|].
    split; [intro H; contradiction|].
    eexists. split; [apply find_app_none; [exact Hold|apply Hself]|].
    split; reflexivity.
Qed.

(** A run of the theorem: the link of the sample world is created again
    with another strength; one row remains. *)
Lemma createRelationship_writes_once_witness :
  let result := MemoryDB.createRelationship "n1" "n2" "depends_on"
                  (mkRelationshipOptions (Some (1 # 2)) None) Samples.linked_world in
  fst result = true
  /\ map rel_id (knowledge_relationships (database (snd result))) = [1]
  /\ map rel_strength (knowledge_relationships (database (snd result))) = [1 # 2].
Proof.
  intro result.
  destruct (createRelationship_writes_once Samples.linked_world "n1" "n2" "depends_on"
              (mkRelationshipOptions (Some (1 # 2)) None)
              (Samples.node "n1" "cache design" "lru cache" (9 # 10) 10)
              (Samples.node "n2" "cache size" "64 entries" (5 # 10) 30)
              eq_refl eq_refl)
    as (Hret & _).
  split; [exact Hret|]. split; vm_compute; reflexivity.
Defined.

(** ** MemoryDB.semantic: the query log *)

Lemma max_timestamp_below (t : Z) (rows : list QueryRow) (acc : option Z) :
  (forall r, In r rows -> q_timestamp r < t) ->
  (forall a, acc = Some a -> a < t) ->
  forall b,
    fold_left (fun acc r => match acc with
                            | None => Some (q_timestamp r)
                            | Some m => Some (Z.max m (q_timestamp r))
                            end) rows acc = Some b ->
    b < t.
Proof.
  revert acc. induction rows as [|r rows IH]; intros acc Hrows Hacc b; simpl.
  - apply Hacc.
  - apply IH.
    + intros x Hx. apply Hrows. now right.
    + specialize (Hrows r (or_introl eq_refl)).
      destruct acc as [a|]; intros a' [= <-]; [|exact Hrows].
      specialize (Hacc a eq_refl). lia.
Qed.

Lemma max_timestamp_newest (t : Z) (rows : list QueryRow) (new : QueryRow) :
  (forall r, In r rows -> q_timestamp r < t) -> q_timestamp new = t ->
  MemoryDB.max_timestamp (rows ++ [new]) = Some t.
Proof.
  intros Hrows Hnew. unfold MemoryDB.max_timestamp. rewrite fold_left_app. simpl.
  destruct (fold_left _ rows None) as [m|] eqn:E.
  - apply (max_timestamp_below t rows None Hrows) in E; [|discriminate].
    rewrite Hnew. f_equal. lia.
  - now rewrite Hnew.
Qed.

Lemma queries_fold_updateLastAccessed (rows : list KnowledgeRow) (w : World) :
  memory_queries
    (database (fold_left (fun acc row => MemoryDB.updateLastAccessed (kr_id row) acc)
                 rows w))
  = memory_queries (database w).
Proof.
  revert w. induction rows as [|r rows IH]; intro w; simpl; [reflexivity|].
  now rewrite IH.
Qed.

(** Every [search] leaves one row in the query log: memory type
    ["semantic"], the query text, the clock reading at the start, the
    number of rows that the search returned and the time the statement
    took.  (The counts are written to the newest log row of that query;
    the hypothesis says that this is the row just added.) *)
Theorem search_is_logged :
  forall (w : World) (query : string) (options : SearchOptions),
    let t := clock (host w) (ticks (host w)) in
    (forall q, In q (memory_queries (database w)) ->
               MemoryDB.same_query "semantic" query q = true -> q_timestamp q < t) ->
    let result := MemoryDB.search query options w in
    let started := clock (host w) (S (ticks (host w))) in
    let ended := clock (host w) (S (S (ticks (host w)))) in
    memory_queries (database (snd result))
    = memory_queries (database w)
      ++ [mkQueryRow (queries_seq (database w) + 1) "semantic" query t
            (Js.len (fst result)) (ended - started)].
Proof.
  intros w query options t Holder result started ended. subst result.
  unfold MemoryDB.search.
  unfold MemoryDB.logQuery, Date_now, host_now. cbn [fst snd host set_host].
  fold t started ended.
  set (logged := MemoryDB.set_queries _ _ _).
  set (rows := MemoryDB.search_rows query options _).
  cbn [fst snd]. rewrite queries_fold_updateLastAccessed.
  unfold MemoryDB.updateQueryResults.
  cbn [database set_host].
  set (old := memory_queries (database w)).
  set (new := mkQueryRow (queries_seq (database w) + 1) "semantic" query t 0 0).
  assert (Hlogged : memory_queries (database logged) = old ++ [new]) by reflexivity.
  rewrite Hlogged. unfold MemoryDB.set_queries. cbn [database set_database memory_queries].
  assert (Hnew_same : MemoryDB.same_query "semantic" query new = true).
  { unfold MemoryDB.same_query. simpl. now rewrite String.eqb_refl. }
  assert (Hmax : MemoryDB.max_timestamp
                   (filter (MemoryDB.same_query "semantic" query) (old ++ [new]))
                 = Some t).
  { rewrite filter_app. simpl. rewrite Hnew_same.
    apply max_timestamp_newest; [|reflexivity].
    intros r Hr. apply filter_In in Hr as [Hin Hsame]. now apply Holder. }
  rewrite Hmax, map_app. f_equal.
  - rewrite <- (map_id old) at 2. apply map_ext_in. intros r Hr.
    destruct (MemoryDB.same_query "semantic" query r) eqn:Hsame; [|reflexivity].
    specialize (Holder r Hr Hsame).
    destruct (Z.eqb_spec (q_timestamp r) t); [lia|reflexivity].
  - simpl. rewrite Hnew_same, Z.eqb_refl. reflexivity.
Qed.

(** A run of the theorem on an empty log. *)
Lemma search_is_logged_witness :
  map (fun q => (q_query q, q_result_count q))
    (memory_queries
       (database (snd (MemoryDB.search "cache" (mkSearchOptions None None)
                         Samples.linked_world))))
  = [("cache", 3)].
Proof.
  rewrite (search_is_logged Samples.linked_world "cache" (mkSearchOptions None None)).
  - vm_compute. reflexivity.
  - intros q [].
Defined.

(** ** The controller under the rule scripts: one interaction *)

Lemma keeps_contexts_ret {A : Type} (a : A) : ControllerOps.keeps_contexts (ret a).
Proof. intro w. reflexivity. Qed.

Lemma keeps_contexts_bind {A B : Type} (m : Op World A) (k : A -> Op World B) :
  ControllerOps.keeps_contexts m -> (forall a, ControllerOps.keeps_contexts (k a)) ->
  ControllerOps.keeps_contexts (bind m k).
Proof.
  intros Hm Hk w. unfold bind. specialize (Hm w).
  destruct (m w) as [[a|e] w']; simpl in *; [|exact Hm].
  now rewrite (Hk a w').
Qed.

Lemma keeps_contexts_try_catch {A : Type} (m : Op World A) (h : string -> Op World A) :
  ControllerOps.keeps_contexts m -> (forall e, ControllerOps.keeps_contexts (h e)) ->
  ControllerOps.keeps_contexts (try_catch m h).
Proof.
  intros Hm Hh w. unfold try_catch. specialize (Hm w).
  destruct (m w) as [[a|e] w']; simpl in *; [exact Hm|].
  now rewrite (Hh e w').
Qed.

Lemma keeps_contexts_for_each {A : Type} (l : list A) (body : A -> Op World unit) :
  (forall x, ControllerOps.keeps_contexts (body x)) ->
  ControllerOps.keeps_contexts (for_each l body).
Proof.
  intro H. induction l as [|x l IH]; simpl.
  - apply keeps_contexts_ret.
  - apply keeps_contexts_bind; [apply H|intros _; exact IH].
Qed.

Lemma keeps_conversations_ret {A : Type} (a : A) : ControllerOps.keeps_conversations (ret a).
Proof. intro w. reflexivity. Qed.

Lemma keeps_conversations_bind {A B : Type} (m : Op World A) (k : A -> Op World B) :
  ControllerOps.keeps_conversations m ->
  (forall a, ControllerOps.keeps_conversations (k a)) ->
  ControllerOps.keeps_conversations (bind m k).
Proof.
  intros Hm Hk w. unfold bind. specialize (Hm w).
  destruct (m w) as [[a|e] w']; simpl in *; [|exact Hm].
  now rewrite (Hk a w').
Qed.

Lemma keeps_conversations_try_catch {A : Type} (m : Op World A)
  (h : string -> Op World A) :
  ControllerOps.keeps_conversations m ->
  (forall e, ControllerOps.keeps_conversations (h e)) ->
  ControllerOps.keeps_conversations (try_catch m h).
Proof.
  intros Hm Hh w. unfold try_catch. specialize (Hm w).
  destruct (m w) as [[a|e] w']; simpl in *; [exact Hm|].
  now rewrite (Hh e w').
Qed.

Lemma keeps_conversations_for_each {A : Type} (l : list A) (body : A -> Op World unit) :
  (forall x, ControllerOps.keeps_conversations (body x)) ->
  ControllerOps.keeps_conversations (for_each l body).
Proof.
  intro H. induction l as [|x l IH]; simpl.
  - apply keeps_conversations_ret.
  - apply keeps_conversations_bind; [apply H|intros _; exact IH].
Qed.

Lemma storeKnowledge_frame (topic : string) (k : Knowledge) (w : World) :
  short_term (snd (SemanticMemory.storeKnowledge topic k w)) = short_term w
  /\ conversations (snd (SemanticMemory.storeKnowledge topic k w)) = conversations w.
Proof.
  unfold SemanticMemory.storeKnowledge.
  destruct (Js.obj_get topic (semantic w));
    destruct (k_id k) as [i|]; try destruct (String.eqb i EmptyString);
    destruct (k_timestamp k) as [t|]; try destruct (t =? 0);
    split; reflexivity.
Qed.

Lemma storeConversation_appends (role content : string) (session_id : CtxVal)
  (timestamp : option Z) (w : World) :
  exists session ts,
    conversations (snd (EpisodicMemory.storeConversation role content session_id
                          timestamp w))
    = conversations w
      ++ [mkConversation (Js.len (conversations w) + 1) session role content ts]
    /\ short_term (snd (EpisodicMemory.storeConversation role content session_id
                          timestamp w))
       = short_term w.
Proof.
  unfold EpisodicMemory.storeConversation.
  destruct (truthy session_id);
    [|destruct (truthy (ShortTermMemory.getContext "session_id" w))];
    destruct timestamp as [t|]; try destruct (Z.eqb_spec t 0);
    unfold Date_now, host_now; cbv beta iota zeta;
    repeat match goal with
           | |- context [if ?c =? 0 then _ else _] => destruct (c =? 0)
           end;
    do 2 eexists; split; reflexivity.
Qed.

Lemma keeps_contexts_now : ControllerOps.keeps_contexts (MEMORY_CONTROLLER.now Bindings.rules).
Proof. intro w. reflexivity. Qed.

Lemma keeps_conversations_now :
  ControllerOps.keeps_conversations (MEMORY_CONTROLLER.now Bindings.rules).
Proof. intro w. reflexivity. Qed.

Lemma keeps_contexts_getContext (name : string) :
  ControllerOps.keeps_contexts (MEMORY_CONTROLLER.getContext Bindings.rules name).
Proof. intro w. reflexivity. Qed.

Lemma keeps_conversations_getContext (name : string) :
  ControllerOps.keeps_conversations (MEMORY_CONTROLLER.getContext Bindings.rules name).
Proof. intro w. reflexivity. Qed.

Lemma keeps_contexts_session :
  ControllerOps.keeps_contexts (MEMORY_CONTROLLER.session_or_new Bindings.rules).
Proof.
  unfold MEMORY_CONTROLLER.session_or_new.
  apply keeps_contexts_bind; [apply keeps_contexts_getContext|].
  intro sid. destruct (truthy sid); [apply keeps_contexts_ret|].
  apply keeps_contexts_bind; [apply keeps_contexts_now|].
  intros; apply keeps_contexts_ret.
Qed.

Lemma keeps_conversations_session :
  ControllerOps.keeps_conversations (MEMORY_CONTROLLER.session_or_new Bindings.rules).
Proof.
  unfold MEMORY_CONTROLLER.session_or_new.
  apply keeps_conversations_bind; [apply keeps_conversations_getContext|].
  intro sid. destruct (truthy sid); [apply keeps_conversations_ret|].
  apply keeps_conversations_bind; [apply keeps_conversations_now|].
  intros; apply keeps_conversations_ret.
Qed.

Lemma keeps_contexts_storeKnowledge (topic : string) (k : Knowledge) :
  ControllerOps.keeps_contexts
    (Bindings.pure (SemanticMemory.storeKnowledge topic k) VStr).
Proof.
  intro w. unfold Bindings.pure.
  pose proof (storeKnowledge_frame topic k w) as [H _].
  now destruct (SemanticMemory.storeKnowledge topic k w).
Qed.

Lemma keeps_conversations_storeKnowledge (topic : string) (k : Knowledge) :
  ControllerOps.keeps_conversations
    (Bindings.pure (SemanticMemory.storeKnowledge topic k) VStr).
Proof.
  intro w. unfold Bindings.pure.
  pose proof (storeKnowledge_frame topic k w) as [_ H].
  now destruct (SemanticMemory.storeKnowledge topic k w).
Qed.

Lemma keeps_contexts_storeConversation (role content : string) (session : CtxVal)
  (timestamp : option Z) :
  ControllerOps.keeps_contexts
    (Bindings.pure (EpisodicMemory.storeConversation role content session timestamp) VNum).
Proof.
  intro w. unfold Bindings.pure.
  destruct (storeConversation_appends role content session timestamp w)
    as (s & ts & _ & H).
  now destruct (EpisodicMemory.storeConversation role content session timestamp w).
Qed.

Lemma keeps_contexts_consolidateMemory :
  ControllerOps.keeps_contexts (MEMORY_CONTROLLER.consolidateMemory Bindings.rules).
Proof.
  unfold MEMORY_CONTROLLER.consolidateMemory, MEMORY_CONTROLLER.consolidate_steps.
  apply keeps_contexts_try_catch; [|intros; apply keeps_contexts_ret].
  apply keeps_contexts_bind; [apply keeps_contexts_getContext|]. intro wc.
  apply keeps_contexts_bind; [apply keeps_contexts_getContext|]. intro summary.
  apply keeps_contexts_bind; [apply keeps_contexts_session|]. intro sessionId.
  apply keeps_contexts_bind.
  - cbn [ms_storeConversation Bindings.rules].
    destruct (truthy summary); [|apply keeps_contexts_ret].
    apply keeps_contexts_bind; [apply keeps_contexts_now|]. intro t.
    apply keeps_contexts_bind; [|intros; apply keeps_contexts_ret].
    apply keeps_contexts_storeConversation.
  - intros _. apply keeps_contexts_bind; [|intros; apply keeps_contexts_ret].
    cbn [ms_storeKnowledge Bindings.rules].
    destruct (js_or wc (VItems [])); try apply keeps_contexts_ret.
    apply keeps_contexts_for_each. intro item.
    unfold MEMORY_CONTROLLER.consolidate_item.
    destruct (4 <=? importance item); [|apply keeps_contexts_ret].
    apply keeps_contexts_bind; [apply keeps_contexts_now|]. intro t.
    apply keeps_contexts_bind; [|intros; apply keeps_contexts_ret].
    apply keeps_contexts_storeKnowledge.
Qed.

Lemma keeps_contexts_extract_from (c : Conversation) :
  ControllerOps.keeps_contexts (MEMORY_CONTROLLER.extract_from Bindings.rules c).
Proof.
  unfold MEMORY_CONTROLLER.extract_from.
  destruct (MEMORY_CONTROLLER.scanned c); [|apply keeps_contexts_ret].
  cbn [ms_storeKnowledge Bindings.rules].
  apply keeps_contexts_bind.
  - destruct (MEMORY_CONTROLLER.mentions_code (conv_content c));
      [|apply keeps_contexts_ret].
    apply keeps_contexts_bind; [apply keeps_contexts_now|]. intro t.
    apply keeps_contexts_bind; [|intros; apply keeps_contexts_ret].
    apply keeps_contexts_storeKnowledge.
  - intros _. destruct (MEMORY_CONTROLLER.mentions_error (conv_content c));
      [|apply keeps_contexts_ret].
    apply keeps_contexts_bind; [apply keeps_contexts_now|]. intro t.
    apply keeps_contexts_bind; [|intros; apply keeps_contexts_ret].
    apply keeps_contexts_storeKnowledge.
Qed.

Lemma keeps_conversations_extract_from (c : Conversation) :
  ControllerOps.keeps_conversations (MEMORY_CONTROLLER.extract_from Bindings.rules c).
Proof.
  unfold MEMORY_CONTROLLER.extract_from.
  destruct (MEMORY_CONTROLLER.scanned c); [|apply keeps_conversations_ret].
  cbn [ms_storeKnowledge Bindings.rules].
  apply keeps_conversations_bind.
  - destruct (MEMORY_CONTROLLER.mentions_code (conv_content c));
      [|apply keeps_conversations_ret].
    apply keeps_conversations_bind; [apply keeps_conversations_now|]. intro t.
    apply keeps_conversations_bind; [|intros; apply keeps_conversations_ret].
    apply keeps_conversations_storeKnowledge.
  - intros _. destruct (MEMORY_CONTROLLER.mentions_error (conv_content c));
      [|apply keeps_conversations_ret].
    apply keeps_conversations_bind; [apply keeps_conversations_now|]. intro t.
    apply keeps_conversations_bind; [|intros; apply keeps_conversations_ret].
    apply keeps_conversations_storeKnowledge.
Qed.

Lemma keeps_contexts_extractKnowledge :
  ControllerOps.keeps_contexts (MEMORY_CONTROLLER.extractKnowledge Bindings.rules).
Proof.
  unfold MEMORY_CONTROLLER.extractKnowledge, MEMORY_CONTROLLER.extract_steps.
  apply keeps_contexts_try_catch; [|intros; apply keeps_contexts_ret].
  cbn [ms_getRecentConversations Bindings.rules].
  apply keeps_contexts_bind; [intro w; reflexivity|]. intro recent.
  destruct recent; try apply keeps_contexts_ret.
  - destruct l; apply keeps_contexts_ret.
  - destruct l; [apply keeps_contexts_ret|].
    apply keeps_contexts_bind; [|intros; apply keeps_contexts_ret].
    apply keeps_contexts_for_each, keeps_contexts_extract_from.
Qed.

Lemma keeps_conversations_extractKnowledge :
  ControllerOps.keeps_conversations (MEMORY_CONTROLLER.extractKnowledge Bindings.rules).
Proof.
  unfold MEMORY_CONTROLLER.extractKnowledge, MEMORY_CONTROLLER.extract_steps.
  apply keeps_conversations_try_catch; [|intros; apply keeps_conversations_ret].
  cbn [ms_getRecentConversations Bindings.rules].
  apply keeps_conversations_bind; [intro w; reflexivity|]. intro recent.
  destruct recent; try apply keeps_conversations_ret.
  - destruct l; apply keeps_conversations_ret.
  - destruct l; [apply keeps_conversations_ret|].
    apply keeps_conversations_bind; [|intros; apply keeps_conversations_ret].
    apply keeps_conversations_for_each, keeps_conversations_extract_from.
Qed.

Lemma session_or_new_rules_frame (w : World) :
  exists sid w',
    MEMORY_CONTROLLER.session_or_new Bindings.rules w = (Ok sid, w')
    /\ short_term w' = short_term w /\ conversations w' = conversations w
    /\ semantic w' = semantic w.
Proof.
  unfold MEMORY_CONTROLLER.session_or_new, bind, MEMORY_CONTROLLER.getContext. simpl.
  match goal with
  | |- context [if ?c then _ else _] => destruct c
  end; simpl; do 2 eexists; repeat split; reflexivity.
Qed.

Lemma storeContext_rules_step (name : string) (v : CtxVal) (w : World) :
  MEMORY_CONTROLLER.storeContext Bindings.rules name v w
  = (Ok (VBool true), snd (ShortTermMemory.storeContext name v w)).
Proof.
  unfold MEMORY_CONTROLLER.storeContext, Bindings.rules, Bindings.pure. simpl.
  unfold ShortTermMemory.storeContext.
  destruct (Js.obj_get name (contexts (short_term w))); reflexivity.
Qed.

Lemma storeContext_getContext_other (name other : string) (v : CtxVal) (w : World) :
  other <> name ->
  ShortTermMemory.getContext other (snd (ShortTermMemory.storeContext name v w))
  = ShortTermMemory.getContext other w.
Proof.
  intro Hne. unfold ShortTermMemory.storeContext, ShortTermMemory.getContext.
  destruct (Js.obj_get name (contexts (short_term w))); simpl;
    rewrite !obj_get_set_other by exact Hne; reflexivity.
Qed.

Lemma getContext_short_term (name : string) (w w' : World) :
  short_term w' = short_term w ->
  ShortTermMemory.getContext name w' = ShortTermMemory.getContext name w.
Proof. intro H. unfold ShortTermMemory.getContext. now rewrite H. Qed.

Lemma log_turn_rules_step (role content : string) (w : World) :
  exists entry w',
    MEMORY_CONTROLLER.log_turn Bindings.rules role content w = (Ok tt, w')
    /\ conversations w' = conversations w ++ [entry]
    /\ conv_role entry = role /\ conv_content entry = content
    /\ short_term w' = short_term w.
Proof.
  unfold MEMORY_CONTROLLER.log_turn. cbn [ms_storeConversation Bindings.rules].
  unfold bind, MEMORY_CONTROLLER.now, Bindings.pure. cbn [ms_now Bindings.rules].
  destruct (Date_now w) as [t w0] eqn:Hnow.
  assert (Hw0 : conversations w0 = conversations w /\ short_term w0 = short_term w).
  { unfold Date_now in Hnow. destruct (host_now (host w)). injection Hnow as _ <-.
    split; reflexivity. }
  destruct Hw0 as [Hc Hs].
  destruct (storeConversation_appends role content VNull (Some t) w0)
    as (session & ts & Happ & Hst).
  destruct (EpisodicMemory.storeConversation role content VNull (Some t) w0)
    as [id w1].
  cbn [snd] in *. cbn [ret].
  eexists. exists w1. split; [reflexivity|].
  rewrite Happ, Hc, Hst, Hs. repeat split; reflexivity.
Qed.

Lemma enrichContext_rules_frame (query : string) (w : World) :
  exists t sid wc rc hits w',
    MEMORY_CONTROLLER.enrichContext Bindings.rules query w
    = (Ok (VEnriched query t sid wc rc hits), w')
    /\ 0 <= Js.len hits <= 2 * Js.len (MEMORY_CONTROLLER.keywords query)
    /\ conversations w' = conversations w
    /\ ShortTermMemory.getContext "enriched_context" w'
       = VEnriched query t sid wc rc hits
    /\ (forall other, other <> "enriched_context" ->
          ShortTermMemory.getContext other w' = ShortTermMemory.getContext other w).
Proof.
  destruct (session_or_new_rules_frame (snd (Date_now w)))
    as (sid & w2 & Hsession & Hst & Hconv & _).
  destruct (relevant_knowledge_rules (MEMORY_CONTROLLER.keywords query) w2)
    as (hits & Hhits & Hlen).
  set (enriched :=
         VEnriched query (fst (Date_now w)) sid
           (js_or (ShortTermMemory.getContext "working_context" w2) (VItems []))
           (Some (VConversations (EpisodicMemory.getRecentConversations 5 w2)))
           hits).
  exists (fst (Date_now w)), sid,
    (js_or (ShortTermMemory.getContext "working_context" w2) (VItems [])),
    (Some (VConversations (EpisodicMemory.getRecentConversations 5 w2))),
    hits, (snd (ShortTermMemory.storeContext "enriched_context" enriched w2)).
  fold enriched.
  split; [|split; [|split; [|split]]].
  - unfold MEMORY_CONTROLLER.enrichContext, MEMORY_CONTROLLER.enrich_steps.
    apply try_catch_ok.
    rewrite (bind_ok _ _ w (snd (Date_now w)) (fst (Date_now w))) by reflexivity.
    rewrite (bind_ok _ _ _ _ _ Hsession).
    rewrite (bind_ok _ _ w2 w2 (ShortTermMemory.getContext "working_context" w2))
      by reflexivity.
    rewrite (bind_ok _ _ w2 w2
               (Some (VConversations (EpisodicMemory.getRecentConversations 5 w2))))
      by reflexivity.
    rewrite (bind_ok _ _ _ _ _ Hhits).
    fold enriched.
    rewrite (bind_ok _ _ _ _ _ (storeContext_rules_step "enriched_context" enriched w2)).
    reflexivity.
  - split; [unfold Js.len; lia|exact Hlen].
  - rewrite storeContext_conversations. exact Hconv.
  - apply storeContext_getContext_same.
  - intros other Hne. rewrite storeContext_getContext_other by exact Hne.
    apply getContext_short_term. exact Hst.
Qed.

Lemma consolidateMemory_rules_total (w : World) :
  exists done, fst (MEMORY_CONTROLLER.consolidateMemory Bindings.rules w) = Ok done.
Proof. unfold MEMORY_CONTROLLER.consolidateMemory. apply try_catch_total. Qed.

Lemma extractKnowledge_rules_total (w : World) :
  exists done, fst (MEMORY_CONTROLLER.extractKnowledge Bindings.rules w) = Ok done.
Proof. unfold MEMORY_CONTROLLER.extractKnowledge. apply try_catch_total. Qed.

Lemma periodic_steps_frame (flag : bool) (w : World) :
  exists w',
    (if flag
     then MEMORY_CONTROLLER.consolidateMemory Bindings.rules ;;;
          MEMORY_CONTROLLER.extractKnowledge Bindings.rules ;;; ret tt
     else ret tt) w = (Ok tt, w')
    /\ short_term w' = short_term w
    /\ (flag = false -> w' = w).
Proof.
  destruct flag; [|exists w; repeat split; reflexivity].
  pose proof (keeps_contexts_consolidateMemory w) as Hc.
  destruct (consolidateMemory_rules_total w) as [b Hb].
  unfold bind.
  destruct (MEMORY_CONTROLLER.consolidateMemory Bindings.rules w) as [r1 w1].
  cbn [fst snd] in *. subst r1.
  pose proof (keeps_contexts_extractKnowledge w1) as He.
  destruct (extractKnowledge_rules_total w1) as [b' Hb'].
  destruct (MEMORY_CONTROLLER.extractKnowledge Bindings.rules w1) as [r2 w2].
  cbn [fst snd] in *. subst r2.
  exists w2. split; [reflexivity|]. split; [congruence|discriminate].
Qed.

(** One interaction under the rule scripts, for an ASCII query.
    [processInteraction(query)] answers with the response text built
    from the number [n] of knowledge fragments, at most two per keyword
    of the query; afterwards the query is stored under
    ["current_query"], the response under ["last_response"], and
    ["interaction_count"] holds [(count || 0) + 1] for the count stored
    before (1 when it was missing).  Unless this new count is a multiple
    of 5 (for a count that is a text, as the host reads the text), the
    conversations have grown by exactly two entries: the query as
    [user], then the response as [assistant]. *)
Theorem processInteraction_rules_turn :
  forall (text_multiple_of_5 : string -> bool) (w : World) (query : string),
    Js.ascii_text query = true ->
    let result := MEMORY_CONTROLLER.processInteraction Bindings.rules text_multiple_of_5
                    (VStr query) None w in
    let count := ShortTermMemory.getContext "interaction_count" w in
    exists n,
      fst result = Ok (MEMORY_CONTROLLER.response_text query n)
      /\ 0 <= n <= 2 * Js.len (MEMORY_CONTROLLER.keywords query)
      /\ ShortTermMemory.getContext "current_query" (snd result) = VStr query
      /\ ShortTermMemory.getContext "last_response" (snd result)
         = VStr (MEMORY_CONTROLLER.response_text query n)
      /\ ShortTermMemory.getContext "interaction_count" (snd result) = js_plus_one count
      /\ (js_multiple_of_5 text_multiple_of_5 (js_plus_one count) = false ->
          exists user assistant,
            conversations (snd result) = conversations w ++ [user; assistant]
            /\ conv_role user = "user" /\ conv_content user = query
            /\ conv_role assistant = "assistant"
            /\ conv_content assistant = MEMORY_CONTROLLER.response_text query n).
Proof.
  intros text_multiple_of_5 w query _ result count. subst result.
  unfold MEMORY_CONTROLLER.processInteraction.
  (* 1 *)
  set (wA := snd (ShortTermMemory.storeContext "current_query" (VStr query) w)).
  pose proof (storeContext_rules_step "current_query" (VStr query) w) as HA.
  fold wA in HA.
  (* 2 *)
  destruct (log_turn_rules_step "user" query wA)
    as (user & wB & HB & HBconv & HBrole & HBcontent & HBst).
  (* 3 *)
  destruct (enrichContext_rules_frame query wB)
    as (t & sid & wc & rc & hits & wC & HC & HClen & HCconv & _ & HCother).
  set (n := Js.len hits).
  set (response := MEMORY_CONTROLLER.response_text query n).
  (* 5 *)
  set (wD := snd (ShortTermMemory.storeContext "last_response" (VStr response) wC)).
  pose proof (storeContext_rules_step "last_response" (VStr response) wC) as HD.
  fold wD in HD.
  (* 6 *)
  destruct (log_turn_rules_step "assistant" response wD)
    as (assistant & wE & HE & HEconv & HErole & HEcontent & HEst).
  (* 7 *)
  assert (Hcount : ShortTermMemory.getContext "interaction_count" wE = count).
  { rewrite (getContext_short_term _ wD wE HEst). subst wD.
    rewrite storeContext_getContext_other by discriminate.
    rewrite HCother by discriminate.
    rewrite (getContext_short_term _ wA wB HBst). subst wA.
    now rewrite storeContext_getContext_other by discriminate. }
  set (wG := snd (ShortTermMemory.storeContext "interaction_count" (js_plus_one count) wE)).
  pose proof (storeContext_rules_step "interaction_count" (js_plus_one count) wE) as HG.
  fold wG in HG.
  (* 8 *)
  destruct (periodic_steps_frame
              (js_multiple_of_5 text_multiple_of_5 (js_plus_one count)) wG)
    as (wH & HH & HHst & HHsame).
  assert (Hsteps : MEMORY_CONTROLLER.interaction_steps Bindings.rules text_multiple_of_5
                     query None w
                   = (Ok response, wH)).
  { unfold MEMORY_CONTROLLER.interaction_steps.
    rewrite (bind_ok _ _ _ _ _ HA).
    rewrite (bind_ok _ _ _ _ _ HB).
    rewrite (bind_ok _ _ _ _ _ HC).
    cbn [MEMORY_CONTROLLER.fragment_count]. fold n. fold response.
    rewrite (bind_ok _ _ _ _ _ HD).
    rewrite (bind_ok _ _ _ _ _ HE).
    rewrite (bind_ok _ _ wE wE (ShortTermMemory.getContext "interaction_count" wE))
      by reflexivity.
    rewrite Hcount.
    rewrite (bind_ok _ _ _ _ _ HG).
    rewrite (bind_ok _ _ _ _ _ HH).
    reflexivity. }
  rewrite (try_catch_ok _ _ _ _ _ Hsteps). cbn [fst snd].
  exists n. split; [reflexivity|]. split; [exact HClen|].
  assert (HwH : forall name, ShortTermMemory.getContext name wH
                             = ShortTermMemory.getContext name wG).
  { intro name. now apply getContext_short_term. }
  split; [|split; [|split]].
  - rewrite HwH. subst wG. rewrite storeContext_getContext_other by discriminate.
    rewrite (getContext_short_term _ wD wE HEst). subst wD.
    rewrite storeContext_getContext_other by discriminate.
    rewrite HCother by discriminate.
    rewrite (getContext_short_term _ wA wB HBst). subst wA.
    apply storeContext_getContext_same.
  - rewrite HwH. subst wG. rewrite storeContext_getContext_other by discriminate.
    rewrite (getContext_short_term _ wD wE HEst). subst wD.
    apply storeContext_getContext_same.
  - rewrite HwH. subst wG. apply storeContext_getContext_same.
  - intro Hnot. rewrite (HHsame Hnot).
    exists user, assistant. split; [|repeat split; assumption].
    subst wG. rewrite storeContext_conversations, HEconv. subst wD.
    rewrite storeContext_conversations, HCconv, HBconv. subst wA.
    rewrite storeContext_conversations, <- app_assoc. reflexivity.
Qed.

(** A run of the theorem on a first interaction: the count becomes 1 and
    the two turns are logged. *)
Lemma processInteraction_rules_turn_witness :
  let result := MEMORY_CONTROLLER.processInteraction Bindings.rules
                  Samples.decimal_multiple_of_5 (VStr "how does pruning work") None
                  (Samples.world_with []) in
  ShortTermMemory.getContext "interaction_count" (snd result) = VNum 1
  /\ map conv_role (conversations (snd result)) = ["user"; "assistant"].
Proof.
  intro result.
  destruct (processInteraction_rules_turn Samples.decimal_multiple_of_5
              (Samples.world_with []) "how does pruning work" eq_refl)
    as (n & _ & _ & _ & _ & Hcount & Hturns).
  fold result in Hcount, Hturns.
  split; [exact Hcount|].
  destruct (Hturns eq_refl) as (user & assistant & -> & Huser & _ & Hassistant & _).
  change (conversations (Samples.world_with [])) with (@nil Conversation).
  cbn [map app]. now rewrite Huser, Hassistant.
Defined.

(** ** Consolidation under the rule scripts *)

Lemma storeConversation_semantic (role content : string) (session_id : CtxVal)
  (timestamp : option Z) (w : World) :
  semantic (snd (EpisodicMemory.storeConversation role content session_id timestamp w))
  = semantic w.
Proof.
  unfold EpisodicMemory.storeConversation.
  destruct (truthy session_id);
    [|destruct (truthy (ShortTermMemory.getContext "session_id" w))];
    destruct timestamp as [t|]; try destruct (Z.eqb_spec t 0);
    unfold Date_now, host_now; cbv beta iota zeta;
    repeat match goal with
           | |- context [if ?c =? 0 then _ else _] => destruct (c =? 0)
           end;
    reflexivity.
Qed.

Lemma consolidate_fold_keeps (topic : string) (Q : Knowledge -> Prop)
  (items : list WorkingContextItem) (w : World) :
  (forall y, In y items -> 4 <= importance y -> item_topic y <> topic) ->
  SemanticMemory.holds_entry topic Q w ->
  SemanticMemory.holds_entry topic Q
    (fold_left (fun acc x => Bindings.rules_consolidate_step x acc) items w).
Proof.
  revert w. induction items as [|y items IH]; intros w Hother Hw; simpl; [exact Hw|].
  apply IH; [intros z Hz; apply Hother; now right|].
  unfold Bindings.rules_consolidate_step.
  destruct (Z.leb_spec 4 (importance y)) as [Himp|_]; [|exact Hw].
  apply rules_write_keeps_holds; [|exact Hw].
  left. intro Heq. apply (Hother y (or_introl eq_refl) Himp). now symmetry.
Qed.

Lemma consolidate_fold_writes (items : list WorkingContextItem) (item : WorkingContextItem)
  (w : World) :
  NoDup (map item_topic (filter (fun i => 4 <=? importance i) items)) ->
  In item items -> 4 <= importance item ->
  SemanticMemory.holds_entry (item_topic item)
    (fun k => k_category k = "working_context"
              /\ k_content k = item_details item
              /\ k_importance k = MEMORY_CONTROLLER.mapImportance (importance item)
              /\ k_source k = "short_term_memory")
    (fold_left (fun acc x => Bindings.rules_consolidate_step x acc) items w).
Proof.
  revert w. induction items as [|x items IH]; intros w Hnodup Hin Himp; [contradiction|].
  simpl in Hnodup. simpl.
  destruct Hin as [->|Hin].
  - apply Z.leb_le in Himp as Hb. rewrite Hb in Hnodup. simpl in Hnodup.
    inversion Hnodup as [|? ? Hfresh _]; subst.
    apply consolidate_fold_keeps.
    + intros y Hy Hyimp Heq. apply Hfresh. apply in_map_iff. exists y.
      split; [exact Heq|]. apply filter_In. split; [exact Hy|now apply Z.leb_le].
    + now apply consolidate_step_rules.
  - apply IH; [|exact Hin|exact Himp].
    destruct (4 <=? importance x); [now inversion Hnodup|exact Hnodup].
Qed.

(** Under the rule scripts [consolidateMemory] copies, it does not move:
    it answers [true], leaves every short-term context (the working
    context included) as it was, and, the important items having
    pairwise distinct topics, the semantic store afterwards holds under
    each such topic an entry with the item's details, category
    ["working_context"], source ["short_term_memory"] and the mapped
    importance. *)
Theorem consolidateMemory_rules_copies :
  forall (w : World) (items : list WorkingContextItem),
    ShortTermMemory.working_context w = Some items ->
    NoDup (map item_topic (filter (fun i => 4 <=? importance i) items)) ->
    let result := MEMORY_CONTROLLER.consolidateMemory Bindings.rules w in
    fst result = Ok true
    /\ short_term (snd result) = short_term w
    /\ (forall item, In item items -> 4 <= importance item ->
          SemanticMemory.holds_entry (item_topic item)
            (fun k => k_category k = "working_context"
                      /\ k_content k = item_details item
                      /\ k_importance k
                         = MEMORY_CONTROLLER.mapImportance (importance item)
                      /\ k_source k = "short_term_memory")
            (snd result)).
Proof.
  intros w items Hwc Hnodup result.
  assert (Hget : ShortTermMemory.getContext "working_context" w = VItems items).
  { unfold ShortTermMemory.working_context in Hwc. unfold ShortTermMemory.getContext.
    destruct (Js.obj_get "working_context" (contexts (short_term w))) as [v|];
      [|discriminate].
    destruct v; try discriminate. now injection Hwc as ->. }
  assert (Hrun : exists w2,
            MEMORY_CONTROLLER.consolidateMemory Bindings.rules w
            = (Ok true,
               fold_left (fun acc x => Bindings.rules_consolidate_step x acc) items w2)).
  { unfold MEMORY_CONTROLLER.consolidateMemory, MEMORY_CONTROLLER.consolidate_steps.
    destruct (session_or_new_rules_frame w) as (sid & w1 & Hsession & _).
    set (summary := ShortTermMemory.getContext "conversation_summary" w).
    assert (Hsummary : exists w2,
              (match ms_storeConversation Bindings.rules with
               | Some storeConversation =>
                   if truthy summary
                   then t <- MEMORY_CONTROLLER.now Bindings.rules ;;
                        storeConversation "system"
                          ("Session summary: " ^^ js_to_string summary) sid (Some t) ;;;
                        ret tt
                   else ret tt
               | None => ret tt
               end) w1 = (Ok tt, w2)).
    { cbn [ms_storeConversation Bindings.rules].
      destruct (truthy summary); [|now exists w1].
      unfold bind, MEMORY_CONTROLLER.now, Bindings.pure. cbn [ms_now Bindings.rules].
      destruct (Date_now w1) as [t w1'].
      destruct (EpisodicMemory.storeConversation _ _ _ _ w1') as [id w2].
      now exists w2. }
    destruct Hsummary as [w2 Hsummary].
    exists w2. apply try_catch_ok.
    rewrite (bind_ok _ _ w w (ShortTermMemory.getContext "working_context" w))
      by reflexivity.
    rewrite (bind_ok _ _ w w summary) by reflexivity.
    rewrite (bind_ok _ _ _ _ _ Hsession).
    cbn [ms_storeConversation Bindings.rules].
    cbn [ms_storeConversation Bindings.rules] in Hsummary.
    rewrite (bind_ok _ _ _ _ _ Hsummary).
    rewrite Hget. cbn [js_or truthy ms_storeKnowledge Bindings.rules].
    rewrite (bind_ok _ _ w2
               (fold_left (fun acc x => Bindings.rules_consolidate_step x acc) items w2) tt).
    - reflexivity.
    - apply for_each_steps. apply consolidate_item_rules. }
  destruct Hrun as [w2 Hrun].
  split; [subst result; now rewrite Hrun|].
  split; [apply keeps_contexts_consolidateMemory|].
  intros item Hin Himp. subst result. rewrite Hrun. cbn [snd].
  now apply consolidate_fold_writes.
Qed.

(** A run of the theorem: of two items only the important one is
    written, and both stay in the working context. *)
Lemma consolidateMemory_rules_copies_witness :
  let items := [Samples.item "goal" 5 None; Samples.item "aside" 2 None] in
  let result := MEMORY_CONTROLLER.consolidateMemory Bindings.rules
                  (Samples.world_with items) in
  fst result = Ok true
  /\ ShortTermMemory.working_context (snd result) = Some items
  /\ SemanticMemory.holds_entry "goal"
       (fun k => k_content k = "details" /\ k_importance k = "high") (snd result).
Proof.
  intros items result.
  destruct (consolidateMemory_rules_copies (Samples.world_with items) items)
    as (Hret & Hst & Hheld).
  - reflexivity.
  - vm_compute. constructor; [intros []|constructor].
  - split; [exact Hret|]. split.
    + unfold ShortTermMemory.working_context. subst result. rewrite Hst. reflexivity.
    + eapply holds_entry_weaken;
        [|apply (Hheld (Samples.item "goal" 5 None));
          [left; reflexivity|vm_compute; discriminate]].
      intros k (_ & Hcontent & Himp & _). split; [exact Hcontent|exact Himp].
Defined.

(** ** EpisodicMemory: the metadata of an entry wears off with each read *)

Lemma insert_by_map {A B : Type} (f : A -> B) (cmp : B -> B -> Z) (x : A) (l : list A) :
  map f (Js.insert_by (fun a b => cmp (f a) (f b)) x l) = Js.insert_by cmp (f x) (map f l).
Proof.
  induction l as [|y l IH]; simpl; [reflexivity|].
  destruct (cmp (f x) (f y) <=? 0); simpl; [reflexivity|now rewrite IH].
Qed.

Lemma sort_map {A B : Type} (f : A -> B) (cmp : B -> B -> Z) (l : list A) :
  map f (Js.sort (fun a b => cmp (f a) (f b)) l) = Js.sort cmp (map f l).
Proof.
  unfold Js.sort. induction l as [|x l IH]; cbn [fold_right map]; [reflexivity|].
  now rewrite insert_by_map, IH.
Qed.

Lemma map_fst_combine_eq {A B : Type} (a : list A) (b : list B) :
  List.length a = List.length b -> map fst (combine a b) = a.
Proof.
  revert b. induction a as [|x a IH]; intros [|y b] H; simpl in *;
    try discriminate; [reflexivity|].
  f_equal. apply IH. now injection H.
Qed.

Lemma map_snd_combine_eq {A B : Type} (a : list A) (b : list B) :
  List.length a = List.length b -> map snd (combine a b) = b.
Proof.
  revert b. induction a as [|x a IH]; intros [|y b] H; simpl in *;
    try discriminate; [reflexivity|].
  f_equal. apply IH. now injection H.
Qed.

Lemma in_combine_some {A B : Type} (a : list A) (b : list B) (y : B) :
  List.length a = List.length b -> In y b -> exists x, In (x, y) (combine a b).
Proof.
  revert b. induction a as [|x a IH]; intros [|y' b] Hlen Hin; simpl in *;
    try discriminate; [contradiction|].
  destruct Hin as [->|Hin].
  - exists x. now left.
  - destruct (IH b) as [x' Hx']; [now injection Hlen|exact Hin|].
    exists x'. now right.
Qed.

Lemma in_combine_map_r {A B : Type} (f : B -> B) (a : list A) (b : list B) (x : A) (y : B) :
  In (x, y) (combine a b) -> In (x, f y) (combine a (map f b)).
Proof.
  revert b. induction a as [|x' a IH]; intros [|y' b] Hin; simpl in *;
    try contradiction.
  destruct Hin as [[= -> ->]|Hin]; [now left|right; now apply IH].
Qed.

Lemma Forall2_map_combine {A B : Type} (R : B -> B -> Prop) (g : A * B -> B)
  (a : list A) (b : list B) :
  List.length a = List.length b ->
  (forall e, R (snd e) (g e)) ->
  Forall2 R b (map g (combine a b)).
Proof.
  intros Hlen Hg. revert b Hlen.
  induction a as [|x a IH]; intros [|y b] Hlen; simpl in *; try discriminate.
  - constructor.
  - constructor; [apply (Hg (x, y))|apply IH; now injection Hlen].
Qed.

Lemma combine_snoc {A B : Type} (a : list A) (b : list B) (x : A) (y : B) :
  List.length a = List.length b ->
  combine (a ++ [x]) (b ++ [y]) = combine a b ++ [(x, y)].
Proof.
  revert b. induction a as [|x' a IH]; intros [|y' b] H; simpl in *;
    try discriminate; [reflexivity|].
  f_equal. apply IH. now injection H.
Qed.

Lemma map_filter_comm {A B : Type} (g : A -> B) (p : B -> bool) (l : list A) :
  map g (filter (fun a => p (g a)) l) = filter p (map g l).
Proof.
  induction l as [|x l IH]; simpl; [reflexivity|].
  destruct (p (g x)); simpl; now rewrite IH.
Qed.

Lemma slice_map {A B : Type} (g : A -> B) (start stop : Z) (l : list A) :
  map g (JsArray.slice start stop l) = JsArray.slice start stop (map g l).
Proof.
  unfold JsArray.slice. now rewrite length_map, skipn_map, firstn_map.
Qed.

Lemma slice_In {A : Type} (start stop : Z) (l : list A) (x : A) :
  In x (JsArray.slice start stop l) -> In x l.
Proof.
  unfold JsArray.slice. intro H. apply firstn_In in H. now apply skipn_In in H.
Qed.

Lemma NoDup_map_fst_inj {A B : Type} (l : list (A * B)) (k : A) (v v' : B) :
  NoDup (map fst l) -> In (k, v) l -> In (k, v') l -> v = v'.
Proof.
  induction l as [|[k0 v0] l IH]; simpl; intros Hnd Hv Hv'; [contradiction|].
  inversion Hnd as [|? ? Hk0 Hl]; subst.
  destruct Hv as [[= -> ->]|Hv], Hv' as [[= <-]|Hv'].
  - reflexivity.
  - exfalso. apply Hk0. apply in_map_iff. now exists (k, v').
  - exfalso. apply Hk0. apply in_map_iff. now exists (k0, v).
  - now apply IH.
Qed.

Lemma combine_outer {A B C : Type} (p : list A) (a : list B) (b : list C) :
  List.length p = List.length b -> List.length a = List.length b ->
  combine p b = map (fun r => (fst r, snd (snd r))) (combine p (combine a b)).
Proof.
  revert a b. induction p as [|i p IH]; intros [|x a] [|y b] Hp Ha; simpl in *;
    try discriminate; [reflexivity|].
  f_equal. apply IH; [now injection Hp|now injection Ha].
Qed.

Section MetadataFacts.

Context {M : Type}.

Implicit Types (s : EntryStore M) (field : MetadataField M).

Lemma parse_thrice field :
  EpisodicMetadata.parse (EpisodicMetadata.parse (EpisodicMetadata.parse field))
  = EmptyObject.
Proof. now destruct field. Qed.

Lemma positions_length s :
  List.length (EpisodicMetadata.positions s) = List.length (es_metadata s).
Proof. unfold EpisodicMetadata.positions. apply length_seq. Qed.

Lemma rows_length s :
  List.length (es_metadata s) = List.length (conversations (es_world s)) ->
  List.length (EpisodicMetadata.rows s) = List.length (es_metadata s).
Proof.
  intro H. unfold EpisodicMetadata.rows, EpisodicMetadata.Row.
  rewrite !length_combine, positions_length, <- H. lia.
Qed.

Lemma rows_conversations s :
  List.length (es_metadata s) = List.length (conversations (es_world s)) ->
  map (fun r : EpisodicMetadata.Row => fst (snd r)) (EpisodicMetadata.rows s)
  = conversations (es_world s).
Proof.
  intro H. unfold EpisodicMetadata.rows, EpisodicMetadata.Row.
  rewrite <- (map_map snd fst), map_snd_combine_eq, map_fst_combine_eq;
    [reflexivity|now symmetry|].
  rewrite length_combine, positions_length, <- H. lia.
Qed.

Lemma rows_positions s :
  List.length (es_metadata s) = List.length (conversations (es_world s)) ->
  map fst (EpisodicMetadata.rows s) = EpisodicMetadata.positions s.
Proof.
  intro H. unfold EpisodicMetadata.rows. apply map_fst_combine_eq.
  rewrite length_combine, positions_length, <- H. lia.
Qed.

Lemma sort_rows_conversations s :
  List.length (es_metadata s) = List.length (conversations (es_world s)) ->
  map (fun r : EpisodicMetadata.Row => fst (snd r))
    (Js.sort EpisodicMetadata.by_timestamp_desc (EpisodicMetadata.rows s))
  = Js.sort EpisodicMemory.by_timestamp_desc (conversations (es_world s)).
Proof.
  intro H. rewrite <- (rows_conversations s H).
  apply (sort_map (fun r : EpisodicMetadata.Row => fst (snd r))
           EpisodicMemory.by_timestamp_desc).
Qed.

Lemma page_In (count : Z) s (r : EpisodicMetadata.Row) :
  In r (if count =? 0 then Js.sort EpisodicMetadata.by_timestamp_desc (EpisodicMetadata.rows s)
        else if 0 <? count
             then Js.slice_to count
                    (Js.sort EpisodicMetadata.by_timestamp_desc (EpisodicMetadata.rows s))
             else Js.slice_to
                    (Js.len (Js.sort EpisodicMetadata.by_timestamp_desc
                               (EpisodicMetadata.rows s)) + count)
                    (Js.sort EpisodicMetadata.by_timestamp_desc (EpisodicMetadata.rows s))) ->
  In r (EpisodicMetadata.rows s).
Proof.
  intro H. apply (sort_In EpisodicMetadata.by_timestamp_desc).
  destruct (count =? 0); [exact H|].
  destruct (0 <? count); unfold Js.slice_to in H; now apply firstn_In in H.
Qed.

Lemma getRecentConversations_world (count : Z) s :
  es_world (snd (EpisodicMetadata.getRecentConversations count s)) = es_world s.
Proof. reflexivity. Qed.

Lemma getRecentConversations_column_length (count : Z) s :
  List.length (es_metadata (snd (EpisodicMetadata.getRecentConversations count s)))
  = List.length (es_metadata s).
Proof.
  unfold EpisodicMetadata.getRecentConversations, EpisodicMetadata.parse_rows.
  cbn [snd es_metadata].
  rewrite length_map, length_combine, positions_length. lia.
Qed.

(** When the call returns every stored entry, every field is parsed. *)
Lemma getRecentConversations_all (count : Z) s :
  List.length (es_metadata s) = List.length (conversations (es_world s)) ->
  count = 0 \/ Js.len (es_metadata s) <= count ->
  es_metadata (snd (EpisodicMetadata.getRecentConversations count s))
  = map EpisodicMetadata.parse (es_metadata s)
  /\ (forall c field,
        In (c, field) (combine (conversations (es_world s)) (es_metadata s)) ->
        In (c, EpisodicMetadata.parse field)
          (fst (EpisodicMetadata.getRecentConversations count s))).
Proof.
  intros Hwf Hcount.
  unfold EpisodicMetadata.getRecentConversations.
  set (results := Js.sort EpisodicMetadata.by_timestamp_desc (EpisodicMetadata.rows s)).
  assert (Hpage : (if count =? 0 then results
                   else if 0 <? count then Js.slice_to count results
                        else Js.slice_to (Js.len results + count) results) = results).
  { destruct (Z.eqb_spec count 0) as [|Hnz]; [reflexivity|].
    destruct Hcount as [|Hcount]; [contradiction|].
    unfold Js.len in Hcount.
    destruct (Z.ltb_spec 0 count) as [_|Hneg]; [|lia].
    unfold Js.slice_to. apply firstn_all2.
    unfold results. rewrite sort_length, (rows_length s Hwf). lia. }
  rewrite Hpage. unfold EpisodicMetadata.parse_rows. cbn [fst snd es_metadata].
  split.
  - rewrite <- (map_snd_combine_eq (EpisodicMetadata.positions s) (es_metadata s)
                  (positions_length s)) at 2.
    rewrite map_map. apply map_ext_in. intros [i field] Hin. cbn [fst snd].
    replace (existsb (Nat.eqb i) (map fst results)) with true; [reflexivity|].
    symmetry. apply existsb_exists. exists i. split; [|apply Nat.eqb_refl].
    apply in_combine_l in Hin.
    rewrite <- (rows_positions s Hwf) in Hin.
    apply in_map_iff in Hin as (r & <- & Hr). apply in_map.
    now apply sort_In.
  - intros c field Hin.
    destruct (in_combine_some (EpisodicMetadata.positions s)
                (combine (conversations (es_world s)) (es_metadata s)) (c, field))
      as [i Hi].
    + rewrite length_combine, positions_length, <- Hwf. lia.
    + exact Hin.
    + apply in_map_iff. exists (i, (c, field)). split; [reflexivity|].
      now apply sort_In.
Qed.

(** What a retrieval returns is a stored entry with its field parsed. *)
Lemma getRecentConversations_returned (count : Z) s (c : Conversation) field :
  In (c, field) (fst (EpisodicMetadata.getRecentConversations count s)) ->
  exists stored,
    In (c, stored) (combine (conversations (es_world s)) (es_metadata s))
    /\ field = EpisodicMetadata.parse stored.
Proof.
  intro Hin.
  unfold EpisodicMetadata.getRecentConversations, EpisodicMetadata.parse_rows in Hin.
  cbn [fst] in Hin. apply in_map_iff in Hin as ([i [c' stored]] & [= <- <-] & Hr).
  apply page_In in Hr. exists stored. split; [|reflexivity].
  unfold EpisodicMetadata.rows in Hr. now apply in_combine_r in Hr.
Qed.

(** [getRecentConversations] returns the entries that
    [EpisodicMemory.getRecentConversations] lists, each with its stored
    field parsed once; the store keeps what was parsed: every stored
    field is as before or parsed once, and all of them are parsed when
    the call returns every entry (a count of 0, or one that is not below
    their number). *)
Theorem getRecentConversations_parses_in_place :
  forall (s : EntryStore M) (count : Z),
    List.length (es_metadata s) = List.length (conversations (es_world s)) ->
    let result := EpisodicMetadata.getRecentConversations count s in
    map fst (fst result) = EpisodicMemory.getRecentConversations count (es_world s)
    /\ (forall c field, In (c, field) (fst result) ->
          exists stored,
            In (c, stored) (combine (conversations (es_world s)) (es_metadata s))
            /\ field = EpisodicMetadata.parse stored)
    /\ Forall2 (fun old new => new = old \/ new = EpisodicMetadata.parse old)
         (es_metadata s) (es_metadata (snd result))
    /\ (count = 0 \/ Js.len (es_metadata s) <= count ->
        es_metadata (snd result) = map EpisodicMetadata.parse (es_metadata s))
    /\ es_world (snd result) = es_world s.
Proof.
  intros s count Hwf result. subst result.
  split; [|split; [|split; [|split]]].
  - unfold EpisodicMetadata.getRecentConversations, EpisodicMetadata.parse_rows,
      EpisodicMemory.getRecentConversations.
    cbn [fst]. rewrite map_map. cbn [fst].
    rewrite <- (sort_rows_conversations s Hwf).
    unfold Js.len. rewrite length_map.
    destruct (count =? 0); [reflexivity|].
    unfold Js.slice_to. destruct (0 <? count); now rewrite firstn_map.
  - intros c field Hin. now apply (getRecentConversations_returned count s).
  - unfold EpisodicMetadata.getRecentConversations, EpisodicMetadata.parse_rows.
    cbn [snd es_metadata].
    apply Forall2_map_combine; [apply positions_length|].
    intros [i field]. cbn [fst snd].
    destruct (existsb _ _); [now right|now left].
  - intro Hcount. now apply getRecentConversations_all.
  - reflexivity.
Qed.

(** The metadata object given to [storeConversation] comes back as text
    from the first retrieval that returns the entry, as the object from
    the second, and as an empty object from the third on: here for
    retrievals that return every entry.  After three such retrievals no
    stored entry has any metadata left. *)
Theorem metadata_gone_after_three_reads :
  forall (s : EntryStore M) (role content : string) (session_id : CtxVal)
         (timestamp : option Z) (metadata : M) (count : Z),
    List.length (es_metadata s) = List.length (conversations (es_world s)) ->
    count = 0 \/ Js.len (es_metadata s) + 1 <= count ->
    let stored := EpisodicMetadata.storeConversation role content session_id timestamp
                    metadata s in
    let first := EpisodicMetadata.getRecentConversations count (snd stored) in
    let second := EpisodicMetadata.getRecentConversations count (snd first) in
    let third := EpisodicMetadata.getRecentConversations count (snd second) in
    exists entry,
      conversations (es_world (snd stored)) = conversations (es_world s) ++ [entry]
      /\ conv_role entry = role /\ conv_content entry = content
      /\ In (entry, TextOf metadata) (fst first)
      /\ In (entry, ObjectOf metadata) (fst second)
      /\ In (entry, EmptyObject) (fst third)
      /\ Forall (fun returned => snd returned = EmptyObject) (fst third)
      /\ Forall (fun field => field = EmptyObject) (es_metadata (snd third)).
Proof.
  intros s role content session_id timestamp metadata count Hwf Hcount
    stored first second third.
  destruct (storeConversation_appends role content session_id timestamp (es_world s))
    as (session & ts & Happ & _).
  set (entry := mkConversation (Js.len (conversations (es_world s)) + 1) session role
                  content ts) in *.
  assert (Hworld : conversations (es_world (snd stored))
                   = conversations (es_world s) ++ [entry]).
  { subst stored. unfold EpisodicMetadata.storeConversation.
    destruct (EpisodicMemory.storeConversation role content session_id timestamp
                (es_world s)) as [id w'] eqn:Hstore.
    cbn [snd es_world] in *. exact Happ. }
  assert (Hcolumn : es_metadata (snd stored) = es_metadata s ++ [TextOfText metadata]).
  { subst stored. unfold EpisodicMetadata.storeConversation.
    now destruct (EpisodicMemory.storeConversation role content session_id timestamp
                    (es_world s)). }
  assert (Hwf0 : List.length (es_metadata (snd stored))
                 = List.length (conversations (es_world (snd stored)))).
  { rewrite Hworld, Hcolumn, !length_app, Hwf. reflexivity. }
  assert (Hcount0 : count = 0 \/ Js.len (es_metadata (snd stored)) <= count).
  { destruct Hcount as [|Hcount]; [now left|right].
    unfold Js.len in *. rewrite Hcolumn, length_app. cbn [List.length]. lia. }
  assert (Hin0 : In (entry, TextOfText metadata)
                   (combine (conversations (es_world (snd stored)))
                      (es_metadata (snd stored)))).
  { rewrite Hworld, Hcolumn, combine_snoc by (now symmetry).
    apply in_or_app. right. now left. }
  destruct (getRecentConversations_all count (snd stored) Hwf0 Hcount0) as [Hc1 Hr1].
  fold first in Hc1, Hr1.
  assert (Hwf1 : List.length (es_metadata (snd first))
                 = List.length (conversations (es_world (snd first)))).
  { subst first. now rewrite getRecentConversations_column_length. }
  assert (Hcount1 : count = 0 \/ Js.len (es_metadata (snd first)) <= count).
  { unfold Js.len in *. subst first.
    now rewrite getRecentConversations_column_length. }
  destruct (getRecentConversations_all count (snd first) Hwf1 Hcount1) as [Hc2 Hr2].
  fold second in Hc2, Hr2.
  assert (Hwf2 : List.length (es_metadata (snd second))
                 = List.length (conversations (es_world (snd second)))).
  { subst second. now rewrite getRecentConversations_column_length. }
  assert (Hcount2 : count = 0 \/ Js.len (es_metadata (snd second)) <= count).
  { unfold Js.len in *. subst second.
    now rewrite getRecentConversations_column_length. }
  destruct (getRecentConversations_all count (snd second) Hwf2 Hcount2) as [Hc3 Hr3].
  fold third in Hc3, Hr3.
  assert (Hin1 : In (entry, TextOf metadata)
                   (combine (conversations (es_world (snd first)))
                      (es_metadata (snd first)))).
  { rewrite Hc1. subst first. rewrite getRecentConversations_world.
    apply (in_combine_map_r EpisodicMetadata.parse _ _ _ _ Hin0). }
  assert (Hin2 : In (entry, ObjectOf metadata)
                   (combine (conversations (es_world (snd second)))
                      (es_metadata (snd second)))).
  { rewrite Hc2. subst second. rewrite getRecentConversations_world.
    apply (in_combine_map_r EpisodicMetadata.parse _ _ _ _ Hin1). }
  exists entry. repeat split.
  - exact Hworld.
  - apply (Hr1 _ _ Hin0).
  - apply (Hr2 _ _ Hin1).
  - apply (Hr3 _ _ Hin2).
  - apply Forall_forall. intros [c field] Hret. cbn [snd].
    destruct (getRecentConversations_returned count (snd second) c field Hret)
      as (f2 & Hf2 & ->).
    apply in_combine_r in Hf2. rewrite Hc2 in Hf2.
    apply in_map_iff in Hf2 as (f1 & <- & Hf1). rewrite Hc1 in Hf1.
    apply in_map_iff in Hf1 as (f0 & <- & _). apply parse_thrice.
  - apply Forall_forall. intros field Hfield. rewrite Hc3, Hc2, Hc1 in Hfield.
    rewrite !map_map in Hfield. apply in_map_iff in Hfield as (f0 & <- & _).
    apply parse_thrice.
Qed.

(** ** EpisodicMemory: filtered retrieval and the session summary, with
    the metadata *)

Lemma bounded_entries (bound : option Z) (test : Z -> Z -> bool)
  (l : list (@EpisodicMetadata.Row M)) :
  map EpisodicMetadata.entry (EpisodicMetadata.bounded bound test l)
  = EpisodicOps.bounded bound test (map EpisodicMetadata.entry l).
Proof.
  unfold EpisodicMetadata.bounded, EpisodicOps.bounded.
  destruct bound as [t|]; [|reflexivity].
  destruct (t =? 0); [reflexivity|].
  apply (map_filter_comm EpisodicMetadata.entry (fun c => test t (conv_timestamp c))).
Qed.

Lemma matching_entries (f : ConversationFilter) (l : list (@EpisodicMetadata.Row M)) :
  map EpisodicMetadata.entry (EpisodicMetadata.matching f l)
  = EpisodicOps.matching f (map EpisodicMetadata.entry l).
Proof.
  unfold EpisodicMetadata.matching, EpisodicOps.matching.
  rewrite !bounded_entries. do 2 f_equal.
  destruct (truthy_string (cf_role f)) as [role|].
  - rewrite (map_filter_comm EpisodicMetadata.entry
               (fun c => String.eqb (conv_role c) role)).
    f_equal. destruct (truthy (cf_session_id f)); [|reflexivity].
    apply (map_filter_comm EpisodicMetadata.entry
             (fun c => strict_eq (cf_session_id f) (conv_session c))).
  - destruct (truthy (cf_session_id f)); [|reflexivity].
    apply (map_filter_comm EpisodicMetadata.entry
             (fun c => strict_eq (cf_session_id f) (conv_session c))).
Qed.

Lemma db_all_entries (f : ConversationFilter) (limit offset : Z)
  (l : list (@EpisodicMetadata.Row M)) :
  map EpisodicMetadata.entry (EpisodicMetadata.db_all f limit offset l)
  = EpisodicOps.db_all f limit offset (map EpisodicMetadata.entry l).
Proof.
  unfold EpisodicMetadata.db_all, EpisodicOps.db_all.
  rewrite <- matching_entries.
  rewrite <- (sort_map EpisodicMetadata.entry EpisodicMemory.by_timestamp_desc).
  destruct ((offset =? 0) && (limit =? 0)); [reflexivity|apply slice_map].
Qed.

Lemma matching_sub (f : ConversationFilter) (l : list (@EpisodicMetadata.Row M))
  (r : EpisodicMetadata.Row) :
  In r (EpisodicMetadata.matching f l) -> In r l.
Proof.
  unfold EpisodicMetadata.matching, EpisodicMetadata.bounded. intro H.
  destruct (cf_end_time f) as [t|];
    [destruct (t =? 0); [|apply filter_In in H as [H _]]|];
    (destruct (cf_start_time f) as [t'|];
       [destruct (t' =? 0); [|apply filter_In in H as [H _]]|]);
    (destruct (truthy_string (cf_role f)); [apply filter_In in H as [H _]|]);
    (destruct (truthy (cf_session_id f)); [apply filter_In in H as [H _]|]);
    exact H.
Qed.

Lemma db_all_sub (f : ConversationFilter) (limit offset : Z)
  (l : list (@EpisodicMetadata.Row M)) (r : EpisodicMetadata.Row) :
  In r (EpisodicMetadata.db_all f limit offset l) -> In r l.
Proof.
  unfold EpisodicMetadata.db_all. intro H.
  apply (matching_sub f). apply (sort_In EpisodicMetadata.by_timestamp_desc).
  destruct ((offset =? 0) && (limit =? 0)); [exact H|now apply slice_In in H].
Qed.

Lemma getConversations_entries (f : ConversationFilter) s :
  List.length (es_metadata s) = List.length (conversations (es_world s)) ->
  map fst (fst (EpisodicMetadata.getConversations f s))
  = EpisodicOps.getConversations f (es_world s).
Proof.
  intro H.
  unfold EpisodicMetadata.getConversations, EpisodicMetadata.parse_rows,
    EpisodicOps.getConversations.
  cbn [fst]. rewrite map_map. cbn [fst].
  rewrite <- (rows_conversations s H).
  apply db_all_entries.
Qed.

(** The stored entries with their fields, after a call that returned the
    rows of [page]. *)
Lemma parse_rows_store (page : list (@EpisodicMetadata.Row M)) s :
  List.length (es_metadata s) = List.length (conversations (es_world s)) ->
  let after := snd (EpisodicMetadata.parse_rows page s) in
  combine (conversations (es_world after)) (es_metadata after)
  = map (fun r : EpisodicMetadata.Row =>
           (fst (snd r),
            if existsb (Nat.eqb (fst r)) (map fst page)
            then EpisodicMetadata.parse (snd (snd r)) else snd (snd r)))
      (EpisodicMetadata.rows s).
Proof.
  intros Hwf after. subst after.
  unfold EpisodicMetadata.parse_rows, EpisodicMetadata.rows. cbn [snd es_world es_metadata].
  pose proof (positions_length s) as Hpos.
  revert Hwf Hpos.
  generalize (EpisodicMetadata.positions s) (conversations (es_world s)) (es_metadata s).
  intros p a b. revert a b.
  induction p as [|i p IH]; intros [|x a] [|y b] Hwf Hpos; simpl in *;
    try discriminate; [reflexivity|].
  f_equal. apply IH; [now injection Hwf|now injection Hpos].
Qed.

Lemma parse_rows_column (page : list (@EpisodicMetadata.Row M)) s :
  Forall2 (fun old new => new = old \/ new = EpisodicMetadata.parse old)
    (es_metadata s) (es_metadata (snd (EpisodicMetadata.parse_rows page s))).
Proof.
  unfold EpisodicMetadata.parse_rows. cbn [snd es_metadata].
  apply Forall2_map_combine; [apply positions_length|].
  intros [i field]. cbn [fst snd].
  destruct (existsb _ _); [now right|now left].
Qed.

(** A returned entry is a stored one with its field parsed, and the
    store holds it with that parsed field. *)
Lemma getConversations_returned (f : ConversationFilter) s (c : Conversation) field :
  List.length (es_metadata s) = List.length (conversations (es_world s)) ->
  let result := EpisodicMetadata.getConversations f s in
  In (c, field) (fst result) ->
  (exists stored,
     In (c, stored) (combine (conversations (es_world s)) (es_metadata s))
     /\ field = EpisodicMetadata.parse stored)
  /\ In (c, field)
       (combine (conversations (es_world (snd result))) (es_metadata (snd result))).
Proof.
  intros Hwf result Hin. subst result.
  unfold EpisodicMetadata.getConversations in *.
  set (page := EpisodicMetadata.db_all f _ _ (EpisodicMetadata.rows s)) in *.
  assert (Hpage : exists i stored,
             In (i, (c, stored)) page /\ field = EpisodicMetadata.parse stored).
  { unfold EpisodicMetadata.parse_rows in Hin. cbn [fst] in Hin.
    apply in_map_iff in Hin as ([i [c' stored]] & [= <- <-] & Hr).
    now exists i, stored. }
  destruct Hpage as (i & stored & Hr & ->).
  assert (Hrow : In (i, (c, stored)) (EpisodicMetadata.rows s)).
  { subst page. now apply db_all_sub in Hr. }
  split.
  - exists stored. split; [|reflexivity].
    unfold EpisodicMetadata.rows in Hrow. now apply in_combine_r in Hrow.
  - rewrite (parse_rows_store page s Hwf).
    apply in_map_iff. exists (i, (c, stored)). split; [|exact Hrow].
    cbn [fst snd].
    replace (existsb (Nat.eqb i) (map fst page)) with true; [reflexivity|].
    symmetry. apply existsb_exists. exists i. split; [|apply Nat.eqb_refl].
    apply in_map_iff. now exists (i, (c, stored)).
Qed.

(** [getConversations] returns the entries that
    [EpisodicOps.getConversations] lists, each a stored entry with its
    field parsed once, and the store holds each returned entry with that
    parsed field; every stored field is as before or parsed once, and
    nothing else of the store changes. *)
Theorem getConversations_parses_in_place :
  forall (s : EntryStore M) (f : ConversationFilter),
    List.length (es_metadata s) = List.length (conversations (es_world s)) ->
    let result := EpisodicMetadata.getConversations f s in
    map fst (fst result) = EpisodicOps.getConversations f (es_world s)
    /\ (forall c field, In (c, field) (fst result) ->
          (exists stored,
             In (c, stored) (combine (conversations (es_world s)) (es_metadata s))
             /\ field = EpisodicMetadata.parse stored)
          /\ In (c, field)
               (combine (conversations (es_world (snd result)))
                  (es_metadata (snd result))))
    /\ Forall2 (fun old new => new = old \/ new = EpisodicMetadata.parse old)
         (es_metadata s) (es_metadata (snd result))
    /\ es_world (snd result) = es_world s.
Proof.
  intros s f Hwf result. subst result.
  split; [|split; [|split]].
  - now apply getConversations_entries.
  - intros c field Hin. now apply (getConversations_returned f s c field Hwf).
  - apply parse_rows_column.
  - reflexivity.
Qed.

Lemma rows_NoDup s :
  List.length (es_metadata s) = List.length (conversations (es_world s)) ->
  NoDup (map fst (EpisodicMetadata.rows s)).
Proof.
  intro Hwf. rewrite (rows_positions s Hwf). apply seq_NoDup.
Qed.

(** The rows of one session, when they fit in the limit: the call
    returns all of them, so the fields of the session are the ones that
    are parsed. *)
Lemma getConversations_session_column (session_id : CtxVal) (limit : Z) s :
  List.length (es_metadata s) = List.length (conversations (es_world s)) ->
  truthy session_id = true ->
  0 < limit ->
  Js.len (filter (fun c => strict_eq session_id (conv_session c))
            (conversations (es_world s))) <= limit ->
  es_metadata (snd (EpisodicMetadata.getConversations
                      (EpisodicOps.session_only session_id limit) s))
  = map (fun e => if strict_eq session_id (conv_session (fst e))
                  then EpisodicMetadata.parse (snd e) else snd e)
      (combine (conversations (es_world s)) (es_metadata s)).
Proof.
  intros Hwf Htruthy Hlimit Hfit.
  unfold EpisodicMetadata.getConversations.
  cbn [EpisodicOps.session_only cf_limit cf_offset].
  set (in_session := fun c => strict_eq session_id (conv_session c)) in *.
  set (chosen := filter (fun r : EpisodicMetadata.Row =>
                           in_session (EpisodicMetadata.entry r))
                   (EpisodicMetadata.rows s)).
  assert (Hlen : List.length chosen
                 = List.length (filter in_session (conversations (es_world s)))).
  { rewrite <- (rows_conversations s Hwf).
    change (fun r : EpisodicMetadata.Row => fst (snd r))
      with (@EpisodicMetadata.entry M).
    rewrite <- (map_filter_comm EpisodicMetadata.entry in_session).
    now rewrite length_map. }
  assert (Hpage : EpisodicMetadata.db_all (EpisodicOps.session_only session_id limit)
                    limit 0 (EpisodicMetadata.rows s)
                  = Js.sort EpisodicMetadata.by_timestamp_desc chosen).
  { unfold EpisodicMetadata.db_all, EpisodicMetadata.matching, EpisodicMetadata.bounded.
    cbn [EpisodicOps.session_only cf_session_id cf_role cf_start_time cf_end_time].
    rewrite Htruthy. cbn [truthy_string]. fold in_session. fold chosen.
    destruct (Z.eqb_spec limit 0) as [|_]; [lia|].
    rewrite Bool.andb_false_r.
    rewrite (slice_window 0 limit) by lia.
    cbn [Z.to_nat skipn]. apply firstn_all2.
    rewrite sort_length, Hlen. unfold Js.len in Hfit. lia. }
  rewrite Hpage. unfold EpisodicMetadata.parse_rows. cbn [snd es_metadata].
  rewrite (combine_outer (EpisodicMetadata.positions s) (conversations (es_world s))
             (es_metadata s)) by (rewrite ?positions_length; congruence).
  rewrite <- (map_snd_combine_eq (EpisodicMetadata.positions s)
                (combine (conversations (es_world s)) (es_metadata s))) at 2
    by (rewrite length_combine, positions_length, <- Hwf; lia).
  change (combine (EpisodicMetadata.positions s)
            (combine (conversations (es_world s)) (es_metadata s)))
    with (EpisodicMetadata.rows s).
  rewrite !map_map. apply map_ext_in. intros [i [c stored]] Hrow. cbn [fst snd].
  replace (existsb (Nat.eqb i)
             (map fst (Js.sort EpisodicMetadata.by_timestamp_desc chosen)))
    with (in_session c); [reflexivity|].
  destruct (in_session c) eqn:Hc; symmetry.
  - apply existsb_exists. exists i. split; [|apply Nat.eqb_refl].
    apply in_map_iff. exists (i, (c, stored)). split; [reflexivity|].
    apply sort_In. apply filter_In. split; [exact Hrow|exact Hc].
  - apply Bool.not_true_is_false. intro Hex.
    apply existsb_exists in Hex as (j & Hj & Heq).
    apply Nat.eqb_eq in Heq. subst j.
    apply in_map_iff in Hj as ([i' [c' stored']] & Hi & Hr). cbn [fst] in Hi. subst i'.
    apply sort_In in Hr. apply filter_In in Hr as [Hr Hc'].
    pose proof (NoDup_map_fst_inj _ _ _ _ (rows_NoDup s Hwf) Hrow Hr) as Hsame.
    injection Hsame as <- <-. cbn [EpisodicMetadata.entry fst snd] in Hc'.
    congruence.
Qed.

(** With a session id in the short-term store, the summary, the
    summaries and the world of [EpisodicMetadata.summarizeCurrentSession]
    are those of [EpisodicOps.summarizeCurrentSession], and the fields
    are those that its call of [getConversations] leaves. *)
Lemma summarizeCurrentSession_projection s (summaries : list Summary) :
  List.length (es_metadata s) = List.length (conversations (es_world s)) ->
  truthy (ShortTermMemory.getContext "session_id" (es_world s)) = true ->
  let result := EpisodicMetadata.summarizeCurrentSession (s, summaries) in
  let plain := EpisodicOps.summarizeCurrentSession (es_world s, summaries) in
  fst result = fst plain
  /\ es_world (fst (snd result)) = fst (snd plain)
  /\ snd (snd result) = snd (snd plain)
  /\ es_metadata (fst (snd result))
     = es_metadata
         (snd (EpisodicMetadata.getConversations
                 (EpisodicOps.session_only
                    (ShortTermMemory.getContext "session_id" (es_world s)) 100) s)).
Proof.
  intros Hwf Htruthy result plain. subst result plain.
  destruct s as [w column]. cbn [es_world es_metadata] in *.
  unfold EpisodicMetadata.summarizeCurrentSession, EpisodicOps.summarizeCurrentSession.
  cbn [es_world es_metadata]. rewrite Htruthy.
  set (f := EpisodicOps.session_only (ShortTermMemory.getContext "session_id" w) 100).
  pose proof (getConversations_entries f (mkEntryStore w column) Hwf) as Hentries.
  cbn [es_world] in Hentries.
  destruct (EpisodicMetadata.getConversations f (mkEntryStore w column))
    as [returned s1] eqn:Hget.
  assert (Hworld : es_world s1 = w).
  { change s1 with (snd (returned, s1)). now rewrite <- Hget. }
  cbn [fst snd] in *. rewrite Hentries.
  destruct (EpisodicOps.getConversations f w) as [|c0 rest].
  - cbn [fst snd]. now rewrite Hworld.
  - destruct (EpisodicMemory.MEMORY_SYSTEM_summarizeConversations (c0 :: rest))
      as [summary after].
    destruct (EpisodicOps.storeSummary _ _ _ _ _ _) as [id summaries'].
    rewrite Hworld.
    destruct (ShortTermMemory.storeContext "conversation_summary" (VStr summary) w)
      as [stored w2].
    cbn [fst snd es_world es_metadata]. now repeat split.
Qed.

(** Called as [MEMORY_SYSTEM.summarizeCurrentSession()], the method
    records the error text of [summarizeConversations] as the summary of
    every session that has entries: it returns that text, appends a
    summary row carrying it (with the number of entries and their
    earliest and latest timestamps) and stores it under
    ["conversation_summary"].  The stored entries keep their id, session,
    role, content and timestamp; of their [metadata] fields each is as
    before or parsed once more, and when the session has at most 100
    entries the fields parsed are exactly those of the entries of the
    session.  For a session without entries it returns [null] and
    changes nothing. *)
Theorem summarizeCurrentSession_records_error :
  forall (s : EntryStore M) (summaries : list Summary) (session : string),
    List.length (es_metadata s) = List.length (conversations (es_world s)) ->
    ShortTermMemory.getContext "session_id" (es_world s) = VStr session ->
    session <> "" ->
    let in_session := fun c => strict_eq (VStr session) (conv_session c) in
    let entries := EpisodicOps.getConversations
                     (EpisodicOps.session_only (VStr session) 100) (es_world s) in
    let result := EpisodicMetadata.summarizeCurrentSession (s, summaries) in
    let after := fst (snd result) in
    (entries = [] -> result = (None, (s, summaries)))
    /\ (entries <> [] ->
        fst result = Some "Error generating summary."
        /\ (exists row,
              snd (snd result) = summaries ++ [row]
              /\ sum_summary row = "Error generating summary."
              /\ sum_session_id row = VStr session
              /\ sum_message_count row = Js.len entries
              /\ (forall c, In c entries ->
                    sum_start_time row <= conv_timestamp c <= sum_end_time row))
        /\ ShortTermMemory.getContext "conversation_summary" (es_world after)
           = VStr "Error generating summary."
        /\ conversations (es_world after) = conversations (es_world s)
        /\ Forall2 (fun old new => new = old \/ new = EpisodicMetadata.parse old)
             (es_metadata s) (es_metadata after)
        /\ (Js.len (filter in_session (conversations (es_world s))) <= 100 ->
            es_metadata after
            = map (fun e => if in_session (fst e)
                            then EpisodicMetadata.parse (snd e) else snd e)
                (combine (conversations (es_world s)) (es_metadata s)))).
Proof.
  intros s summaries session Hwf Hsession Hne in_session entries result after.
  assert (Htruthy : truthy (VStr session) = true).
  { simpl. destruct (String.eqb_spec session ""); [contradiction|reflexivity]. }
  destruct (summarizeCurrentSession_projection s summaries Hwf) as (Hret & Hw & Hsum & Hcol).
  { now rewrite Hsession. }
  fold result in Hret, Hw, Hsum, Hcol. fold after in Hw, Hcol.
  rewrite Hsession in Hcol.
  destruct (summarizeCurrentSession_world (es_world s) summaries session Hsession Hne)
    as [Hnone Hsome].
  fold entries in Hnone, Hsome.
  split.
  - intro Hempty. specialize (Hnone Hempty).
    assert (Hpage : EpisodicMetadata.db_all (EpisodicOps.session_only (VStr session) 100)
                      100 0 (EpisodicMetadata.rows s) = []).
    { pose proof (getConversations_entries
                    (EpisodicOps.session_only (VStr session) 100) s Hwf) as Hent.
      fold entries in Hent. rewrite Hempty in Hent.
      unfold EpisodicMetadata.getConversations, EpisodicMetadata.parse_rows in Hent.
      cbn [fst EpisodicOps.session_only cf_limit cf_offset] in Hent.
      rewrite map_map in Hent. now apply map_eq_nil in Hent. }
    assert (Hsame : es_metadata after = es_metadata s).
    { rewrite Hcol. unfold EpisodicMetadata.getConversations.
      cbn [EpisodicOps.session_only cf_limit cf_offset]. rewrite Hpage.
      unfold EpisodicMetadata.parse_rows. cbn [snd es_metadata map existsb].
      apply map_snd_combine_eq, positions_length. }
    rewrite Hnone in Hret, Hw, Hsum. cbn [fst snd] in Hret, Hw, Hsum.
    subst after. destruct result as [ret [s' summaries']].
    cbn [fst snd] in *. subst ret summaries'.
    destruct s' as [w' column'], s as [w column]. cbn [es_world es_metadata] in *.
    now rewrite Hw, Hsame.
  - intro Hfull. destruct (Hsome Hfull) as (Hr & Hrow & Hctx & Hconv).
    split; [now rewrite Hret|]. split; [now rewrite Hsum|].
    split; [now rewrite Hw|]. split; [now rewrite Hw|]. split.
    + rewrite Hcol. apply parse_rows_column.
    + intro Hfit. rewrite Hcol.
      apply (getConversations_session_column (VStr session) 100 s Hwf Htruthy);
        [lia|exact Hfit].
Qed.

End MetadataFacts.

(** A run of the theorem: two stored entries, one already read once; a
    retrieval of the newest one parses its field only. *)
Lemma getRecentConversations_parses_in_place_witness :
  let s := mkEntryStore
             (Samples.world_with_conversations
                [mkConversation 1 (VStr "session_1") "user" "hello" 5;
                 mkConversation 2 (VStr "session_1") "assistant" "hi" 6])
             [TextOf "kind"; TextOfText "tone"] in
  fst (EpisodicMetadata.getRecentConversations 1 s)
  = [(mkConversation 2 (VStr "session_1") "assistant" "hi" 6, TextOf "tone")]
  /\ es_metadata (snd (EpisodicMetadata.getRecentConversations 1 s))
     = [TextOf "kind"; TextOf "tone"]
  /\ es_metadata (snd (EpisodicMetadata.getRecentConversations 2 s))
     = map EpisodicMetadata.parse (es_metadata s).
Proof.
  intro s.
  destruct (getRecentConversations_parses_in_place s 2 eq_refl) as (_ & _ & _ & Hall & _).
  split; [vm_compute; reflexivity|].
  split; [vm_compute; reflexivity|].
  apply Hall. right. vm_compute. discriminate.
Defined.

(** A run of the theorem: an entry stored with metadata in an empty
    store and read three times with the default count. *)
Lemma metadata_gone_after_three_reads_witness :
  let s := mkEntryStore (Samples.world_with_conversations []) [] in
  let stored := EpisodicMetadata.storeConversation "user" "hello" VNull None "kind" s in
  let first := EpisodicMetadata.getRecentConversations 10 (snd stored) in
  let second := EpisodicMetadata.getRecentConversations 10 (snd first) in
  let third := EpisodicMetadata.getRecentConversations 10 (snd second) in
  map snd (fst first) = [TextOf "kind"]
  /\ map snd (fst second) = [ObjectOf "kind"]
  /\ Forall (fun returned => snd returned = EmptyObject) (fst third).
Proof.
  intros s stored first second third.
  destruct (metadata_gone_after_three_reads s "user" "hello" VNull None "kind" 10)
    as (entry & _ & _ & _ & _ & _ & _ & Hthird & _).
  - reflexivity.
  - right. vm_compute. discriminate.
  - split; [vm_compute; reflexivity|].
    split; [vm_compute; reflexivity|].
    exact Hthird.
Defined.

(** A run of the theorem: the second entry belongs to another session
    and keeps its field. *)
Lemma getConversations_parses_in_place_witness :
  let s := mkEntryStore
             (Samples.world_with_conversations
                [mkConversation 1 (VStr "session_1") "user" "hello" 5;
                 mkConversation 2 (VStr "session_2") "assistant" "hi" 6])
             [TextOfText "kind"; TextOfText "tone"] in
  let result := EpisodicMetadata.getConversations
                  (EpisodicOps.session_only (VStr "session_1") 100) s in
  fst result = [(mkConversation 1 (VStr "session_1") "user" "hello" 5, TextOf "kind")]
  /\ es_metadata (snd result) = [TextOf "kind"; TextOfText "tone"]
  /\ es_world (snd result) = es_world s.
Proof.
  intros s result.
  destruct (getConversations_parses_in_place s
              (EpisodicOps.session_only (VStr "session_1") 100) eq_refl)
    as (_ & _ & _ & Hworld).
  split; [vm_compute; reflexivity|].
  split; [vm_compute; reflexivity|exact Hworld].
Defined.

(** A run of the theorem: the session of the sample world has twenty-one
    entries, each stored with metadata. *)
Lemma summarizeCurrentSession_records_error_witness :
  let w := Samples.world_with_conversations Samples.buried_user_turn in
  let s := mkEntryStore w (map (fun _ => TextOfText "kind") (conversations w)) in
  let result := EpisodicMetadata.summarizeCurrentSession (s, []) in
  fst result = Some "Error generating summary."
  /\ ShortTermMemory.getContext "conversation_summary" (es_world (fst (snd result)))
     = VStr "Error generating summary."
  /\ Forall (fun field => field = TextOf "kind") (es_metadata (fst (snd result))).
Proof.
  intros w s result.
  destruct (summarizeCurrentSession_records_error s [] "session_1")
    as (_ & Hsome).
  - reflexivity.
  - reflexivity.
  - discriminate.
  - destruct Hsome as (Hret & _ & Hctx & _ & _ & Hcolumn); [vm_compute; discriminate|].
    split; [exact Hret|]. split; [exact Hctx|].
    fold result in Hcolumn. rewrite Hcolumn; [|vm_compute; discriminate].
    vm_compute. repeat constructor.
Defined.

(** ** SystemCore: registering components *)

Lemma missing_fold (g : Globals) (required acc : list string) :
  fold_left
    (fun missing component =>
       if negb (SystemCore.isComponentActive component g) then missing ++ [component]
       else missing)
    required acc
  = acc ++ filter (fun c => negb (SystemCore.isComponentActive c g)) required.
Proof.
  revert acc. induction required as [|c required IH]; intro acc; simpl.
  - now rewrite app_nil_r.
  - rewrite IH. destruct (SystemCore.isComponentActive c g); simpl; [reflexivity|].
    now rewrite <- app_assoc.
Qed.

Lemma checkRequiredComponents_spec (required : list string) (g : Globals) :
  SystemCore.checkRequiredComponents required g = true
  <-> forall c, In c required -> SystemCore.isComponentActive c g = true.
Proof.
  unfold SystemCore.checkRequiredComponents. rewrite missing_fold. cbn [app].
  induction required as [|c required IH]; simpl.
  - split; [intros _ c []|reflexivity].
  - destruct (SystemCore.isComponentActive c g) eqn:Hc; simpl.
    + rewrite IH. split.
      * intros H c' [<-|Hc']; [exact Hc|now apply H].
      * intros H c' Hc'. apply H. now right.
    + split.
      * unfold Js.len. cbn [List.length].
        destruct (Z.ltb_spec 0 (Z.of_nat (S (List.length
                    (filter (fun c0 => negb (SystemCore.isComponentActive c0 g))
                       required))))); [discriminate|lia].
      * intro H. specialize (H c (or_introl eq_refl)). congruence.
Qed.

(** After [registerComponent(name)] the component is active, the state of
    every other component is as before, and
    [checkRequiredComponents(required)] answers [true] exactly when each
    required component is the registered one or was active already.  The
    banners are not touched. *)
Theorem registerComponent_activates :
  forall (g : Globals) (name : string) (version : option string)
         (required : list string),
    let result := SystemCore.registerComponent name version g in
    fst result = true
    /\ SystemCore.isComponentActive name (snd result) = true
    /\ (forall other, other <> name ->
          SystemCore.isComponentActive other (snd result)
          = SystemCore.isComponentActive other g)
    /\ (SystemCore.checkRequiredComponents required (snd result) = true
        <-> forall c, In c required ->
              c = name \/ SystemCore.isComponentActive c g = true)
    /\ nextResponsePrepend (snd result) = nextResponsePrepend g.
Proof.
  intros g name version required. cbv zeta.
  set (result := SystemCore.registerComponent name version g).
  assert (Hname : SystemCore.isComponentActive name (snd result) = true).
  { subst result.
    unfold SystemCore.registerComponent, SystemCore.now, host_now,
      SystemCore.isComponentActive.
    cbn [snd]. destruct (String.eqb name "__proto__");
      cbn [components_prototype active_components]; [reflexivity|].
    now rewrite obj_get_set_same. }
  assert (Hother : forall other, other <> name ->
            SystemCore.isComponentActive other (snd result)
            = SystemCore.isComponentActive other g).
  { intros other Hne. subst result.
    unfold SystemCore.registerComponent, SystemCore.now, host_now,
      SystemCore.isComponentActive.
    cbn [snd].
    destruct (String.eqb_spec name "__proto__") as [Hn|Hn],
             (String.eqb_spec other "__proto__") as [Ho|Ho];
      cbn [components_prototype active_components]; try reflexivity.
    - congruence.
    - now rewrite obj_get_set_other. }
  split; [reflexivity|]. split; [exact Hname|]. split; [exact Hother|].
  split.
  - rewrite checkRequiredComponents_spec. split.
    + intros H c Hc. destruct (string_dec c name) as [->|Hne]; [now left|right].
      rewrite <- (Hother c Hne). now apply H.
    + intros H c Hc. destruct (string_dec c name) as [->|Hne]; [exact Hname|].
      rewrite (Hother c Hne).
      destruct (H c Hc) as [->|Hactive]; [contradiction|exact Hactive].
  - subst result. unfold SystemCore.registerComponent, SystemCore.now, host_now.
    cbn [snd]. now destruct (String.eqb name "__proto__").
Qed.

(** ** SystemCore: the banners *)

Lemma existsb_eqb_In (banner : string) (l : list string) :
  existsb (fun b => String.eqb b banner) l = true <-> In banner l.
Proof.
  rewrite existsb_exists. split.
  - intros (b & Hb & Heq). apply String.eqb_eq in Heq. now subst.
  - intro H. exists banner. split; [exact H|apply String.eqb_refl].
Qed.

Lemma add_banner_spec (banner : string) (l : list string) :
  let l' := if existsb (fun b => String.eqb b banner) l then l else l ++ [banner] in
  In banner l'
  /\ (exists added,
        l' = l ++ added /\ (List.length added <= 1)%nat
        /\ forall b, In b added -> b = banner /\ ~ In b l)
  /\ (NoDup l -> NoDup l').
Proof.
  cbv zeta. destruct (existsb (fun b => String.eqb b banner) l) eqn:Hexists.
  - apply existsb_eqb_In in Hexists. split; [exact Hexists|]. split; [|tauto].
    exists []. rewrite app_nil_r. split; [reflexivity|]. split; [simpl; lia|intros b []].
  - assert (Hnotin : ~ In banner l).
    { intro H. apply existsb_eqb_In in H. congruence. }
    split; [apply in_or_app; right; now left|]. split.
    + exists [banner]. split; [reflexivity|]. split; [simpl; lia|].
      intros b [<-|[]]. now split.
    + intro Hnd. apply NoDup_app; [exact Hnd|constructor; [tauto|constructor]|].
      intros b Hb [<-|[]]. contradiction.
Qed.

Lemma forceBanners_banners (g : Globals) :
  SystemCore.banners (snd (SystemCore.forceBanners g))
  = (fun l1 =>
       if existsb (fun b => String.eqb b
                              (SystemCore.componentsBanner
                                 (Js.len (SystemCore.getActiveComponents g)))) l1
       then l1
       else l1 ++ [SystemCore.componentsBanner
                     (Js.len (SystemCore.getActiveComponents g))])
      (if existsb (fun b => String.eqb b SystemCore.systemBanner) (SystemCore.banners g)
       then SystemCore.banners g
       else SystemCore.banners g ++ [SystemCore.systemBanner]).
Proof. reflexivity. Qed.

Lemma forceBanners_components (g : Globals) :
  active_components (snd (SystemCore.forceBanners g)) = active_components g.
Proof. reflexivity. Qed.

(** [forceBanners] answers [true]; afterwards the banners hold the system
    banner and the banner with the number of active components.  It
    appends at most these two, never one that is already there, so
    banners without duplicates stay so; the components are not touched,
    and a second call changes nothing. *)
Theorem forceBanners_shows_status :
  forall (g : Globals),
    let result := SystemCore.forceBanners g in
    let count := Js.len (SystemCore.getActiveComponents g) in
    fst result = true
    /\ In SystemCore.systemBanner (SystemCore.banners (snd result))
    /\ In (SystemCore.componentsBanner count) (SystemCore.banners (snd result))
    /\ (exists added,
          SystemCore.banners (snd result) = SystemCore.banners g ++ added
          /\ (List.length added <= 2)%nat
          /\ forall b, In b added -> ~ In b (SystemCore.banners g))
    /\ (NoDup (SystemCore.banners g) -> NoDup (SystemCore.banners (snd result)))
    /\ active_components (snd result) = active_components g
    /\ SystemCore.forceBanners (snd result) = (true, snd result).
Proof.
  intros g result count.
  pose proof (forceBanners_banners g) as Hbanners.
  change (SystemCore.forceBanners g) with result in Hbanners.
  change (Js.len (SystemCore.getActiveComponents g)) with count in Hbanners.
  cbv beta in Hbanners.
  set (l0 := SystemCore.banners g) in *.
  destruct (add_banner_spec SystemCore.systemBanner l0)
    as (Hs1 & (a1 & Ha1 & Hl1 & Hn1) & Hd1).
  cbv zeta in Hs1, Ha1, Hd1.
  set (l1 := if existsb (fun b => String.eqb b SystemCore.systemBanner) l0
             then l0 else l0 ++ [SystemCore.systemBanner]) in *.
  destruct (add_banner_spec (SystemCore.componentsBanner count) l1)
    as (Hs2 & (a2 & Ha2 & Hl2 & Hn2) & Hd2).
  cbv zeta in Hs2, Ha2, Hd2. rewrite <- Hbanners in Hs2, Ha2, Hd2.
  assert (Hsys : In SystemCore.systemBanner (SystemCore.banners (snd result))).
  { rewrite Ha2. apply in_or_app. now left. }
  assert (Hfilled : (0 <? Js.len (SystemCore.banners (snd result))) = true).
  { destruct (SystemCore.banners (snd result)) eqn:E; [contradiction|reflexivity]. }
  split; [exact Hfilled|]. split; [exact Hsys|]. split; [exact Hs2|].
  split; [|split; [|split]].
  - exists (a1 ++ a2). split; [|split].
    + rewrite Ha2, Ha1. now rewrite app_assoc.
    + rewrite length_app. lia.
    + intros b Hb. apply in_app_or in Hb as [Hb|Hb].
      * now apply Hn1.
      * destruct (Hn2 b Hb) as [_ Hnot]. intro Hin. apply Hnot.
        rewrite Ha1. apply in_or_app. now left.
  - intro Hnd. now apply Hd2, Hd1.
  - reflexivity.
  - assert (Hagain : SystemCore.banners (snd (SystemCore.forceBanners (snd result)))
                     = SystemCore.banners (snd result)).
    { rewrite forceBanners_banners.
      change (Js.len (SystemCore.getActiveComponents (snd result))) with count.
      apply existsb_eqb_In in Hsys. rewrite Hsys.
      apply existsb_eqb_In in Hs2. now rewrite Hs2. }
    change (SystemCore.forceBanners (snd result))
      with ((0 <? Js.len (SystemCore.banners
                            (snd (SystemCore.forceBanners (snd result))))),
            mkGlobals (g_host (snd result)) (active_components (snd result))
              (components_prototype (snd result))
              (Some (SystemCore.banners
                       (snd (SystemCore.forceBanners (snd result)))))).
    rewrite Hagain, Hfilled. reflexivity.
Qed.

Lemma strlen_append (a b : string) :
  String.length (a ^^ b) = (String.length a + String.length b)%nat.
Proof. induction a as [|c a IH]; simpl; [reflexivity|now rewrite IH]. Qed.

Lemma append_inj_right (a b s : string) : a ^^ s = b ^^ s -> a = b.
Proof.
  revert b. induction a as [|c a IH]; intros [|c' b] H; simpl in H.
  - reflexivity.
  - apply (f_equal String.length) in H. simpl in H. rewrite strlen_append in H. lia.
  - apply (f_equal String.length) in H. simpl in H. rewrite strlen_append in H. lia.
  - injection H as -> H. f_equal. now apply IH.
Qed.

Lemma componentsBanner_inj (n m : Z) :
  SystemCore.componentsBanner n = SystemCore.componentsBanner m -> n = m.
Proof.
  unfold SystemCore.componentsBanner. intro H.
  apply append_inj_left, append_inj_right in H. now apply show_int_inj.
Qed.

Lemma filter_partition_perm {A : Type} (p : A -> bool) (l : list A) :
  Permutation (filter p l ++ filter (fun x => negb (p x)) l) l.
Proof.
  induction l as [|x l IH]; simpl; [constructor|].
  destruct (p x); simpl.
  - now constructor.
  - apply Permutation_sym. eapply perm_trans; [|apply Permutation_middle].
    constructor. now apply Permutation_sym.
Qed.

Lemma entries_perm {V : Type} (o : list (string * V)) : Permutation (Js.entries o) o.
Proof.
  unfold Js.entries. eapply perm_trans; [|apply (filter_partition_perm Js.is_index_key)].
  apply Permutation_app_tail, Permutation_sym, sort_perm.
Qed.

Lemma obj_set_length_fresh {V : Type} (k : string) (v : V) (o : list (string * V)) :
  Js.obj_get k o = None -> List.length (Js.obj_set k v o) = S (List.length o).
Proof.
  induction o as [|[k' v'] o IH]; simpl; [reflexivity|].
  destruct (String.eqb k k'); [discriminate|].
  intro H. simpl. now rewrite IH.
Qed.

Lemma active_fold_count (l acc : list (string * Component)) :
  NoDup (map fst l) ->
  (forall k, In k (map fst l) -> Js.obj_get k acc = None) ->
  List.length
    (fold_left
       (fun activeComponents entry =>
          if SystemCore.is_active (snd entry)
          then Js.obj_set (fst entry) (snd entry) activeComponents
          else activeComponents) l acc)
  = (List.length acc
     + List.length (filter (fun e => SystemCore.is_active (snd e)) l))%nat.
Proof.
  revert acc. induction l as [|[k d] l IH]; intros acc Hnd Hfresh; simpl.
  - lia.
  - inversion Hnd as [|? ? Hnotin Hnd']; subst.
    destruct (SystemCore.is_active d); cbn [fst snd].
    + rewrite IH.
      * rewrite obj_set_length_fresh by (apply Hfresh; now left). simpl. lia.
      * exact Hnd'.
      * intros k' Hk'. rewrite obj_get_set_other.
        -- apply Hfresh. now right.
        -- intros ->. contradiction.
    + apply IH; [exact Hnd'|]. intros k' Hk'. apply Hfresh. now right.
Qed.

Lemma getActiveComponents_count (g : Globals) :
  NoDup (map fst (active_components g)) ->
  List.length (SystemCore.getActiveComponents g)
  = List.length (filter (fun e => SystemCore.is_active (snd e)) (active_components g)).
Proof.
  intro Hnd. unfold SystemCore.getActiveComponents.
  rewrite active_fold_count.
  - simpl. apply filter_length_perm, entries_perm.
  - apply (Permutation_NoDup (Permutation_map fst (Permutation_sym (entries_perm _)))).
    exact Hnd.
  - reflexivity.
Qed.

Lemma filter_active_obj_set (name : string) (details : Component)
  (components : list (string * Component)) :
  SystemCore.is_active details = true ->
  match Js.obj_get name components with
  | Some d => SystemCore.is_active d
  | None => false
  end = false ->
  List.length (filter (fun e => SystemCore.is_active (snd e))
                 (Js.obj_set name details components))
  = S (List.length (filter (fun e => SystemCore.is_active (snd e)) components)).
Proof.
  intro Hactive. induction components as [|[k d] o IH]; simpl; intro Hwas.
  - now rewrite Hactive.
  - destruct (String.eqb name k); simpl.
    + now rewrite Hactive, Hwas.
    + destruct (SystemCore.is_active d); simpl; now rewrite IH.
Qed.

Lemma registerComponent_components (name : string) (version : option string)
  (g : Globals) :
  name <> "__proto__" ->
  active_components (snd (SystemCore.registerComponent name version g))
  = Js.obj_set name
      (mkComponent (match version with Some v => v | None => "1.0.0" end)
         (clock (g_host g) (ticks (g_host g))) "active")
      (active_components g).
Proof.
  intro Hname. unfold SystemCore.registerComponent, SystemCore.now, host_now.
  cbn [snd]. destruct (String.eqb_spec name "__proto__"); [contradiction|reflexivity].
Qed.

(** The banner with the number of active components is added, never
    replaced: the components having distinct names, when a component
    that was not active is registered between two calls of
    [forceBanners] under a name other than [__proto__], the count goes
    up by one and the banners afterwards hold both the banner of the old
    count and that of the new one. *)
Theorem forceBanners_keeps_stale_count :
  forall (g : Globals) (name : string) (version : option string),
    NoDup (map fst (active_components g)) ->
    name <> "__proto__" ->
    SystemCore.isComponentActive name g = false ->
    let shown := snd (SystemCore.forceBanners g) in
    let registered := snd (SystemCore.registerComponent name version shown) in
    let result := snd (SystemCore.forceBanners registered) in
    let n := Js.len (SystemCore.getActiveComponents g) in
    Js.len (SystemCore.getActiveComponents registered) = n + 1
    /\ In (SystemCore.componentsBanner n) (SystemCore.banners result)
    /\ In (SystemCore.componentsBanner (n + 1)) (SystemCore.banners result)
    /\ SystemCore.componentsBanner n <> SystemCore.componentsBanner (n + 1).
Proof.
  intros g name version Hnd Hname Hinactive shown registered result n.
  assert (Hown : match Js.obj_get name (active_components g) with
                 | Some d => SystemCore.is_active d
                 | None => false
                 end = false).
  { unfold SystemCore.isComponentActive in Hinactive.
    now destruct (String.eqb_spec name "__proto__"). }
  assert (Hcount : Js.len (SystemCore.getActiveComponents registered) = n + 1).
  { subst n. unfold Js.len. rewrite !getActiveComponents_count.
    - subst registered shown. rewrite registerComponent_components by exact Hname.
      rewrite forceBanners_components.
      rewrite filter_active_obj_set; [lia|reflexivity|exact Hown].
    - exact Hnd.
    - subst registered shown. rewrite registerComponent_components by exact Hname.
      rewrite forceBanners_components.
      now apply obj_set_keys_NoDup. }
  assert (Hold : In (SystemCore.componentsBanner n) (SystemCore.banners registered)).
  { assert (Hsame : SystemCore.banners registered = SystemCore.banners shown).
    { subst registered. unfold SystemCore.registerComponent, SystemCore.now, host_now.
      cbn [snd]. now destruct (String.eqb name "__proto__"). }
    rewrite Hsame.
    subst shown. rewrite forceBanners_banners. fold n.
    apply (add_banner_spec (SystemCore.componentsBanner n)). }
  split; [exact Hcount|]. split; [|split].
  - subst result. rewrite forceBanners_banners.
    destruct (add_banner_spec (SystemCore.componentsBanner
                                 (Js.len (SystemCore.getActiveComponents registered)))
                (if existsb (fun b => String.eqb b SystemCore.systemBanner)
                      (SystemCore.banners registered)
                 then SystemCore.banners registered
                 else SystemCore.banners registered ++ [SystemCore.systemBanner]))
      as (_ & (a2 & -> & _) & _).
    apply in_or_app. left.
    destruct (add_banner_spec SystemCore.systemBanner (SystemCore.banners registered))
      as (_ & (a1 & -> & _) & _).
    apply in_or_app. now left.
  - subst result. rewrite forceBanners_banners, Hcount.
    apply (add_banner_spec (SystemCore.componentsBanner (n + 1))).
  - intro H. apply componentsBanner_inj in H. lia.
Qed.

(** A run of the theorem: the memory system registers after the core. *)
Lemma forceBanners_keeps_stale_count_witness :
  let g := snd (SystemCore.registerComponent "system_core" None
                  (mkGlobals Samples.host0 [] None None)) in
  let shown := snd (SystemCore.forceBanners g) in
  let registered := snd (SystemCore.registerComponent "memory_system" None shown) in
  SystemCore.banners (snd (SystemCore.forceBanners registered))
  = [SystemCore.systemBanner; SystemCore.componentsBanner 1;
     SystemCore.componentsBanner 2]
  /\ In (SystemCore.componentsBanner 1)
       (SystemCore.banners (snd (SystemCore.forceBanners registered))).
Proof.
  intros g shown registered. split; [vm_compute; reflexivity|].
  destruct (forceBanners_keeps_stale_count g "memory_system" None)
    as (_ & Hold & _).
  - vm_compute. constructor; [intros []|constructor].
  - discriminate.
  - reflexivity.
  - exact Hold.
Defined.

(** Registered under the name [__proto__], a component is reported
    active, but it is no own property of the registry and the count of
    active components stays as it was. *)
Example registerComponent_proto_scenario :
  let g := snd (SystemCore.registerComponent "system_core" None
                  (mkGlobals Samples.host0 [] None None)) in
  let registered := snd (SystemCore.registerComponent "__proto__" None g) in
  SystemCore.isComponentActive "__proto__" g = false
  /\ SystemCore.isComponentActive "__proto__" registered = true
  /\ map fst (SystemCore.getActiveComponents registered) = ["system_core"].
Proof. vm_compute. repeat split; reflexivity. Qed.
